(** * acoustic_punctuation: attention-based encoder/decoder, model assembly

    A shallow embedding of [src/model.py] and [src/helpers.py].

    Conventions.
    - Theano's [floatX] scalars are read as real numbers ([R]); integer
      tensors ([lmatrix]) hold [Z]; shapes are [nat].
    - A tensor is a shape together with an indexing function, so that
      transposition and slicing are re-indexings, as in Theano.
    - A raised Python exception is a value [Raise e] of the [result] type.
    - A symbolic Theano variable is a function from the named graph inputs
      to a value.
    - The modules [Theano], [Blocks], [MLP] and [SequenceContentAttention],
      and the functions [cost_matrix] and [sequence_generator_generate] of
      [Decoder], hold the operations of the Theano and Blocks libraries that
      the two source files call, written after the libraries.
    - The networks of Blocks whose weights are learned (the gated recurrent
      transition with its forks, the readout network, the emitter, the
      energy computer of the attention) are fields of [Decoder.t]: nothing
      is assumed about them. *)

From Stdlib Require Import Reals Lra Lia ZArith List Bool String.
From stdpp Require Import gmap strings fin_maps.
Import ListNotations.

Local Open Scope R_scope.

(* ===================================================================== *)
(** * Theano: tensors, exceptions, elementwise operations                 *)
(* ===================================================================== *)

Module Theano.

Inductive exn : Set :=
  | ValueError          (* shape mismatch of an elementwise operation or dot *)
  | IndexError          (* subscript out of bounds *)
  | AssertionError
  | MissingInputError   (* a graph input was not supplied, or has the wrong type *)
  | UnboundLocalError.

Inductive result (A : Type) : Type :=
  | Ok (a : A)
  | Raise (e : exn).
Arguments Ok {A} a.
Arguments Raise {A} e.

Definition bind {A B} (c : result A) (k : A -> result B) : result B :=
  match c with
  | Ok a => k a
  | Raise e => Raise e
  end.

Notation "x <- c ;; k" := (bind c (fun x => k))
  (at level 100, c at next level, right associativity).

Fixpoint mapM {A B} (f : A -> result B) (l : list A) : result (list B) :=
  match l with
  | [] => Ok []
  | a :: l' => b <- f a ;; bs <- mapM f l' ;; Ok (b :: bs)
  end.

(** A matrix of shape [(shape0, shape1)]. *)
Record matrix (A : Type) : Type :=
  Mat { shape0 : nat; shape1 : nat; item : nat -> nat -> A }.
Arguments Mat {A} shape0 shape1 item.
Arguments shape0 {A} m.
Arguments shape1 {A} m.
Arguments item {A} m i j.

(** A rank-3 tensor of reals of shape [(dim0, dim1, dim2)]. *)
Record tensor3 : Type :=
  Ten3 { dim0 : nat; dim1 : nat; dim2 : nat; item3 : nat -> nat -> nat -> R }.

(** [m.T] *)
Definition T {A} (m : matrix A) : matrix A :=
  Mat (shape1 m) (shape0 m) (fun i j => item m j i).

(** [tensor.ones((n0, n1))] *)
Definition ones (n0 n1 : nat) : matrix R := Mat n0 n1 (fun _ _ => 1).

(** Sum of [f 0 .. f (n-1)]. *)
Fixpoint rsum (n : nat) (f : nat -> R) : R :=
  match n with
  | O => 0
  | S k => rsum k f + f k
  end.

(** [m.sum()] *)
Definition sum (m : matrix R) : R :=
  rsum (shape0 m) (fun i => rsum (shape1 m) (fun j => item m i j)).

Definition same_shape {A B} (a : matrix A) (b : matrix B) : bool :=
  (shape0 a =? shape0 b)%nat && (shape1 a =? shape1 b)%nat.

(** [a * b] on two matrices without broadcastable dimensions. *)
Definition mul (a b : matrix R) : result (matrix R) :=
  if same_shape a b
  then Ok (Mat (shape0 a) (shape1 a) (fun i j => item a i j * item b i j))
  else Raise ValueError.

(** [m.flatten()], row-major. *)
Definition flatten {A} (m : matrix A) : list A :=
  flat_map (fun i => map (item m i) (seq 0 (shape1 m))) (seq 0 (shape0 m)).

(** [l.reshape((n0, n1) + rest)] of a list of [n0 * n1] entries. *)
Definition reshape {A} (d : A) (n0 n1 : nat) (l : list A) : matrix A :=
  Mat n0 n1 (fun i j => nth (i * n1 + j) l d).

(** [tensor.alloc(v, n, k)] *)
Definition alloc (v : R) (n k : nat) : list (list R) := repeat (repeat v k) n.

(** [tensor.switch(cond[:, None], a, b)] on row lists: the condition is
    broadcast along each row. *)
Fixpoint switch_rows (cond : list bool) (a b : list (list R)) : list (list R) :=
  match cond, a, b with
  | c :: cond', x :: a', y :: b' => (if c then x else y) :: switch_rows cond' a' b'
  | _, _, _ => []
  end.

(** Maximum of [f 0 .. f n] (at least one entry). *)
Fixpoint rmax_upto (n : nat) (f : nat -> R) : R :=
  match n with
  | O => f O
  | S k => Rmax (rmax_upto k f) (f n)
  end.

(** A rank-4 tensor of reals, as [tensor.stack] of rank-3 tensors builds. *)
Record tensor4 : Type :=
  Ten4 { len0 : nat; len1 : nat; len2 : nat; len3 : nat;
         item4 : nat -> nat -> nat -> nat -> R }.

Definition same_shape3 (a b : tensor3) : bool :=
  (dim0 a =? dim0 b)%nat && (dim1 a =? dim1 b)%nat && (dim2 a =? dim2 b)%nat.

Definition zeros3 : tensor3 := Ten3 0 0 0 (fun _ _ _ => 0).

(** [tensor.stack(l, axis=0)]: the tensors must have one shape. *)
Definition stack (l : list tensor3) : result tensor4 :=
  match l with
  | [] => Raise ValueError
  | a :: _ =>
      if forallb (same_shape3 a) l
      then Ok (Ten4 (List.length l) (dim0 a) (dim1 a) (dim2 a)
                 (fun n i j k => item3 (nth n l zeros3) i j k))
      else Raise ValueError
  end.

(** [tensor.max(x, axis=0)] *)
Definition max_axis0 (x : tensor4) : result tensor3 :=
  if (len0 x =? 0)%nat then Raise ValueError
  else Ok (Ten3 (len1 x) (len2 x) (len3 x)
             (fun i j k => rmax_upto (len0 x - 1) (fun n => item4 x n i j k))).

End Theano.
Import Theano.

(* ===================================================================== *)
(** * Blocks: the bricks the model is assembled from                      *)
(* ===================================================================== *)

Module Blocks.

(** [LookupTable]: a [(length, dim)] matrix of embeddings. *)
Record LookupTable : Type :=
  { lookup_length : nat; lookup_dim : nat; lookup_W : nat -> nat -> R }.

Definition row (t : LookupTable) (i : nat) : list R :=
  map (lookup_W t i) (seq 0 (lookup_dim t)).

(** [W[i]] with Python's subscript rule: [-length <= i < length]. *)
Definition subscript (t : LookupTable) (i : Z) : result (list R) :=
  let n := Z.of_nat (lookup_length t) in
  if ((0 <=? i) && (i <? n))%Z then Ok (row t (Z.to_nat i))
  else if ((- n <=? i) && (i <? 0))%Z then Ok (row t (Z.to_nat (n + i)))
  else Raise IndexError.

(** [LookupTable.apply] on a flat vector of indices. *)
Definition lookup_apply (t : LookupTable) (indices : list Z) : result (list (list R)) :=
  mapM (subscript t) indices.

End Blocks.
Import Blocks.

(* ===================================================================== *)
(** * model.py                                                            *)
(* ===================================================================== *)

Module LookupFeedbackWMT15.

(** [LookupFeedback(num_outputs, feedback_dim)]; the lookup table is
    allocated with [length = num_outputs] and [dim = feedback_dim]. *)
Record t : Type :=
  { num_outputs : nat; feedback_dim : nat; output_dim : nat;
    W : nat -> nat -> R }.

Definition lookup (self : t) : LookupTable :=
  {| lookup_length := num_outputs self; lookup_dim := feedback_dim self;
     lookup_W := W self |}.

(** The body of [feedback] between [flatten] and [reshape]. *)
Definition feedback_flat (self : t) (outputs_flat : list Z) : result (list (list R)) :=
  let outputs_flat_zeros :=
    map (fun o => if (o <? 0)%Z then 0%Z else o) outputs_flat in
  looked <- lookup_apply (lookup self) outputs_flat_zeros ;;
  Ok (switch_rows (map (fun o => (o <? 0)%Z) outputs_flat)
        (alloc 0 (List.length outputs_flat) (feedback_dim self))
        looked).

(** [feedback] on a vector of outputs (one token per batch item). *)
Definition feedback1 (self : t) (outputs : list Z) : result (list (list R)) :=
  if negb (output_dim self =? 0)%nat then Raise AssertionError
  else feedback_flat self outputs.

(** [feedback] on a [(time, batch)] matrix of outputs; the result has
    shape [(time, batch, feedback_dim)]. *)
Definition feedback (self : t) (outputs : matrix Z) : result (matrix (list R)) :=
  if negb (output_dim self =? 0)%nat then Raise AssertionError
  else
    lookup_flat <- feedback_flat self (flatten outputs) ;;
    Ok (reshape [] (shape0 outputs) (shape1 outputs) lookup_flat).

(** The zero vector for a negative output, the table row otherwise. *)
Definition embedding (self : t) (o : Z) : list R :=
  if (o <? 0)%Z then repeat 0 (feedback_dim self)
  else row (lookup self) (Z.to_nat o).

(** The outputs whose clamped index is a row of the table. *)
Definition valid_output (self : t) (o : Z) : Prop :=
  ((if o <? 0 then 0 else o) < Z.of_nat (num_outputs self))%Z.

End LookupFeedbackWMT15.

Module MLP.

(** [MLP(activations=[Tanh()], dims=[input_dim, output_dim])]: one
    [Linear] brick followed by [Tanh]. *)
Record t : Type :=
  { input_dim : nat; output_dim : nat;
    W : nat -> nat -> R; b : nat -> R }.

(** [tensor.dot(x, W) + b] on a [(batch, input_dim)] input. *)
Definition affine (self : t) (x : matrix R) : result (matrix R) :=
  if (shape1 x =? input_dim self)%nat
  then Ok (Mat (shape0 x) (output_dim self)
             (fun i j => rsum (input_dim self) (fun k => item x i k * W self k j)
                         + b self j))
  else Raise ValueError.

(** The linear brick followed by [Tanh], the hyperbolic tangent of the
    reals: floatX rounds its values near the ends of the range to -1 and
    1. *)
Definition apply (self : t) (x : matrix R) : result (matrix R) :=
  y <- affine self x ;;
  Ok (Mat (shape0 y) (shape1 y) (fun i j => tanh (item y i j))).

End MLP.

Module GRUInitialState.

(** [GRUInitialState(attended_dim, dim=...)] with the weights of its
    [state_initializer]. *)
Record t : Type :=
  { attended_dim : nat; dim : nat;
    state_initializer_W : nat -> nat -> R;
    state_initializer_b : nat -> R }.

(** [MLP(activations=[Tanh()], dims=[attended_dim, self.dim])] *)
Definition initial_transformer (self : t) : MLP.t :=
  {| MLP.input_dim := attended_dim self; MLP.output_dim := dim self;
     MLP.W := state_initializer_W self; MLP.b := state_initializer_b self |}.

(** First feature kept by the Python slice [-k:] of an axis of length [n]:
    [-0:] is [0:], and a [k] beyond [n] is clipped. *)
Definition slice_start (n k : nat) : nat :=
  if (k =? 0)%nat then 0%nat else (n - k)%nat.

(** [attended[0, :, -k:]] *)
Definition first_position_tail (attended : tensor3) (k : nat) : result (matrix R) :=
  if (dim0 attended =? 0)%nat then Raise IndexError
  else
    let start := slice_start (dim2 attended) k in
    Ok (Mat (dim1 attended) (dim2 attended - start)
          (fun i j => item3 attended 0 i (start + j))).

Definition initial_states (self : t) (attended : tensor3) : result (matrix R) :=
  x <- first_position_tail attended (attended_dim self) ;;
  MLP.apply (initial_transformer self) x.

End GRUInitialState.

(** ** Blocks' attention, as [Decoder] instantiates it

    [GenericSequenceAttention.compute_weights] and
    [compute_weighted_averages] with [SequenceContentAttention.take_glimpses],
    for one batch item. *)

Module SequenceContentAttention.

Section Attention.
(** The energy computer applied to the transformed state and one
    attended vector. *)
Variable energy : list R -> list R -> R.

(** [attended[t, b, :]] *)
Definition attended_at (attended : tensor3) (t b : nat) : list R :=
  map (item3 attended t b) (seq 0 (dim2 attended)).

Definition compute_energies (attended : tensor3) (b : nat) (state : list R)
  : nat -> R :=
  fun t => energy state (attended_at attended t b).

(** [tensor.all(1 - attended_mask, axis=0)] for one batch item. *)
Definition all_unmasked_false (n : nat) (mask : nat -> R) : bool :=
  forallb (fun t => if Req_dec_T (1 - mask t) 0 then false else true) (seq 0 n).

(** [exp(energies - energies.max(axis=0)) * attended_mask] *)
Definition unnormalized_weights (n : nat) (energies mask : nat -> R) : nat -> R :=
  fun t => exp (energies t - rmax_upto (n - 1) energies) * mask t.

(** The sum of the unnormalized weights; when the mask is zero everywhere,
    1 is used as the normalization coefficient. *)
Definition normalization (n : nat) (energies mask : nat -> R) : R :=
  rsum n (unnormalized_weights n energies mask)
  + (if all_unmasked_false n mask then 1 else 0).

(** Softmax-like weights over [n] positions. *)
Definition compute_weights (n : nat) (energies mask : nat -> R) : nat -> R :=
  fun t => unnormalized_weights n energies mask t / normalization n energies mask.

Definition compute_weighted_averages (weights : nat -> R) (attended : tensor3)
    (b : nat) : list R :=
  map (fun j => rsum (dim0 attended) (fun t => weights t * item3 attended t b j))
    (seq 0 (dim2 attended)).

(** The weights of batch item [b]. *)
Definition weights (attended : tensor3) (attended_mask : matrix R)
    (b : nat) (state : list R) : nat -> R :=
  compute_weights (dim0 attended) (compute_energies attended b state)
    (fun t => item attended_mask t b).

(** The glimpse (weighted average) of batch item [b]. *)
Definition take_glimpses (attended : tensor3) (attended_mask : matrix R)
    (b : nat) (state : list R) : list R :=
  compute_weighted_averages (weights attended attended_mask b state) attended b.
End Attention.

End SequenceContentAttention.

Module Decoder.

(** [Decoder(vocab_size, embedding_dim, state_dim, representation_dim)]
    with the parameters of the bricks built in [__init__].  The learned
    networks of the sequence generator are fields:
    - [energy]: the attention's energy computer on a state and one attended
      vector;
    - [gru_step]: fork, glimpse distribution and one [GatedRecurrent] step,
      on (state, feedback of the current output, glimpse);
    - [readout_cost]: the readout network followed by the softmax cost of a
      target token, on (state, feedback of the previous output, glimpse);
    - [emit]: the readout network followed by [SoftmaxEmitter.emit], on
      (state, feedback of the previous output, glimpse) and a random draw. *)
Record t : Type :=
  { vocab_size : nat; embedding_dim : nat; state_dim : nat;
    representation_dim : nat;
    state_initializer_W : nat -> nat -> R;
    state_initializer_b : nat -> R;
    embeddings : nat -> nat -> R;
    energy : list R -> list R -> R;
    gru_step : list R -> list R -> list R -> list R;
    readout_cost : list R -> list R -> list R -> Z -> R;
    emit : list R -> list R -> list R -> R -> Z }.

(** [GRUInitialState(attended_dim=state_dim, dim=state_dim, ...)] *)
Definition transition (self : t) : GRUInitialState.t :=
  {| GRUInitialState.attended_dim := state_dim self;
     GRUInitialState.dim := state_dim self;
     GRUInitialState.state_initializer_W := state_initializer_W self;
     GRUInitialState.state_initializer_b := state_initializer_b self |}.

(** [LookupFeedbackWMT15(vocab_size, embedding_dim)]; the readout sets its
    [output_dim] to the emitter's, which is 0 for token outputs. *)
Definition feedback_brick (self : t) : LookupFeedbackWMT15.t :=
  {| LookupFeedbackWMT15.num_outputs := vocab_size self;
     LookupFeedbackWMT15.feedback_dim := embedding_dim self;
     LookupFeedbackWMT15.output_dim := 0;
     LookupFeedbackWMT15.W := embeddings self |}.

(** [SoftmaxEmitter(initial_output=-1).initial_outputs(batch_size)] *)
Definition initial_outputs (batch_size : nat) : list Z := repeat (-1)%Z batch_size.

(** The masked state update of [GatedRecurrent.apply]:
    [next_states * mask + states * (1 - mask)]. *)
Definition masked_update (m : R) (next_states states : list R) : list R :=
  zip_with (fun n s => n * m + s * (1 - m)) next_states states.

(** Row [b] of a [(batch, dim)] matrix. *)
Definition matrix_row (m : matrix R) (b : nat) : list R :=
  map (item m b) (seq 0 (shape1 m)).

Section Recurrence.
Variable self : t.
Variables (attended : tensor3) (attended_mask : matrix R).

Definition glimpse (b : nat) (state : list R) : list R :=
  SequenceContentAttention.take_glimpses (energy self) attended attended_mask b state.

Section Teacher.
Variables (mask : matrix R) (outputs : matrix Z).
Variables (feedback : matrix (list R)) (first_feedback : list (list R)).
Variable initial : matrix R.

(** State of batch item [b] before step [t]. *)
Fixpoint states (t b : nat) {struct t} : list R :=
  match t with
  | O => matrix_row initial b
  | S t' =>
      let s := states t' b in
      masked_update (item mask t' b)
        (gru_step self s (item feedback t' b) (glimpse b s)) s
  end.

(** [tensor.roll(feedback, 1, 0)] with row 0 set to the feedback of the
    initial outputs. *)
Definition rolled_feedback (t b : nat) : list R :=
  match t with
  | O => nth b first_feedback []
  | S t' => item feedback t' b
  end.

Definition costs (t b : nat) : R :=
  let s := states t b in
  readout_cost self s (rolled_feedback t b) (glimpse b s) (item outputs t b).
End Teacher.

(** One step of [SequenceGenerator.generate] on the whole batch. *)
Definition generate_step (draws : nat -> R)
    (states : list (list R)) (outputs : list Z)
  : result (list (list R) * list Z) :=
  feedback <- LookupFeedbackWMT15.feedback1 (feedback_brick self) outputs ;;
  let batch := seq 0 (List.length states) in
  let next_glimpses := map (fun b => glimpse b (nth b states [])) batch in
  let next_outputs :=
    map (fun b => emit self (nth b states []) (nth b feedback [])
                    (nth b next_glimpses []) (draws b)) batch in
  next_feedback <- LookupFeedbackWMT15.feedback1 (feedback_brick self) next_outputs ;;
  let next_states :=
    map (fun b => gru_step self (nth b states []) (nth b next_feedback [])
                    (nth b next_glimpses [])) batch in
  Ok (next_states, next_outputs).

(** [n] iterations from step [step]; returns the outputs of every
    iteration and the number of iterations that were run. *)
Fixpoint generate_loop (n step : nat) (draws : nat -> nat -> R)
    (states : list (list R)) (outputs : list Z)
  : result (list (list Z) * nat) :=
  match n with
  | O => Ok ([], step)
  | S n' =>
      so <- generate_step (draws step) states outputs ;;
      rest <- generate_loop n' (S step) draws (fst so) (snd so) ;;
      Ok (snd so :: fst rest, snd rest)
  end.

(** The same loop read for one batch item: the token emitted for item [b]
    at step [step + k], from the state [s] and the output [o] the item has
    before step [step].  The emitter gets the state, the feedback of [o],
    the glimpse of the state and the draw of the step; the state moves on
    with the feedback of the new token, whatever token it is. *)
Fixpoint generated_token (draws : nat -> nat -> R) (b k step : nat)
    (s : list R) (o : Z) {struct k} : Z :=
  let g := glimpse b s in
  let o' := emit self s (LookupFeedbackWMT15.embedding (feedback_brick self) o) g
              (draws step b) in
  match k with
  | O => o'
  | S k' =>
      generated_token draws b k' (S step)
        (gru_step self s (LookupFeedbackWMT15.embedding (feedback_brick self) o') g) o'
  end.
End Recurrence.

(** Shapes the elementwise operations of one recurrent step require. *)
Definition shapes_agree (batch_size : nat) (attended : tensor3)
  (attended_mask : matrix R) : bool :=
  (dim1 attended =? batch_size)%nat
  && (shape0 attended_mask =? dim0 attended)%nat
  && (shape1 attended_mask =? batch_size)%nat.

(** Dimensions the bricks built in [__init__] are allocated for: the
    attention reads [attended_dim = representation_dim] features of the
    attended, and [Maxout(num_pieces=2)] splits the [merged_dim = state_dim]
    features of the merged readout into pairs. *)
Definition dims_agree (self : t) (attended : tensor3) : bool :=
  (dim2 attended =? representation_dim self)%nat && Nat.even (state_dim self).

(** [SequenceGenerator.cost_matrix(mask, outputs, attended, attended_mask)]:
    all tensors time-major; the result has the shape of [outputs]. *)
Definition cost_matrix (self : t) (mask : matrix R) (outputs : matrix Z)
  (attended : tensor3) (attended_mask : matrix R) : result (matrix R) :=
  let batch_size := shape1 outputs in
  feedback <- LookupFeedbackWMT15.feedback (feedback_brick self) outputs ;;
  initial <- GRUInitialState.initial_states (transition self) attended ;;
  first_feedback <-
  LookupFeedbackWMT15.feedback1 (feedback_brick self) (initial_outputs batch_size) ;;
  if same_shape mask outputs && shapes_agree batch_size attended attended_mask
     && dims_agree self attended
  then Ok (Mat (shape0 outputs) batch_size
           (fun t b => costs self attended attended_mask mask outputs
                         feedback first_feedback initial t b
                       * item mask t b))
  else Raise ValueError.

(** [SequenceGenerator.generate(n_steps, batch_size, attended, attended_mask)]:
    the [outputs] of the [n_steps] iterations, with the count of iterations. *)
Definition sequence_generator_generate (self : t) (n_steps batch_size : nat)
  (attended : tensor3) (attended_mask : matrix R) (draws : nat -> nat -> R)
  : result (list (list Z) * nat) :=
  initial <- GRUInitialState.initial_states (transition self) attended ;;
  if shapes_agree batch_size attended attended_mask && dims_agree self attended
  then generate_loop self attended attended_mask n_steps 0 draws
       (map (matrix_row initial) (seq 0 batch_size))
       (initial_outputs batch_size)
  else Raise ValueError.

(** [cost(representation, source_sentence_mask, target_sentence,
    target_sentence_mask)] on batch-major masks and targets.  The quotient
    is that of the reals; the float quotient of 0.0 by 0 that the program
    computes on a batch without items has no counterpart here. *)
Definition cost (self : t) (representation : tensor3)
  (source_sentence_mask : matrix R) (target_sentence : matrix Z)
  (target_sentence_mask : matrix R) : result R :=
  let source_sentence_mask := T source_sentence_mask in
  let target_sentence := T target_sentence in
  let target_sentence_mask := T target_sentence_mask in
  cost <- cost_matrix self target_sentence_mask target_sentence
          representation source_sentence_mask ;;
  masked <- mul cost target_sentence_mask ;;
  Ok (sum masked / INR (shape1 target_sentence_mask)).

Definition generate (self : t) (representation : tensor3)
  (draws : nat -> nat -> R) : result (list (list Z) * nat) :=
  let length := dim0 representation in
  let batch_size := dim1 representation in
  sequence_generator_generate self (2 * length) batch_size representation
  (T (ones batch_size length)) draws.

End Decoder.

(* ===================================================================== *)
(** * helpers.py                                                          *)
(* ===================================================================== *)

Module Helpers.

Local Open Scope string_scope.

(** Values bound to the named inputs of a computation graph. *)
Inductive value : Type :=
  | IntMatrix (m : matrix Z)
  | FloatMatrix (m : matrix R)
  | FloatTensor3 (x : tensor3).

Definition inputs : Type := gmap string value.

(** A symbolic variable: its value once the graph inputs are given. *)
Definition variable (A : Type) : Type := inputs -> result A.

(** [tensor.lmatrix(name)] *)
Definition lmatrix (name : string) : variable (matrix Z) :=
  fun env => match env !! name with
           | Some (IntMatrix m) => Ok m
           | _ => Raise MissingInputError
           end.

(** [tensor.matrix(name)] *)
Definition matrix_ (name : string) : variable (matrix R) :=
  fun env => match env !! name with
           | Some (FloatMatrix m) => Ok m
           | _ => Raise MissingInputError
           end.

(** [x + y] on symbolic scalars. *)
Definition add (x y : variable R) : variable R :=
  fun env => a <- x env ;; b <- y env ;; Ok (a + b).

(** The generation graph: it also consumes the random draws of the
    emitter. *)
Definition sampler : Type := inputs -> (nat -> nat -> R) -> result (list (list Z) * nat).

(** A brick as [print_parameteters] sees it: the shapes of the parameters
    [Selector(model).get_parameters()] returns, by name. *)
Record brick : Type := { get_parameters : gmap string (list nat) }.

(** What a [create_*_encoder] returns: the initialised encoder and its
    training and sampling representations. *)
Record encoder : Type :=
  { encoder_brick : brick;
    training_representation : variable tensor3;
    sampling_representation : variable tensor3 }.

(** The only configuration entry the assembly branches on. *)
Record config : Type := { input : string }.

Inductive log_record : Type :=
  | ParameterNames
  | ParameterLine (shape : list nat) (name : string)
  | Total (number_of_parameters : nat).

(** [np.product(shape)] *)
Definition product (shape : list nat) : nat := fold_right Nat.mul 1%nat shape.

(** [toolz.merge] of a list of dictionaries: later ones take precedence. *)
Definition merge (dicts : list (gmap string (list nat))) : gmap string (list nat) :=
  foldl (fun acc d => d ∪ acc) ∅ dicts.

Definition count_parameters (param_dict : gmap string (list nat)) : nat :=
  map_fold (fun _ value number_of_parameters =>
              (number_of_parameters + product value)%nat) 0%nat param_dict.

(** The records [print_parameteters] logs: the header, one line per entry
    of the merged dictionary, then the total.  The lines come in the order
    of the map's keys here, in the order of the dictionary in the program. *)
Definition print_parameteters (models : list brick) : list log_record :=
  let param_dict := merge (map get_parameters models) in
  let number_of_parameters := count_parameters param_dict in
  [ParameterNames]
  ++ map (fun nv => ParameterLine (snd nv) (fst nv)) (map_to_list param_dict)
  ++ [Total number_of_parameters].

(** The total a log reports. *)
Fixpoint reported_total (log : list log_record) : option nat :=
  match log with
  | [] => None
  | Total n :: _ => Some n
  | _ :: log' => reported_total log'
  end.

Section Assembly.
(** The bricks the [create_*] functions build and initialise from the
    configuration. *)
Variables (create_word_encoder create_audio_encoder : config -> encoder).
Variable new_decoder : config -> Decoder.t.
Variable decoder_brick : config -> brick.

Definition use_decoder_on_representations (decoder : Decoder.t)
    (training_representation sampling_representation : variable tensor3)
  : variable R * sampler * sampler :=
  let punctuation_marks := lmatrix "punctuation_marks" in
  let punctuation_marks_mask := matrix_ "punctuation_marks_mask" in
  let cost : variable R :=
    fun env =>
      representation <- training_representation env ;;
      marks <- punctuation_marks env ;;
      marks_mask <- punctuation_marks_mask env ;;
      Decoder.cost decoder representation marks_mask marks marks_mask in
  let generated : sampler :=
    fun env draws =>
      representation <- sampling_representation env ;;
      Decoder.generate decoder representation draws in
  let search_model := generated in
  let samples := generated in
  (cost, samples, search_model).

Definition create_decoder (config : config)
    (training_representation sampling_representation : variable tensor3)
  : Decoder.t * (variable R * sampler * sampler) :=
  let decoder := new_decoder config in
  (decoder,
   use_decoder_on_representations decoder training_representation
     sampling_representation).

Definition merge_representations (words audio : variable tensor3)
  : variable tensor3 :=
  fun env =>
    w <- words env ;; a <- audio env ;;
    stacked <- stack [w; a] ;;
    max_axis0 stacked.

(** The encoders and the two representations [create_model] hands to
    [create_decoder]; with another [input] the representations are unbound
    at that call. *)
Definition representations (config : config)
  : result (list brick * variable tensor3 * variable tensor3) :=
  if String.eqb (input config) "words" then
    let e := create_word_encoder config in
    Ok ([encoder_brick e], training_representation e, sampling_representation e)
  else if String.eqb (input config) "audio" then
    let e := create_audio_encoder config in
    Ok ([encoder_brick e], training_representation e, sampling_representation e)
  else if String.eqb (input config) "both" then
    let w := create_word_encoder config in
    let a := create_audio_encoder config in
    Ok ([encoder_brick w; encoder_brick a],
        merge_representations (training_representation w) (training_representation a),
        merge_representations (sampling_representation w) (sampling_representation a))
  else Raise UnboundLocalError.

(** Returns the log of [print_parameteters] with the tuple
    [(cost, samples, search_model)]. *)
Definition create_model (config : config)
  : result (list log_record * (variable R * sampler * sampler)) :=
  r <- representations config ;;
  let '(models, training_representation, sampling_representation) := r in
  let '(_, graphs) :=
    create_decoder config training_representation sampling_representation in
  let log := print_parameteters (models ++ [decoder_brick config]) in
  Ok (log, graphs).

Definition create_multitask_model (config : config)
  : list log_record * (variable R * sampler * sampler) :=
  let w := create_word_encoder config in
  let a := create_audio_encoder config in
  let models := [encoder_brick w; encoder_brick a] in
  let '(decoder, (words_cost, words_samples, words_search_model)) :=
    create_decoder config (training_representation w) (sampling_representation w) in
  let '(audio_cost, audio_samples, audio_search_model) :=
    use_decoder_on_representations decoder
      (training_representation a) (sampling_representation a) in
  let log := print_parameteters (models ++ [decoder_brick config]) in
  let words_cost := add words_cost audio_cost in
  let cost := add words_cost audio_cost in
  (log, (cost, words_samples, words_search_model)).
End Assembly.

End Helpers.


(* ===================================================================== *)
(** * Padded batches                                                      *)
(* ===================================================================== *)

Module Padding.

(** [m'] is the batch-major matrix [m] with [k] more positions for every
    batch item. *)
Definition pads {A} (k : nat) (m m' : matrix A) : Prop :=
  shape0 m' = shape0 m /\ shape1 m' = (shape1 m + k)%nat
  /\ forall b t, (b < shape0 m)%nat -> (t < shape1 m)%nat ->
       item m' b t = item m b t.

(** The mask [m'] is [m] with [k] more positions, all masked out. *)
Definition pads_masked (k : nat) (m m' : matrix R) : Prop :=
  pads k m m'
  /\ forall b t, (b < shape0 m)%nat -> (shape1 m <= t < shape1 m + k)%nat ->
       item m' b t = 0.

(** The time-major representation [a'] is [a] with [k] more positions. *)
Definition pads3 (k : nat) (a a' : tensor3) : Prop :=
  dim0 a' = (dim0 a + k)%nat /\ dim1 a' = dim1 a /\ dim2 a' = dim2 a
  /\ forall t b j, (t < dim0 a)%nat -> (b < dim1 a)%nat -> (j < dim2 a)%nat ->
       item3 a' t b j = item3 a t b j.

(** A mask holds 0 or 1 at every position. *)
Definition binary_mask (m : matrix R) : Prop :=
  forall b t, (b < shape0 m)%nat -> (t < shape1 m)%nat ->
    item m b t = 0 \/ item m b t = 1.

End Padding.

(* ===================================================================== *)
(** * model.py: the encoders                                              *)
(* ===================================================================== *)

(** ** Blocks' bricks, as the encoders use them *)

(** [LookupTable.apply] on a matrix of indices: the rows of the flattened
    indices, reshaped to the shape of the indices and the table's [dim]. *)
Definition lookup_apply_matrix (t : LookupTable) (indices : matrix Z) : result tensor3 :=
  rows <- lookup_apply t (flatten indices) ;;
  Ok (Ten3 (shape0 indices) (shape1 indices) (lookup_dim t)
        (fun i k j => nth j (nth (i * shape1 indices + k) rows []) 0)).

Module GatedRecurrent.

(** [GatedRecurrent(dim=...)] for one batch item: [transition] is one step
    on (state, inputs, gate_inputs); [initial_state] is its parameter of
    that name. *)
Record t : Type :=
  { dim : nat;
    transition : list R -> list R -> list R -> list R;
    initial_state : list R }.

(** The states after each step, in the order the steps are taken; a step
    under mask [m] keeps [next * m + state * (1 - m)]. *)
Fixpoint scan (self : t) (state : list R)
    (inputs : list (list R * list R)) (mask : list R) : list (list R) :=
  match inputs, mask with
  | x :: inputs', m :: mask' =>
      let next :=
        Decoder.masked_update m (transition self state (fst x) (snd x)) state in
      next :: scan self next inputs' mask'
  | _, _ => []
  end.

(** [apply(reverse=..., mask=..., inputs=..., gate_inputs=...)]: with
    [reverse] the sequences are walked from their last position, and the
    states come out in the order they are computed. *)
Definition apply (self : t) (reverse : bool)
    (inputs : list (list R * list R)) (mask : list R) : list (list R) :=
  if reverse
  then scan self (initial_state self) (rev inputs) (rev mask)
  else scan self (initial_state self) inputs mask.

(** The dimensions the brick is allocated with. *)
Definition well_formed (self : t) : Prop :=
  List.length (initial_state self) = dim self
  /\ forall s x g, List.length s = dim self ->
       List.length (transition self s x g) = dim self.

End GatedRecurrent.

Module Fork.

(** [Fork([inputs, gate_inputs], prototype=Linear())] with its
    [input_dim]: [outputs] holds the two linear maps. *)
Record t : Type :=
  { input_dim : nat; outputs : list R -> list R * list R }.

End Fork.

Module BidirectionalWMT15.

(** [children[0]] and [children[1]]: two recurrent bricks with separate
    parameters. *)
Record t : Type :=
  { forward : GatedRecurrent.t; backward : GatedRecurrent.t }.

(** [apply(forward_dict, backward_dict)] for one batch item: the backward
    states are put back in the order of the positions and concatenated to
    the forward states. *)
Definition apply (self : t)
    (forward_inputs backward_inputs : list (list R * list R))
    (forward_mask backward_mask : list R) : list (list R) :=
  let forward := GatedRecurrent.apply (forward self) false forward_inputs forward_mask in
  let backward :=
    rev (GatedRecurrent.apply (backward self) true backward_inputs backward_mask) in
  zip_with (fun f b => f ++ b) forward backward.

(** The feature dimension of the concatenated states. *)
Definition output_dim (self : t) : nat :=
  (GatedRecurrent.dim (forward self) + GatedRecurrent.dim (backward self))%nat.

(** The call
    [bidir.apply(merge(fwd_fork.apply(x), {'mask': mask}),
                 merge(back_fork.apply(x), {'mask': mask}))]
    on a time-major sequence [x] of shape (time, batch, features) and a
    time-major mask.  The forks multiply by matrices of [input_dim] rows.
    The recurrent bricks take the number of steps and the batch size from
    the mask, the first of their sequences: a shorter [x] or another batch
    size raises, a longer [x] is walked for the steps of the mask only
    (from its last position by the backward brick). *)
Definition apply_forked (self : t) (fwd_fork back_fork : Fork.t)
    (sequence : tensor3) (mask : matrix R) : result tensor3 :=
  if negb ((dim2 sequence =? Fork.input_dim fwd_fork)%nat
           && (dim2 sequence =? Fork.input_dim back_fork)%nat)
  then Raise ValueError
  else if negb ((shape0 mask <=? dim0 sequence)%nat
                && (shape1 mask =? dim1 sequence)%nat)
  then Raise ValueError
  else
    Ok (Ten3 (shape0 mask) (shape1 mask) (output_dim self)
          (fun t b j =>
             let column :=
               map (fun t' => SequenceContentAttention.attended_at sequence t' b)
                 (seq 0 (dim0 sequence)) in
             let mask_column := map (fun t' => item mask t' b) (seq 0 (shape0 mask)) in
             nth j (nth t (apply self
                             (map (Fork.outputs fwd_fork) column)
                             (map (Fork.outputs back_fork) column)
                             mask_column mask_column) []) 0)).

End BidirectionalWMT15.

Module BidirectionalEncoder.

(** [BidirectionalEncoder(vocab_size, embedding_dim, state_dim)] with the
    parameters of its lookup table, forks and recurrent bricks. *)
Record t : Type :=
  { vocab_size : nat; embedding_dim : nat; state_dim : nat;
    words_embeddings : nat -> nat -> R;
    fwd_fork_outputs : list R -> list R * list R;
    back_fork_outputs : list R -> list R * list R;
    fwd_transition : list R -> list R -> list R -> list R;
    back_transition : list R -> list R -> list R -> list R;
    fwd_initial_state : list R;
    back_initial_state : list R }.

(** [_push_allocation_config]: [lookup.length = vocab_size],
    [lookup.dim = embedding_dim]. *)
Definition lookup (self : t) : LookupTable :=
  {| lookup_length := vocab_size self; lookup_dim := embedding_dim self;
     lookup_W := words_embeddings self |}.

(** [BidirectionalWMT15(GatedRecurrent(activation=Tanh(), dim=state_dim))] *)
Definition bidir (self : t) : BidirectionalWMT15.t :=
  {| BidirectionalWMT15.forward :=
       {| GatedRecurrent.dim := state_dim self;
          GatedRecurrent.transition := fwd_transition self;
          GatedRecurrent.initial_state := fwd_initial_state self |};
     BidirectionalWMT15.backward :=
       {| GatedRecurrent.dim := state_dim self;
          GatedRecurrent.transition := back_transition self;
          GatedRecurrent.initial_state := back_initial_state self |} |}.

(** [_push_allocation_config]: [fwd_fork.input_dim = embedding_dim]. *)
Definition fwd_fork (self : t) : Fork.t :=
  {| Fork.input_dim := embedding_dim self; Fork.outputs := fwd_fork_outputs self |}.

Definition back_fork (self : t) : Fork.t :=
  {| Fork.input_dim := embedding_dim self; Fork.outputs := back_fork_outputs self |}.

(** [lookup.apply(words)] on a time-major matrix of tokens. *)
Definition embed (self : t) (words : matrix Z) : result tensor3 :=
  lookup_apply_matrix (lookup self) words.

(** [apply(words, words_mask)] on batch-major inputs; the representation is
    time-major. *)
Definition apply (self : t) (words : matrix Z) (words_mask : matrix R)
  : result tensor3 :=
  let words := T words in
  let words_mask := T words_mask in
  embeddings <- embed self words ;;
  BidirectionalWMT15.apply_forked (bidir self) (fwd_fork self) (back_fork self)
    embeddings words_mask.

End BidirectionalEncoder.

Module BidirectionalAudioEncoder.

(** [BidirectionalAudioEncoder(feature_size, embedding_dim, state_dim)] with
    the parameters of its two bidirectional stages ([embedding] over the
    frames, [bidir] over the words) and of their forks. *)
Record t : Type :=
  { feature_size : nat; embedding_dim : nat; state_dim : nat;
    embedding_fwd_fork_outputs : list R -> list R * list R;
    embedding_back_fork_outputs : list R -> list R * list R;
    embedding_fwd_transition : list R -> list R -> list R -> list R;
    embedding_back_transition : list R -> list R -> list R -> list R;
    embedding_fwd_initial_state : list R;
    embedding_back_initial_state : list R;
    fwd_fork_outputs : list R -> list R * list R;
    back_fork_outputs : list R -> list R * list R;
    fwd_transition : list R -> list R -> list R -> list R;
    back_transition : list R -> list R -> list R -> list R;
    fwd_initial_state : list R;
    back_initial_state : list R }.

(** [BidirectionalWMT15(GatedRecurrent(activation=Tanh(), dim=state_dim),
    name="audio_embeddings")] *)
Definition embedding (self : t) : BidirectionalWMT15.t :=
  {| BidirectionalWMT15.forward :=
       {| GatedRecurrent.dim := state_dim self;
          GatedRecurrent.transition := embedding_fwd_transition self;
          GatedRecurrent.initial_state := embedding_fwd_initial_state self |};
     BidirectionalWMT15.backward :=
       {| GatedRecurrent.dim := state_dim self;
          GatedRecurrent.transition := embedding_back_transition self;
          GatedRecurrent.initial_state := embedding_back_initial_state self |} |}.

(** [BidirectionalWMT15(GatedRecurrent(activation=Tanh(), dim=state_dim),
    name="audio_representation")] *)
Definition bidir (self : t) : BidirectionalWMT15.t :=
  {| BidirectionalWMT15.forward :=
       {| GatedRecurrent.dim := state_dim self;
          GatedRecurrent.transition := fwd_transition self;
          GatedRecurrent.initial_state := fwd_initial_state self |};
     BidirectionalWMT15.backward :=
       {| GatedRecurrent.dim := state_dim self;
          GatedRecurrent.transition := back_transition self;
          GatedRecurrent.initial_state := back_initial_state self |} |}.

(** [_push_allocation_config]: the forks of the first stage read
    [feature_size] features, those of the second [2 * embedding_dim]. *)
Definition embedding_fwd_fork (self : t) : Fork.t :=
  {| Fork.input_dim := feature_size self;
     Fork.outputs := embedding_fwd_fork_outputs self |}.

Definition embedding_back_fork (self : t) : Fork.t :=
  {| Fork.input_dim := feature_size self;
     Fork.outputs := embedding_back_fork_outputs self |}.

Definition fwd_fork (self : t) : Fork.t :=
  {| Fork.input_dim := (2 * embedding_dim self)%nat;
     Fork.outputs := fwd_fork_outputs self |}.

Definition back_fork (self : t) : Fork.t :=
  {| Fork.input_dim := (2 * embedding_dim self)%nat;
     Fork.outputs := back_fork_outputs self |}.

(** [x.dimshuffle(1, 0, 2)] *)
Definition dimshuffle102 (x : tensor3) : tensor3 :=
  Ten3 (dim1 x) (dim0 x) (dim2 x) (fun i j k => item3 x j i k).

(** Length of the broadcast of two index axes of lengths [n] and [m]. *)
Definition broadcast (n m : nat) : result nat :=
  if (n =? m)%nat then Ok n
  else if (n =? 1)%nat then Ok m
  else if (m =? 1)%nat then Ok n
  else Raise IndexError.

(** Position selected on an axis of length [n] by the subscript [i], for
    [-n <= i < n]. *)
Definition wrap (n : nat) (i : Z) : nat :=
  Z.to_nat (if (i <? 0)%Z then Z.of_nat n + i else i).

Definition in_bounds (n : nat) (i : Z) : bool :=
  ((- Z.of_nat n <=? i) && (i <? Z.of_nat n))%Z.

(** [embeddings.dimshuffle(1, 0, 2)[rows, words_ends].dimshuffle(1, 0, 2)]
    with [rows = tensor.arange(batch_size).reshape((batch_size, 1))]:
    [embeddings] is time-major, [words_ends] batch-major. *)
Definition take_words_ends (batch_size : nat) (embeddings : tensor3)
    (words_ends : matrix Z) : result tensor3 :=
  n <- broadcast batch_size (shape0 words_ends) ;;
  let row := fun i => if (batch_size =? 1)%nat then 0%nat else i in
  let ends := fun i w => item words_ends (if (shape0 words_ends =? 1)%nat then 0%nat else i) w in
  if forallb (fun i =>
                (row i <? dim1 embeddings)%nat
                && forallb (fun w => in_bounds (dim0 embeddings) (ends i w))
                     (seq 0 (shape1 words_ends)))
       (seq 0 n)
  then Ok (Ten3 (shape1 words_ends) n (dim2 embeddings)
             (fun w i j =>
                item3 embeddings (wrap (dim0 embeddings) (ends i w)) (row i) j))
  else Raise IndexError.

(** [apply(audio, audio_mask, words_ends, words_ends_mask)]: all inputs
    batch-major, the representation time-major over the words. *)
Definition apply (self : t) (audio : tensor3) (audio_mask : matrix R)
    (words_ends : matrix Z) (words_ends_mask : matrix R) : result tensor3 :=
  let batch_size := dim0 audio in
  let audio := dimshuffle102 audio in
  let audio_mask := T audio_mask in
  embeddings <-
    BidirectionalWMT15.apply_forked (embedding self) (embedding_fwd_fork self)
      (embedding_back_fork self) audio audio_mask ;;
  embeddings <- take_words_ends batch_size embeddings words_ends ;;
  let words_ends_mask := T words_ends_mask in
  BidirectionalWMT15.apply_forked (bidir self) (fwd_fork self) (back_fork self)
    embeddings words_ends_mask.

End BidirectionalAudioEncoder.

Module BidirectionalPhonesEncoder.

(** [BidirectionalPhonesEncoder(vocab_size, embedding_dim, state_dim)]
    with the parameters of its lookup table, of its two bidirectional
    stages ([embedding] over the phones, [bidir] over the words) and of
    their forks. *)
Record t : Type :=
  { vocab_size : nat; embedding_dim : nat; state_dim : nat;
    phones_embeddings : nat -> nat -> R;
    embedding_fwd_fork_outputs : list R -> list R * list R;
    embedding_back_fork_outputs : list R -> list R * list R;
    embedding_fwd_transition : list R -> list R -> list R -> list R;
    embedding_back_transition : list R -> list R -> list R -> list R;
    embedding_fwd_initial_state : list R;
    embedding_back_initial_state : list R;
    fwd_fork_outputs : list R -> list R * list R;
    back_fork_outputs : list R -> list R * list R;
    fwd_transition : list R -> list R -> list R -> list R;
    back_transition : list R -> list R -> list R -> list R;
    fwd_initial_state : list R;
    back_initial_state : list R }.

(** [_push_allocation_config]: [lookup.length = vocab_size],
    [lookup.dim = embedding_dim]. *)
Definition lookup (self : t) : LookupTable :=
  {| lookup_length := vocab_size self; lookup_dim := embedding_dim self;
     lookup_W := phones_embeddings self |}.

Definition embedding (self : t) : BidirectionalWMT15.t :=
  {| BidirectionalWMT15.forward :=
       {| GatedRecurrent.dim := state_dim self;
          GatedRecurrent.transition := embedding_fwd_transition self;
          GatedRecurrent.initial_state := embedding_fwd_initial_state self |};
     BidirectionalWMT15.backward :=
       {| GatedRecurrent.dim := state_dim self;
          GatedRecurrent.transition := embedding_back_transition self;
          GatedRecurrent.initial_state := embedding_back_initial_state self |} |}.

Definition bidir (self : t) : BidirectionalWMT15.t :=
  {| BidirectionalWMT15.forward :=
       {| GatedRecurrent.dim := state_dim self;
          GatedRecurrent.transition := fwd_transition self;
          GatedRecurrent.initial_state := fwd_initial_state self |};
     BidirectionalWMT15.backward :=
       {| GatedRecurrent.dim := state_dim self;
          GatedRecurrent.transition := back_transition self;
          GatedRecurrent.initial_state := back_initial_state self |} |}.

(** [_push_allocation_config]: the forks of the first stage read
    [embedding_dim] features, those of the second [2 * embedding_dim]. *)
Definition embedding_fwd_fork (self : t) : Fork.t :=
  {| Fork.input_dim := embedding_dim self;
     Fork.outputs := embedding_fwd_fork_outputs self |}.

Definition embedding_back_fork (self : t) : Fork.t :=
  {| Fork.input_dim := embedding_dim self;
     Fork.outputs := embedding_back_fork_outputs self |}.

Definition fwd_fork (self : t) : Fork.t :=
  {| Fork.input_dim := (2 * embedding_dim self)%nat;
     Fork.outputs := fwd_fork_outputs self |}.

Definition back_fork (self : t) : Fork.t :=
  {| Fork.input_dim := (2 * embedding_dim self)%nat;
     Fork.outputs := back_fork_outputs self |}.

(** [apply(phones, phones_mask, phones_words_ends,
    phones_words_ends_mask)]: all inputs batch-major, the representation
    time-major over the words. *)
Definition apply (self : t) (phones : matrix Z) (phones_mask : matrix R)
    (phones_words_ends : matrix Z) (phones_words_ends_mask : matrix R)
  : result tensor3 :=
  let batch_size := shape0 phones in
  phones <- lookup_apply_matrix (lookup self) phones ;;
  let phones := BidirectionalAudioEncoder.dimshuffle102 phones in
  let phones_mask := T phones_mask in
  embeddings <-
    BidirectionalWMT15.apply_forked (embedding self) (embedding_fwd_fork self)
      (embedding_back_fork self) phones phones_mask ;;
  embeddings <-
    BidirectionalAudioEncoder.take_words_ends batch_size embeddings phones_words_ends ;;
  let phones_words_ends_mask := T phones_words_ends_mask in
  BidirectionalWMT15.apply_forked (bidir self) (fwd_fork self) (back_fork self)
    embeddings phones_words_ends_mask.

End BidirectionalPhonesEncoder.

Module BidirectionalPhonemeAudioEncoder.

(** [BidirectionalPhonemeAudioEncoder(feature_size, embedding_dim,
    state_dim)] with the parameters of its three bidirectional stages
    ([audio_embedding] over the frames, [phoneme_embedding] over the
    phonemes, [words_embedding] over the words) and of their forks. *)
Record t : Type :=
  { feature_size : nat; embedding_dim : nat; state_dim : nat;
    audio_fwd_fork_outputs : list R -> list R * list R;
    audio_back_fork_outputs : list R -> list R * list R;
    audio_fwd_transition : list R -> list R -> list R -> list R;
    audio_back_transition : list R -> list R -> list R -> list R;
    audio_fwd_initial_state : list R;
    audio_back_initial_state : list R;
    phoneme_fwd_fork_outputs : list R -> list R * list R;
    phoneme_back_fork_outputs : list R -> list R * list R;
    phoneme_fwd_transition : list R -> list R -> list R -> list R;
    phoneme_back_transition : list R -> list R -> list R -> list R;
    phoneme_fwd_initial_state : list R;
    phoneme_back_initial_state : list R;
    words_fwd_fork_outputs : list R -> list R * list R;
    words_back_fork_outputs : list R -> list R * list R;
    words_fwd_transition : list R -> list R -> list R -> list R;
    words_back_transition : list R -> list R -> list R -> list R;
    words_fwd_initial_state : list R;
    words_back_initial_state : list R }.

Definition audio_embedding (self : t) : BidirectionalWMT15.t :=
  {| BidirectionalWMT15.forward :=
       {| GatedRecurrent.dim := state_dim self;
          GatedRecurrent.transition := audio_fwd_transition self;
          GatedRecurrent.initial_state := audio_fwd_initial_state self |};
     BidirectionalWMT15.backward :=
       {| GatedRecurrent.dim := state_dim self;
          GatedRecurrent.transition := audio_back_transition self;
          GatedRecurrent.initial_state := audio_back_initial_state self |} |}.

Definition phoneme_embedding (self : t) : BidirectionalWMT15.t :=
  {| BidirectionalWMT15.forward :=
       {| GatedRecurrent.dim := state_dim self;
          GatedRecurrent.transition := phoneme_fwd_transition self;
          GatedRecurrent.initial_state := phoneme_fwd_initial_state self |};
     BidirectionalWMT15.backward :=
       {| GatedRecurrent.dim := state_dim self;
          GatedRecurrent.transition := phoneme_back_transition self;
          GatedRecurrent.initial_state := phoneme_back_initial_state self |} |}.

Definition words_embedding (self : t) : BidirectionalWMT15.t :=
  {| BidirectionalWMT15.forward :=
       {| GatedRecurrent.dim := state_dim self;
          GatedRecurrent.transition := words_fwd_transition self;
          GatedRecurrent.initial_state := words_fwd_initial_state self |};
     BidirectionalWMT15.backward :=
       {| GatedRecurrent.dim := state_dim self;
          GatedRecurrent.transition := words_back_transition self;
          GatedRecurrent.initial_state := words_back_initial_state self |} |}.

(** [_push_allocation_config]: the audio forks read [feature_size]
    features, the phoneme and words forks [2 * embedding_dim]. *)
Definition audio_fwd_fork (self : t) : Fork.t :=
  {| Fork.input_dim := feature_size self; Fork.outputs := audio_fwd_fork_outputs self |}.

Definition audio_back_fork (self : t) : Fork.t :=
  {| Fork.input_dim := feature_size self; Fork.outputs := audio_back_fork_outputs self |}.

Definition phoneme_fwd_fork (self : t) : Fork.t :=
  {| Fork.input_dim := (2 * embedding_dim self)%nat;
     Fork.outputs := phoneme_fwd_fork_outputs self |}.

Definition phoneme_back_fork (self : t) : Fork.t :=
  {| Fork.input_dim := (2 * embedding_dim self)%nat;
     Fork.outputs := phoneme_back_fork_outputs self |}.

Definition words_fwd_fork (self : t) : Fork.t :=
  {| Fork.input_dim := (2 * embedding_dim self)%nat;
     Fork.outputs := words_fwd_fork_outputs self |}.

Definition words_back_fork (self : t) : Fork.t :=
  {| Fork.input_dim := (2 * embedding_dim self)%nat;
     Fork.outputs := words_back_fork_outputs self |}.

(** The variables [apply] builds, each as its value once the inputs are
    given.  Evaluating one of them evaluates what it is built from and
    nothing else. *)
Record graph : Type :=
  { audio_embeddings : result tensor3;
    phoneme_embeddings : result tensor3;
    words_embeddings : result tensor3;
    representation : result tensor3 }.

Definition build (self : t) (audio : tensor3) (audio_mask : matrix R)
    (phones_words_acoustic_ends : matrix Z) (phones_words_acoustic_ends_mask : matrix R)
    (phoneme_words_ends : matrix Z) (phoneme_words_ends_mask : matrix R) : graph :=
  let batch_size := dim0 audio in
  let audio := BidirectionalAudioEncoder.dimshuffle102 audio in
  let audio_mask := T audio_mask in
  let audio_embeddings :=
    BidirectionalWMT15.apply_forked (audio_embedding self) (audio_fwd_fork self)
      (audio_back_fork self) audio audio_mask in
  let phoneme_embeddings :=
    e <- audio_embeddings ;;
    BidirectionalAudioEncoder.take_words_ends batch_size e phones_words_acoustic_ends in
  let phones_words_acoustic_ends_mask := T phones_words_acoustic_ends_mask in
  let words_embeddings :=
    e <- phoneme_embeddings ;;
    BidirectionalWMT15.apply_forked (phoneme_embedding self) (phoneme_fwd_fork self)
      (phoneme_back_fork self) e phones_words_acoustic_ends_mask in
  let words_embeddings :=
    e <- words_embeddings ;;
    BidirectionalAudioEncoder.take_words_ends batch_size e phoneme_words_ends in
  let phoneme_words_ends_mask := T phoneme_words_ends_mask in
  let representation :=
    e <- phoneme_embeddings ;;
    BidirectionalWMT15.apply_forked (words_embedding self) (words_fwd_fork self)
      (words_back_fork self) e phoneme_words_ends_mask in
  {| audio_embeddings := audio_embeddings;
     phoneme_embeddings := phoneme_embeddings;
     words_embeddings := words_embeddings;
     representation := representation |}.

(** [apply(audio, audio_mask, phones_words_acoustic_ends,
    phones_words_acoustic_ends_mask, phoneme_words_ends,
    phoneme_words_ends_mask)] returns the variable [representation]. *)
Definition apply (self : t) (audio : tensor3) (audio_mask : matrix R)
    (phones_words_acoustic_ends : matrix Z) (phones_words_acoustic_ends_mask : matrix R)
    (phoneme_words_ends : matrix Z) (phoneme_words_ends_mask : matrix R)
  : result tensor3 :=
  representation
    (build self audio audio_mask phones_words_acoustic_ends
       phones_words_acoustic_ends_mask phoneme_words_ends phoneme_words_ends_mask).

(** The two-stage audio encoder made of the audio and words stages. *)
Definition audio_and_words_stages (self : t) : BidirectionalAudioEncoder.t :=
  {| BidirectionalAudioEncoder.feature_size := feature_size self;
     BidirectionalAudioEncoder.embedding_dim := embedding_dim self;
     BidirectionalAudioEncoder.state_dim := state_dim self;
     BidirectionalAudioEncoder.embedding_fwd_fork_outputs := audio_fwd_fork_outputs self;
     BidirectionalAudioEncoder.embedding_back_fork_outputs := audio_back_fork_outputs self;
     BidirectionalAudioEncoder.embedding_fwd_transition := audio_fwd_transition self;
     BidirectionalAudioEncoder.embedding_back_transition := audio_back_transition self;
     BidirectionalAudioEncoder.embedding_fwd_initial_state := audio_fwd_initial_state self;
     BidirectionalAudioEncoder.embedding_back_initial_state := audio_back_initial_state self;
     BidirectionalAudioEncoder.fwd_fork_outputs := words_fwd_fork_outputs self;
     BidirectionalAudioEncoder.back_fork_outputs := words_back_fork_outputs self;
     BidirectionalAudioEncoder.fwd_transition := words_fwd_transition self;
     BidirectionalAudioEncoder.back_transition := words_back_transition self;
     BidirectionalAudioEncoder.fwd_initial_state := words_fwd_initial_state self;
     BidirectionalAudioEncoder.back_initial_state := words_back_initial_state self |}.

End BidirectionalPhonemeAudioEncoder.

(* ===================================================================== *)
(** * helpers.py: the encoder graphs                                      *)
(* ===================================================================== *)

Module EncoderGraphs.

Local Open Scope string_scope.

(** [tensor.ftensor3(name)] *)
Definition ftensor3 (name : string) : Helpers.variable tensor3 :=
  fun env => match env !! name with
             | Some (Helpers.FloatTensor3 x) => Ok x
             | _ => Raise MissingInputError
             end.

(** The graphs [create_word_encoder] builds on an initialised encoder. *)
Definition create_word_encoder (encoder : BidirectionalEncoder.t)
    (parameters : Helpers.brick) : Helpers.encoder :=
  let input_words := Helpers.lmatrix "words" in
  let input_words_mask := Helpers.matrix_ "words_mask" in
  let training_representation : Helpers.variable tensor3 :=
    fun env =>
      words <- input_words env ;;
      words_mask <- input_words_mask env ;;
      BidirectionalEncoder.apply encoder words words_mask in
  let sampling_input_words := Helpers.lmatrix "sampling_words" in
  let sampling_representation : Helpers.variable tensor3 :=
    fun env =>
      words <- sampling_input_words env ;;
      let sampling_input_words_mask := ones (shape0 words) (shape1 words) in
      BidirectionalEncoder.apply encoder words sampling_input_words_mask in
  {| Helpers.encoder_brick := parameters;
     Helpers.training_representation := training_representation;
     Helpers.sampling_representation := sampling_representation |}.

(** The graphs [create_audio_encoder] builds on an initialised encoder. *)
Definition create_audio_encoder (encoder : BidirectionalAudioEncoder.t)
    (parameters : Helpers.brick) : Helpers.encoder :=
  let training_representation : Helpers.variable tensor3 :=
    fun env =>
      audio <- ftensor3 "audio" env ;;
      audio_mask <- Helpers.matrix_ "audio_mask" env ;;
      words_ends <- Helpers.lmatrix "words_ends" env ;;
      words_ends_mask <- Helpers.matrix_ "words_ends_mask" env ;;
      BidirectionalAudioEncoder.apply encoder audio audio_mask words_ends
        words_ends_mask in
  let sampling_representation : Helpers.variable tensor3 :=
    fun env =>
      sampling_audio <- ftensor3 "sampling_audio" env ;;
      let sampling_audio_mask := ones (dim0 sampling_audio) (dim1 sampling_audio) in
      sampling_words_ends <- Helpers.lmatrix "sampling_words_ends" env ;;
      let sampling_words_ends_mask :=
        ones (shape0 sampling_words_ends) (shape1 sampling_words_ends) in
      BidirectionalAudioEncoder.apply encoder sampling_audio sampling_audio_mask
        sampling_words_ends sampling_words_ends_mask in
  {| Helpers.encoder_brick := parameters;
     Helpers.training_representation := training_representation;
     Helpers.sampling_representation := sampling_representation |}.

End EncoderGraphs.

(* ===================================================================== *)
(** * __main__.py: vocabulary sizes and end-of-sentence indices           *)
(* ===================================================================== *)

Module Main.

Local Open Scope string_scope.

Inductive exc : Type :=
  | EmptyMax              (* ValueError: max() arg is an empty sequence *)
  | KeyError (key : string).

Inductive outcome (A : Type) : Type :=
  | Return (a : A)
  | Raised (e : exc).
Arguments Return {A} a.
Arguments Raised {A} e.

(** [max(vocab.values())] *)
Definition max_value (vocab : gmap string Z) : outcome Z :=
  match map snd (map_to_list vocab) with
  | [] => Raised EmptyMax
  | v :: values => Return (fold_right Z.max v values)
  end.

(** [vocab[key]] *)
Definition getitem (vocab : gmap string Z) (key : string) : outcome Z :=
  match vocab !! key with
  | Some v => Return v
  | None => Raised (KeyError key)
  end.

(** The entries the main block adds to the configuration. *)
Record entries : Type :=
  { src_vocab_size : Z; trg_vocab_size : Z; src_eos_idx : Z; trg_eos_idx : Z }.

(** Lines 41-46, on the two dictionaries the lexicon functions return. *)
Definition configure (src_vocab trg_vocab : gmap string Z) : outcome entries :=
  match max_value src_vocab with
  | Raised e => Raised e
  | Return src_max =>
      match max_value trg_vocab with
      | Raised e => Raised e
      | Return trg_max =>
          match getitem src_vocab "</s>" with
          | Raised e => Raised e
          | Return src_eos =>
              match getitem trg_vocab "</s>" with
              | Raised e => Raised e
              | Return trg_eos =>
                  Return {| src_vocab_size := src_max + 1;
                            trg_vocab_size := trg_max + 1;
                            src_eos_idx := src_eos;
                            trg_eos_idx := trg_eos |}
              end
          end
      end
  end.

End Main.
(* ===================================================================== *)
(** * Worked inputs                                                       *)
(* ===================================================================== *)

Module Examples.

(** A decoder over a two-token vocabulary with one-dimensional embeddings
    and two-dimensional states, reading two-dimensional representations. *)
Definition decoder : Decoder.t :=
  {| Decoder.vocab_size := 2; Decoder.embedding_dim := 1;
     Decoder.state_dim := 2; Decoder.representation_dim := 2;
     Decoder.state_initializer_W := fun _ _ => 1;
     Decoder.state_initializer_b := fun _ => 0;
     Decoder.embeddings := fun i _ => INR i;
     Decoder.energy := fun state a => nth 0 a 0;
     Decoder.gru_step := fun s f g => map (fun v => v + nth 0 f 0) s;
     Decoder.readout_cost := fun s f g o => nth 0 s 0 + nth 0 f 0 + nth 0 g 0 + IZR o;
     Decoder.emit := fun _ _ _ _ => 1%Z |}.

(** One source sentence of two positions, time-major. *)
Definition representation : tensor3 :=
  Ten3 2 1 2 (fun t _ j => INR (t + j)).

(** The same sentence padded with one more position. *)
Definition padded_representation : tensor3 :=
  Ten3 3 1 2 (fun t _ j => if (t <? 2)%nat then INR (t + j) else 7).

(** Masks and targets are batch-major, as the data stream supplies them. *)
Definition source_mask : matrix R := Mat 1 2 (fun _ _ => 1).
Definition padded_source_mask : matrix R :=
  Mat 1 3 (fun _ t => if (t <? 2)%nat then 1 else 0).
Definition empty_source_mask : matrix R := Mat 1 2 (fun _ _ => 0).

Definition target : matrix Z := Mat 1 2 (fun _ t => Z.of_nat t).
Definition target_mask : matrix R := Mat 1 2 (fun _ _ => 1).
Definition padded_target : matrix Z :=
  Mat 1 4 (fun _ t => if (t <? 2)%nat then Z.of_nat t else 0%Z).
Definition padded_target_mask : matrix R :=
  Mat 1 4 (fun _ t => if (t <? 2)%nat then 1 else 0).

(** Outputs holding the sentinel and both tokens. *)
Definition outputs : matrix Z := Mat 3 1 (fun t _ => (Z.of_nat t - 1)%Z).

Definition draws : nat -> nat -> R := fun _ _ => 0.

Definition words_encoder : Helpers.encoder :=
  {| Helpers.encoder_brick :=
       {| Helpers.get_parameters :=
            {[ "/bidirectionalencoder/words_embeddings.W"%string := [5; 3]%nat ]} |};
     Helpers.training_representation := fun _ => Ok representation;
     Helpers.sampling_representation := fun _ => Ok representation |}.

Definition audio_encoder : Helpers.encoder :=
  {| Helpers.encoder_brick :=
       {| Helpers.get_parameters :=
            {[ "/bidirectionalaudioencoder/fwd_fork/fork_inputs.W"%string := [4; 3]%nat;
               "/bidirectionalaudioencoder/fwd_fork/fork_inputs.b"%string := [3]%nat ]} |};
     Helpers.training_representation :=
       fun _ => Ok (Ten3 2 1 2 (fun t _ j => INR (2 * t + j)));
     Helpers.sampling_representation :=
       fun _ => Ok (Ten3 2 1 2 (fun t _ j => INR (2 * t + j))) |}.

Definition decoder_brick : Helpers.brick :=
  {| Helpers.get_parameters :=
       {[ "/decoder/sequencegenerator/readout/lookupfeedbackwmt15/lookuptable.W"%string
            := [2; 1]%nat;
          "/decoder/sequencegenerator/att_trans/decoder/state_initializer/linear_0.W"%string
            := [1; 1]%nat ]} |}.

Definition both : Helpers.config := {| Helpers.input := "both" |}.

Definition graph_inputs : Helpers.inputs :=
  {[ "punctuation_marks"%string := Helpers.IntMatrix target;
     "punctuation_marks_mask"%string := Helpers.FloatMatrix target_mask ]}.

End Examples.

(* ===================================================================== *)
(** * Further worked inputs                                               *)
(* ===================================================================== *)

Module MoreExamples.

(** Outputs holding a token beyond the two-token vocabulary. *)
Definition outputs_outside_vocabulary : matrix Z := Mat 1 1 (fun _ _ => 2%Z).

(** A representation with three features, and another one that agrees
    with it at position 0 in the last two features only and is longer. *)
Definition wide_representation : tensor3 :=
  Ten3 2 1 3 (fun t _ j => INR (t + j)).
Definition other_representation : tensor3 :=
  Ten3 3 1 3 (fun t _ j => if ((t =? 0) && (0 <? j))%nat then INR j else 9).

End MoreExamples.

Module CostExamples.

(** The representation of [Examples.padded_representation] with other
    values at its masked third position. *)
Definition representation_changed_where_masked : tensor3 :=
  Ten3 3 1 2 (fun t _ j => if (t <? 2)%nat then INR (t + j) else 11).

(** Targets of three positions for the padded source; the last position is
    masked and holds a token beyond the two-token vocabulary. *)
Definition target_mask : matrix R := Mat 1 3 (fun _ t => if (t <? 2)%nat then 1 else 0).
Definition target : matrix Z := Mat 1 3 (fun _ t => if (t <? 2)%nat then Z.of_nat t else 0%Z).
Definition target_outside_vocabulary : matrix Z :=
  Mat 1 3 (fun _ t => if (t <? 2)%nat then Z.of_nat t else 5%Z).

(** A target mask that masks every position. *)
Definition empty_target_mask : matrix R := Mat 1 2 (fun _ _ => 0).

End CostExamples.

Module AssemblyExamples.

Definition phones : Helpers.config := {| Helpers.input := "phones" |}.

(** An audio encoder whose representation has three positions where the
    words have two. *)
Definition longer_audio_encoder : Helpers.encoder :=
  {| Helpers.encoder_brick := Helpers.encoder_brick Examples.audio_encoder;
     Helpers.training_representation := fun _ => Ok Examples.padded_representation;
     Helpers.sampling_representation := fun _ => Ok Examples.padded_representation |}.

(** A second encoder brick that reuses a parameter name of the word
    encoder. *)
Definition colliding_brick : Helpers.brick :=
  {| Helpers.get_parameters :=
       {[ "/bidirectionalencoder/words_embeddings.W"%string := [7; 3]%nat ]} |}.

End AssemblyExamples.

Module MainExamples.

(** Dictionaries as the lexicon functions return them. *)
Definition src_vocab : gmap string Z :=
  {[ "</s>"%string := 0%Z; "<unk>"%string := 1%Z; "hello"%string := 2%Z ]}.
Definition trg_vocab : gmap string Z :=
  {[ "</s>"%string := 0%Z; "."%string := 1%Z ]}.

(** Target marks taken from [trg_vocab]. *)
Definition marks : matrix Z := Mat 2 1 (fun t _ => Z.of_nat t).

End MainExamples.

Module EncoderExamples.

(** A word encoder with three words, embeddings and states of one
    entry; a step adds the input to the state. *)
Definition words_encoder : BidirectionalEncoder.t :=
  {| BidirectionalEncoder.vocab_size := 3;
     BidirectionalEncoder.embedding_dim := 1;
     BidirectionalEncoder.state_dim := 1;
     BidirectionalEncoder.words_embeddings := fun i _ => INR i;
     BidirectionalEncoder.fwd_fork_outputs := fun x => (x, x);
     BidirectionalEncoder.back_fork_outputs := fun x => (x, x);
     BidirectionalEncoder.fwd_transition := fun s x _ => map (fun v => v + nth 0 x 0) s;
     BidirectionalEncoder.back_transition := fun s x _ => map (fun v => v + nth 0 x 0) s;
     BidirectionalEncoder.fwd_initial_state := [0];
     BidirectionalEncoder.back_initial_state := [0] |}.

(** A batch of two sentences: the first has two words and is padded to
    the three of the second. *)
Definition words : matrix Z := Mat 2 3 (fun b t => Z.of_nat ((b + t) mod 3)).
Definition words_mask : matrix R :=
  Mat 2 3 (fun b t => if (t <? (if (b =? 0)%nat then 2 else 3))%nat then 1 else 0).

(** The same batch with a word outside the vocabulary at the padded
    position. *)
Definition words_outside_vocabulary : matrix Z :=
  Mat 2 3 (fun b t => if ((b =? 0) && (t =? 2))%nat then 7%Z
                      else Z.of_nat ((b + t) mod 3)).

(** The first sentence alone. *)
Definition sentence : matrix Z := Mat 1 2 (fun _ t => item words 0 t).

Definition training_inputs : Helpers.inputs :=
  {[ "words"%string := Helpers.IntMatrix words;
     "words_mask"%string := Helpers.FloatMatrix words_mask ]}.

Definition sampling_inputs : Helpers.inputs :=
  {[ "sampling_words"%string := Helpers.IntMatrix sentence ]}.

Definition no_parameters : Helpers.brick := {| Helpers.get_parameters := ∅ |}.

End EncoderExamples.

Module AudioExamples.

(** An audio encoder over one feature per frame, with states of one
    entry in both stages; a step adds the first input entry to the
    state. *)
Definition audio_encoder : BidirectionalAudioEncoder.t :=
  {| BidirectionalAudioEncoder.feature_size := 1;
     BidirectionalAudioEncoder.embedding_dim := 1;
     BidirectionalAudioEncoder.state_dim := 1;
     BidirectionalAudioEncoder.embedding_fwd_fork_outputs := fun x => (x, x);
     BidirectionalAudioEncoder.embedding_back_fork_outputs := fun x => (x, x);
     BidirectionalAudioEncoder.embedding_fwd_transition :=
       fun s x _ => map (fun v => v + nth 0 x 0) s;
     BidirectionalAudioEncoder.embedding_back_transition :=
       fun s x _ => map (fun v => v + nth 0 x 0) s;
     BidirectionalAudioEncoder.embedding_fwd_initial_state := [0];
     BidirectionalAudioEncoder.embedding_back_initial_state := [0];
     BidirectionalAudioEncoder.fwd_fork_outputs := fun x => (x, x);
     BidirectionalAudioEncoder.back_fork_outputs := fun x => (x, x);
     BidirectionalAudioEncoder.fwd_transition :=
       fun s x _ => map (fun v => v + nth 0 x 0) s;
     BidirectionalAudioEncoder.back_transition :=
       fun s x _ => map (fun v => v + nth 0 x 0) s;
     BidirectionalAudioEncoder.fwd_initial_state := [0];
     BidirectionalAudioEncoder.back_initial_state := [0] |}.

(** Two recordings: the first has two frames and is padded to the three
    of the second. *)
Definition lengths (b : nat) : nat := if (b =? 0)%nat then 2%nat else 3%nat.
Definition audio : tensor3 := Ten3 2 3 1 (fun b t _ => INR (b + t)).
Definition audio_mask : matrix R :=
  Mat 2 3 (fun b t => if (t <? lengths b)%nat then 1 else 0).

(** The same recordings with another value in the padded frame. *)
Definition audio_changed_where_masked : tensor3 :=
  Ten3 2 3 1 (fun b t _ => if ((b =? 0) && (t =? 2))%nat then 42 else INR (b + t)).

(** Two words per recording; the second word of the first recording is
    padding. *)
Definition words_ends : matrix Z := Mat 2 2 (fun b w => Z.of_nat (b + w)).
Definition words_ends_mask : matrix R :=
  Mat 2 2 (fun b w => if ((b =? 0) && (w =? 1))%nat then 0 else 1).

(** The same word ends with a frame index beyond the recording at the
    padded word. *)
Definition words_ends_outside_the_frames : matrix Z :=
  Mat 2 2 (fun b w => if ((b =? 0) && (w =? 1))%nat then 3%Z else Z.of_nat (b + w)).

End AudioExamples.

Module AudioGraphExamples.

Definition training_inputs : Helpers.inputs :=
  {[ "audio"%string := Helpers.FloatTensor3 AudioExamples.audio;
     "audio_mask"%string := Helpers.FloatMatrix AudioExamples.audio_mask;
     "words_ends"%string := Helpers.IntMatrix AudioExamples.words_ends;
     "words_ends_mask"%string := Helpers.FloatMatrix AudioExamples.words_ends_mask ]}.

(** The first recording alone: its two frames and its one word. *)
Definition sampling_audio : tensor3 :=
  Ten3 1 2 1 (fun _ t j => item3 AudioExamples.audio 0 t j).
Definition sampling_words_ends : matrix Z :=
  Mat 1 1 (fun _ w => item AudioExamples.words_ends 0 w).

Definition sampling_inputs : Helpers.inputs :=
  {[ "sampling_audio"%string := Helpers.FloatTensor3 sampling_audio;
     "sampling_words_ends"%string := Helpers.IntMatrix sampling_words_ends ]}.

End AudioGraphExamples.

Module PhonesExamples.

(** A phones encoder with three phones, embeddings and states of one
    entry in both stages; a step adds the first input entry to the
    state. *)
Definition phones_encoder : BidirectionalPhonesEncoder.t :=
  {| BidirectionalPhonesEncoder.vocab_size := 3;
     BidirectionalPhonesEncoder.embedding_dim := 1;
     BidirectionalPhonesEncoder.state_dim := 1;
     BidirectionalPhonesEncoder.phones_embeddings := fun i _ => INR i;
     BidirectionalPhonesEncoder.embedding_fwd_fork_outputs := fun x => (x, x);
     BidirectionalPhonesEncoder.embedding_back_fork_outputs := fun x => (x, x);
     BidirectionalPhonesEncoder.embedding_fwd_transition :=
       fun s x _ => map (fun v => v + nth 0 x 0) s;
     BidirectionalPhonesEncoder.embedding_back_transition :=
       fun s x _ => map (fun v => v + nth 0 x 0) s;
     BidirectionalPhonesEncoder.embedding_fwd_initial_state := [0];
     BidirectionalPhonesEncoder.embedding_back_initial_state := [0];
     BidirectionalPhonesEncoder.fwd_fork_outputs := fun x => (x, x);
     BidirectionalPhonesEncoder.back_fork_outputs := fun x => (x, x);
     BidirectionalPhonesEncoder.fwd_transition :=
       fun s x _ => map (fun v => v + nth 0 x 0) s;
     BidirectionalPhonesEncoder.back_transition :=
       fun s x _ => map (fun v => v + nth 0 x 0) s;
     BidirectionalPhonesEncoder.fwd_initial_state := [0];
     BidirectionalPhonesEncoder.back_initial_state := [0] |}.

(** Two sequences of three phones, with two words each. *)
Definition phones : matrix Z := Mat 2 3 (fun b t => Z.of_nat ((b + t) mod 3)).
Definition phones_mask : matrix R := ones 2 3.
Definition phones_words_ends : matrix Z := Mat 2 2 (fun b w => Z.of_nat (b + w)).
Definition phones_words_ends_mask : matrix R := ones 2 2.

End PhonesExamples.

(* ===================================================================== *)
(** * Properties                                                          *)
(* ===================================================================== *)

(** ** Sums and the exception monad *)

Lemma rsum_ext (n : nat) (f g : nat -> R) :
  (forall i, (i < n)%nat -> f i = g i) -> rsum n f = rsum n g.
Proof.
  induction n as [|n IH]; intros H; simpl; [reflexivity|].
  rewrite IH by (intros i Hi; apply H; lia).
  rewrite (H n) by lia. reflexivity.
Qed.

Lemma rsum_zero (n : nat) (f : nat -> R) :
  (forall i, (i < n)%nat -> f i = 0) -> rsum n f = 0.
Proof.
  induction n as [|n IH]; intros H; simpl; [reflexivity|].
  rewrite IH by (intros i Hi; apply H; lia).
  rewrite (H n) by lia. lra.
Qed.

Lemma rsum_plus (n k : nat) (f : nat -> R) :
  rsum (n + k) f = rsum n f + rsum k (fun i => f (n + i)%nat).
Proof.
  induction k as [|k IH]; simpl.
  - rewrite Nat.add_0_r. lra.
  - rewrite Nat.add_succ_r. simpl. rewrite IH. lra.
Qed.

Lemma rsum_scale (n : nat) (c : R) (f : nat -> R) :
  rsum n (fun i => c * f i) = c * rsum n f.
Proof. induction n as [|n IH]; simpl; [lra | rewrite IH; lra]. Qed.

Lemma bind_Ok {A B} (c : result A) (k : A -> result B) (b : B) :
  bind c k = Ok b -> exists a, c = Ok a /\ k a = Ok b.
Proof. destruct c as [a|e]; simpl; [eauto | discriminate]. Qed.

Ltac inv_bind H :=
  let a := fresh "a" in
  let Ha := fresh "Ha" in
  apply bind_Ok in H; destruct H as (a & Ha & H).

(** ** The feedback brick *)

Section FeedbackFacts.
Import LookupFeedbackWMT15.
Variable self : LookupFeedbackWMT15.t.

Lemma subscript_clamped (o : Z) :
  valid_output self o ->
  subscript (lookup self) (if (o <? 0)%Z then 0%Z else o)
  = Ok (row (lookup self) (Z.to_nat (if (o <? 0)%Z then 0%Z else o))).
Proof.
  unfold valid_output, subscript. simpl. intros H.
  destruct (o <? 0)%Z eqn:E.
  - destruct (0 <? Z.of_nat (num_outputs self))%Z eqn:E'; [reflexivity | lia].
  - apply Z.ltb_ge in E.
    replace (0 <=? o)%Z with true by (symmetry; apply Z.leb_le; lia).
    replace (o <? Z.of_nat (num_outputs self))%Z with true
      by (symmetry; apply Z.ltb_lt; lia).
    reflexivity.
Qed.

Lemma subscript_clamped_inv (o : Z) (r : list R) :
  subscript (lookup self) (if (o <? 0)%Z then 0%Z else o) = Ok r ->
  valid_output self o.
Proof.
  unfold valid_output, subscript. simpl.
  set (i := if (o <? 0)%Z then 0%Z else o).
  assert (0 <= i)%Z by (subst i; destruct (o <? 0)%Z eqn:E; lia).
  destruct ((0 <=? i)%Z && (i <? Z.of_nat (num_outputs self))%Z) eqn:E1.
  - intros _. apply andb_true_iff in E1. lia.
  - destruct ((- Z.of_nat (num_outputs self) <=? i)%Z && (i <? 0)%Z) eqn:E2;
      [apply andb_true_iff in E2; lia | discriminate].
Qed.

Lemma feedback_flat_valid (l : list Z) :
  Forall (valid_output self) l ->
  feedback_flat self l = Ok (map (embedding self) l).
Proof.
  unfold feedback_flat, lookup_apply, alloc.
  induction l as [|o l IH]; intros Hv; [reflexivity|].
  inversion Hv as [|? ? Ho Hl]; subst.
  specialize (IH Hl). cbn [map mapM bind].
  rewrite (subscript_clamped o Ho). cbn [bind].
  destruct (mapM _ _) as [rows|e]; cbn [bind] in *; [|discriminate].
  injection IH as IH. cbn [List.length repeat switch_rows].
  rewrite IH. f_equal. unfold embedding.
  destruct (o <? 0)%Z; reflexivity.
Qed.

Lemma feedback_flat_Ok (l : list Z) (r : list (list R)) :
  feedback_flat self l = Ok r -> Forall (valid_output self) l.
Proof.
  unfold feedback_flat, lookup_apply. intros H.
  inv_bind H. clear H. revert a Ha.
  induction l as [|o l IH]; intros rows H; [constructor|].
  cbn [map mapM] in H. inv_bind H. inv_bind H.
  constructor; [eapply subscript_clamped_inv; eassumption | eapply IH; eassumption].
Qed.

Lemma nth_flatten {A} (m : matrix A) (d : A) (t b : nat) :
  (t < shape0 m)%nat -> (b < shape1 m)%nat ->
  nth (t * shape1 m + b) (flatten m) d = item m t b.
Proof.
  unfold flatten. generalize (item m) as f. intros f.
  assert (G : forall n s t, (t < n)%nat -> (b < shape1 m)%nat ->
    nth (t * shape1 m + b)
      (flat_map (fun i => map (f i) (seq 0 (shape1 m))) (seq s n)) d
    = f (s + t)%nat b).
  { induction n as [|n IH]; intros s t' Ht Hb; [lia|].
    cbn [seq flat_map]. destruct t' as [|t'].
    - rewrite app_nth1 by (rewrite length_map, length_seq; lia).
      rewrite (nth_indep _ d (f s 0%nat)) by (rewrite length_map, length_seq; lia).
      rewrite map_nth, seq_nth by lia. rewrite Nat.add_0_r. reflexivity.
    - rewrite app_nth2 by (rewrite length_map, length_seq; lia).
      rewrite length_map, length_seq.
      replace (S t' * shape1 m + b - shape1 m)%nat with (t' * shape1 m + b)%nat by lia.
      rewrite IH by lia. f_equal. lia. }
  intros Ht Hb. rewrite G by assumption. reflexivity.
Qed.

Lemma in_flatten {A} (m : matrix A) (x : A) :
  In x (flatten m) <->
  exists t b, (t < shape0 m)%nat /\ (b < shape1 m)%nat /\ x = item m t b.
Proof.
  unfold flatten. rewrite in_flat_map. split.
  - intros (t & Ht & Hx). apply in_map_iff in Hx. destruct Hx as (b & Hb & Hin).
    apply in_seq in Ht. apply in_seq in Hin. exists t, b. repeat split; [lia|lia|congruence].
  - intros (t & b & Ht & Hb & ->). exists t. split; [apply in_seq; lia|].
    apply in_map_iff. exists b. split; [reflexivity | apply in_seq; lia].
Qed.

Lemma length_flatten {A} (m : matrix A) :
  List.length (flatten m) = (shape0 m * shape1 m)%nat.
Proof.
  unfold flatten.
  assert (G : forall n s,
    List.length (flat_map (fun i => map (item m i) (seq 0 (shape1 m))) (seq s n))
    = (n * shape1 m)%nat).
  { induction n as [|n IH]; intros s; [reflexivity|].
    cbn [seq flat_map]. rewrite length_app, length_map, length_seq, IH. lia. }
  apply G.
Qed.

(** [feedback] succeeds exactly on matrices of valid outputs, and then
    holds the embedding of every entry. *)
Lemma feedback_spec (outputs : matrix Z) :
  output_dim self = 0%nat ->
  (forall t b, (t < shape0 outputs)%nat -> (b < shape1 outputs)%nat ->
               valid_output self (item outputs t b)) ->
  exists fb, feedback self outputs = Ok fb
    /\ shape0 fb = shape0 outputs /\ shape1 fb = shape1 outputs
    /\ forall t b, (t < shape0 outputs)%nat -> (b < shape1 outputs)%nat ->
         item fb t b = embedding self (item outputs t b).
Proof.
  intros Hd Hv. unfold feedback. rewrite Hd. cbn [Nat.eqb negb].
  rewrite feedback_flat_valid.
  2:{ apply List.Forall_forall. intros x Hx. apply in_flatten in Hx.
      destruct Hx as (t & b & Ht & Hb & ->). auto. }
  cbn [bind]. eexists. split; [reflexivity|]. cbn. repeat split.
  intros t b Ht Hb.
  assert (Hlt : (t * shape1 outputs + b < shape0 outputs * shape1 outputs)%nat) by nia.
  rewrite (nth_indep _ [] (embedding self 0%Z)) by (rewrite length_map, length_flatten; exact Hlt).
  rewrite map_nth. rewrite nth_flatten by assumption. reflexivity.
Qed.

Lemma feedback_Ok_valid (outputs : matrix Z) (fb : matrix (list R)) :
  feedback self outputs = Ok fb ->
  output_dim self = 0%nat /\
  forall t b, (t < shape0 outputs)%nat -> (b < shape1 outputs)%nat ->
              valid_output self (item outputs t b).
Proof.
  unfold feedback. destruct (output_dim self =? 0)%nat eqn:E; cbn [negb]; [|discriminate].
  intros H. inv_bind H. apply feedback_flat_Ok in Ha.
  split; [apply Nat.eqb_eq; assumption|].
  intros t b Ht Hb. rewrite List.Forall_forall in Ha. apply Ha.
  apply in_flatten. eauto.
Qed.

Lemma feedback1_initial_outputs (batch_size : nat) :
  output_dim self = 0%nat -> (0 < num_outputs self)%nat ->
  feedback1 self (Decoder.initial_outputs batch_size)
  = Ok (repeat (repeat 0 (feedback_dim self)) batch_size).
Proof.
  intros Hd Hn. unfold feedback1. rewrite Hd. cbn [Nat.eqb negb].
  rewrite feedback_flat_valid.
  - f_equal. unfold Decoder.initial_outputs.
    induction batch_size as [|n IH]; [reflexivity|]. cbn [repeat map]. rewrite IH. reflexivity.
  - apply List.Forall_forall. intros x Hx. apply repeat_spec in Hx. subst x.
    unfold valid_output. simpl. lia.
Qed.
End FeedbackFacts.

(** Claim C5.  With the emitter's scalar outputs ([output_dim = 0]), a
    non-empty embedding table and outputs below the table length, [feedback]
    returns a tensor of the shape of [outputs] whose entry is the zero vector
    of length [feedback_dim] wherever the output is negative (the sentinel
    -1 of the initial outputs) and the table row of the token wherever it is
    non-negative; the feedback of the initial outputs, which feeds the first
    decoding step, is the zero vector for every batch item. *)
Theorem feedback_zero_for_sentinel_row_for_token
    (self : LookupFeedbackWMT15.t) (outputs : matrix Z) (batch_size : nat) :
  LookupFeedbackWMT15.output_dim self = 0%nat ->
  (0 < LookupFeedbackWMT15.num_outputs self)%nat ->
  (forall t b, (t < shape0 outputs)%nat -> (b < shape1 outputs)%nat ->
     (item outputs t b < Z.of_nat (LookupFeedbackWMT15.num_outputs self))%Z) ->
  (exists fb,
      LookupFeedbackWMT15.feedback self outputs = Ok fb
      /\ shape0 fb = shape0 outputs /\ shape1 fb = shape1 outputs
      /\ forall t b, (t < shape0 outputs)%nat -> (b < shape1 outputs)%nat ->
           ((item outputs t b < 0)%Z ->
              item fb t b = repeat 0 (LookupFeedbackWMT15.feedback_dim self))
           /\ ((0 <= item outputs t b)%Z ->
              item fb t b = row (LookupFeedbackWMT15.lookup self)
                              (Z.to_nat (item outputs t b))))
  /\ LookupFeedbackWMT15.feedback1 self (Decoder.initial_outputs batch_size)
     = Ok (repeat (repeat 0 (LookupFeedbackWMT15.feedback_dim self)) batch_size).
Proof.
  intros Hd Hn Hv. split.
  - destruct (feedback_spec self outputs Hd) as (fb & Hfb & H0 & H1 & Hitem).
    { intros t b Ht Hb. specialize (Hv t b Ht Hb).
      unfold LookupFeedbackWMT15.valid_output.
      destruct (item outputs t b <? 0)%Z; lia. }
    exists fb. repeat split; try assumption.
    + intros Hneg. rewrite Hitem by assumption.
      unfold LookupFeedbackWMT15.embedding.
      replace (item outputs t b <? 0)%Z with true by (symmetry; apply Z.ltb_lt; lia).
      reflexivity.
    + intros Hpos. rewrite Hitem by assumption.
      unfold LookupFeedbackWMT15.embedding.
      replace (item outputs t b <? 0)%Z with false by (symmetry; apply Z.ltb_ge; lia).
      reflexivity.
  - apply feedback1_initial_outputs; assumption.
Qed.

Lemma feedback_zero_for_sentinel_row_for_token_witness :
  (exists fb,
      LookupFeedbackWMT15.feedback (Decoder.feedback_brick Examples.decoder)
        Examples.outputs = Ok fb
      /\ shape0 fb = 3%nat /\ shape1 fb = 1%nat
      /\ forall t b, (t < 3)%nat -> (b < 1)%nat ->
           ((item Examples.outputs t b < 0)%Z -> item fb t b = repeat 0 1)
           /\ ((0 <= item Examples.outputs t b)%Z ->
              item fb t b
              = row (LookupFeedbackWMT15.lookup (Decoder.feedback_brick Examples.decoder))
                  (Z.to_nat (item Examples.outputs t b))))
  /\ LookupFeedbackWMT15.feedback1 (Decoder.feedback_brick Examples.decoder)
       (Decoder.initial_outputs 2)
     = Ok (repeat (repeat 0 1) 2).
Proof.
  apply (feedback_zero_for_sentinel_row_for_token
           (Decoder.feedback_brick Examples.decoder) Examples.outputs 2).
  - reflexivity.
  - simpl. lia.
  - simpl. intros t b Ht Hb. lia.
Defined.

(** ** The training cost *)

Lemma cost_matrix_Ok (self : Decoder.t) (mask : matrix R) (outputs : matrix Z)
    (attended : tensor3) (attended_mask : matrix R) (cm : matrix R) :
  Decoder.cost_matrix self mask outputs attended attended_mask = Ok cm ->
  exists feedback initial first_feedback,
    LookupFeedbackWMT15.feedback (Decoder.feedback_brick self) outputs = Ok feedback
    /\ GRUInitialState.initial_states (Decoder.transition self) attended = Ok initial
    /\ LookupFeedbackWMT15.feedback1 (Decoder.feedback_brick self)
         (Decoder.initial_outputs (shape1 outputs)) = Ok first_feedback
    /\ same_shape mask outputs = true
    /\ Decoder.shapes_agree (shape1 outputs) attended attended_mask = true
    /\ cm = Mat (shape0 outputs) (shape1 outputs)
              (fun t b => Decoder.costs self attended attended_mask mask outputs
                            feedback first_feedback initial t b
                          * item mask t b).
Proof.
  unfold Decoder.cost_matrix. intros H.
  apply bind_Ok in H. destruct H as (fb & Hfb & H).
  apply bind_Ok in H. destruct H as (ini & Hini & H).
  apply bind_Ok in H. destruct H as (ffb & Hffb & H).
  destruct (same_shape mask outputs) eqn:E1; [|discriminate].
  destruct (Decoder.shapes_agree (shape1 outputs) attended attended_mask) eqn:E2;
    [|discriminate].
  destruct (Decoder.dims_agree self attended); [|discriminate].
  injection H as <-. exists fb, ini, ffb. repeat split; assumption.
Qed.

Lemma dims_agree_eq (self : Decoder.t) (attended : tensor3) :
  Decoder.dims_agree self attended = true
  <-> dim2 attended = Decoder.representation_dim self
      /\ Nat.even (Decoder.state_dim self) = true.
Proof.
  unfold Decoder.dims_agree. rewrite andb_true_iff, Nat.eqb_eq. reflexivity.
Qed.

Lemma cost_matrix_Ok_dims (self : Decoder.t) (mask : matrix R) (outputs : matrix Z)
    (attended : tensor3) (attended_mask : matrix R) (cm : matrix R) :
  Decoder.cost_matrix self mask outputs attended attended_mask = Ok cm ->
  Decoder.dims_agree self attended = true.
Proof.
  unfold Decoder.cost_matrix. intros H.
  apply bind_Ok in H. destruct H as (fb & Hfb & H).
  apply bind_Ok in H. destruct H as (ini & Hini & H).
  apply bind_Ok in H. destruct H as (ffb & Hffb & H).
  destruct (Decoder.dims_agree self attended); [reflexivity|].
  rewrite andb_false_r in H. discriminate.
Qed.

Lemma same_shape_eq {A B} (a : matrix A) (b : matrix B) :
  same_shape a b = true <-> shape0 a = shape0 b /\ shape1 a = shape1 b.
Proof.
  unfold same_shape. rewrite andb_true_iff, !Nat.eqb_eq. reflexivity.
Qed.

(** Claim C2.  [Decoder.cost] is the sum, over every time step and batch
    item, of the cost matrix of the sequence generator times the target
    mask, divided by the number of batch items (the first dimension of the
    batch-major target mask); an exception of the cost matrix propagates. *)
Theorem cost_is_masked_sum_over_batch_size
    (self : Decoder.t) (representation : tensor3)
    (source_sentence_mask : matrix R) (target_sentence : matrix Z)
    (target_sentence_mask : matrix R) :
  Decoder.cost self representation source_sentence_mask target_sentence
    target_sentence_mask
  = match Decoder.cost_matrix self (T target_sentence_mask) (T target_sentence)
            representation (T source_sentence_mask) with
    | Ok cost_matrix =>
        Ok (rsum (shape1 target_sentence_mask) (fun t =>
              rsum (shape0 target_sentence_mask) (fun b =>
                item cost_matrix t b * item target_sentence_mask b t))
            / INR (shape0 target_sentence_mask))
    | Raise e => Raise e
    end.
Proof.
  unfold Decoder.cost.
  destruct (Decoder.cost_matrix _ _ _ _ _) as [cm|e] eqn:E; [|reflexivity].
  apply cost_matrix_Ok in E.
  destruct E as (fb & ini & ffb & _ & _ & _ & Hs & _ & ->).
  apply same_shape_eq in Hs. destruct Hs as [Hs0 Hs1]. cbn in Hs0, Hs1.
  cbn [bind]. unfold mul, same_shape. cbn [shape0 shape1 T].
  rewrite <- Hs0, <- Hs1, !Nat.eqb_refl. cbn. reflexivity.
Qed.

(** ** Assembly of the training computation *)

(** Claim C7.  Whenever the training cost built by
    [use_decoder_on_representations] evaluates, it is [Decoder.cost] called
    with the one tensor [punctuation_marks_mask] both as source mask and as
    target mask: the cost matrix is computed with that mask, transposed, as
    attention mask over the source positions, and the padded length of the
    representation equals the padded length of the targets. *)
Theorem training_cost_uses_target_mask_as_source_mask
    (decoder : Decoder.t)
    (training_representation sampling_representation : Helpers.variable tensor3)
    (env : Helpers.inputs) (c : R) :
  fst (fst (Helpers.use_decoder_on_representations decoder
              training_representation sampling_representation)) env = Ok c ->
  exists representation marks marks_mask cost_matrix,
    training_representation env = Ok representation
    /\ env !! "punctuation_marks"%string = Some (Helpers.IntMatrix marks)
    /\ env !! "punctuation_marks_mask"%string = Some (Helpers.FloatMatrix marks_mask)
    /\ Decoder.cost decoder representation marks_mask marks marks_mask = Ok c
    /\ Decoder.cost_matrix decoder (T marks_mask) (T marks) representation
         (T marks_mask) = Ok cost_matrix
    /\ dim0 representation = shape1 marks_mask
    /\ shape1 marks = shape1 marks_mask.
Proof.
  cbn [Helpers.use_decoder_on_representations fst]. intros H.
  apply bind_Ok in H. destruct H as (rep & Hrep & H).
  apply bind_Ok in H. destruct H as (marks & Hmarks & H).
  apply bind_Ok in H. destruct H as (mask & Hmask & H).
  unfold Helpers.lmatrix in Hmarks. unfold Helpers.matrix_ in Hmask.
  destruct (env !! "punctuation_marks"%string) as [[m| |]|] eqn:E1; try discriminate.
  destruct (env !! "punctuation_marks_mask"%string) as [[|m'|]|] eqn:E2; try discriminate.
  injection Hmarks as ->. injection Hmask as ->.
  pose proof H as Hc. unfold Decoder.cost in Hc.
  apply bind_Ok in Hc. destruct Hc as (cm & Hcm & _).
  exists rep, marks, mask, cm. repeat split; try assumption.
  - apply cost_matrix_Ok in Hcm.
    destruct Hcm as (_ & _ & _ & _ & _ & _ & _ & Hs & _).
    unfold Decoder.shapes_agree in Hs. cbn [T shape0 shape1] in Hs.
    apply andb_true_iff in Hs. destruct Hs as [Hs _].
    apply andb_true_iff in Hs. destruct Hs as [_ Hs].
    apply Nat.eqb_eq in Hs. symmetry. exact Hs.
  - apply cost_matrix_Ok in Hcm.
    destruct Hcm as (_ & _ & _ & _ & _ & _ & Hs & _ & _).
    apply same_shape_eq in Hs. cbn [T shape0 shape1] in Hs. lia.
Qed.

(** Claim C10.  Where the word-path cost and the audio-path cost evaluate,
    the cost returned by [create_multitask_model] is the word-path cost plus
    twice the audio-path cost; it differs from their plain sum whenever the
    audio-path cost is not zero. *)
Theorem multitask_cost_adds_audio_cost_twice
    (create_word_encoder create_audio_encoder : Helpers.config -> Helpers.encoder)
    (new_decoder : Helpers.config -> Decoder.t)
    (decoder_brick : Helpers.config -> Helpers.brick)
    (config : Helpers.config) (env : Helpers.inputs) (w a : R) :
  let words := create_word_encoder config in
  let audio := create_audio_encoder config in
  let words_cost :=
    fst (fst (Helpers.use_decoder_on_representations (new_decoder config)
                (Helpers.training_representation words)
                (Helpers.sampling_representation words))) in
  let audio_cost :=
    fst (fst (Helpers.use_decoder_on_representations (new_decoder config)
                (Helpers.training_representation audio)
                (Helpers.sampling_representation audio))) in
  let cost :=
    fst (fst (snd (Helpers.create_multitask_model create_word_encoder
                     create_audio_encoder new_decoder decoder_brick config))) in
  words_cost env = Ok w ->
  audio_cost env = Ok a ->
  cost env = Ok (w + 2 * a) /\ (a <> 0 -> cost env <> Ok (w + a)).
Proof.
  intros words audio words_cost audio_cost cost Hw Ha.
  assert (Hc : cost env = Ok (w + 2 * a)).
  { subst cost words_cost audio_cost words audio.
    cbv beta iota zeta delta
      [Helpers.create_multitask_model Helpers.create_decoder
       Helpers.use_decoder_on_representations Helpers.add fst snd] in *.
    rewrite Hw, Ha. cbn [bind]. f_equal. lra. }
  split; [exact Hc|].
  intros Hne Heq. rewrite Hc in Heq. injection Heq as Heq. lra.
Qed.

(** Claim C8.  With [input = "both"], [create_model] hands to the decoder
    the representations built by [merge_representations]; where the word and
    audio representations evaluate to tensors of one shape, the merged
    representation has that shape and holds, at every (position, batch,
    feature) index, the maximum of the two entries. *)
Theorem both_modalities_fuse_by_elementwise_max
    (create_word_encoder create_audio_encoder : Helpers.config -> Helpers.encoder)
    (new_decoder : Helpers.config -> Decoder.t)
    (decoder_brick : Helpers.config -> Helpers.brick)
    (config : Helpers.config) :
  Helpers.input config = "both"%string ->
  let words := create_word_encoder config in
  let audio := create_audio_encoder config in
  let training :=
    Helpers.merge_representations (Helpers.training_representation words)
      (Helpers.training_representation audio) in
  let sampling :=
    Helpers.merge_representations (Helpers.sampling_representation words)
      (Helpers.sampling_representation audio) in
  Helpers.create_model create_word_encoder create_audio_encoder new_decoder
    decoder_brick config
  = Ok (Helpers.print_parameteters
          [Helpers.encoder_brick words; Helpers.encoder_brick audio;
           decoder_brick config],
        Helpers.use_decoder_on_representations (new_decoder config) training sampling)
  /\ forall (words_repr audio_repr : Helpers.variable tensor3)
            (env : Helpers.inputs) (x y : tensor3),
       words_repr env = Ok x -> audio_repr env = Ok y ->
       same_shape3 x y = true ->
       exists fused,
         Helpers.merge_representations words_repr audio_repr env = Ok fused
         /\ dim0 fused = dim0 x /\ dim1 fused = dim1 x /\ dim2 fused = dim2 x
         /\ forall i j k, item3 fused i j k = Rmax (item3 x i j k) (item3 y i j k).
Proof.
  intros Hin words audio training sampling. split.
  - unfold Helpers.create_model, Helpers.representations. rewrite Hin.
    cbn [String.eqb Ascii.eqb Bool.eqb bind]. reflexivity.
  - intros wr ar env x y Hx Hy Hs. unfold Helpers.merge_representations.
    rewrite Hx, Hy. cbn [bind stack forallb].
    assert (Hxx : same_shape3 x x = true).
    { unfold same_shape3. rewrite !Nat.eqb_refl. reflexivity. }
    rewrite Hxx, Hs. cbn. eexists. split; [reflexivity|]. cbn. repeat split.
Qed.

Lemma training_cost_uses_target_mask_as_source_mask_witness :
  exists c,
    fst (fst (Helpers.use_decoder_on_representations Examples.decoder
                (Helpers.training_representation Examples.words_encoder)
                (Helpers.sampling_representation Examples.words_encoder)))
      Examples.graph_inputs = Ok c
    /\ exists representation marks marks_mask cost_matrix,
         Helpers.training_representation Examples.words_encoder Examples.graph_inputs
         = Ok representation
         /\ Examples.graph_inputs !! "punctuation_marks"%string
            = Some (Helpers.IntMatrix marks)
         /\ Examples.graph_inputs !! "punctuation_marks_mask"%string
            = Some (Helpers.FloatMatrix marks_mask)
         /\ Decoder.cost Examples.decoder representation marks_mask marks marks_mask = Ok c
         /\ Decoder.cost_matrix Examples.decoder (T marks_mask) (T marks) representation
              (T marks_mask) = Ok cost_matrix
         /\ dim0 representation = shape1 marks_mask
         /\ shape1 marks = shape1 marks_mask.
Proof.
  eexists. split.
  - reflexivity.
  - apply (training_cost_uses_target_mask_as_source_mask Examples.decoder
             (Helpers.training_representation Examples.words_encoder)
             (Helpers.sampling_representation Examples.words_encoder)
             Examples.graph_inputs).
    reflexivity.
Defined.

Lemma multitask_cost_adds_audio_cost_twice_witness :
  exists w a,
    fst (fst (Helpers.use_decoder_on_representations Examples.decoder
                (Helpers.training_representation Examples.words_encoder)
                (Helpers.sampling_representation Examples.words_encoder)))
      Examples.graph_inputs = Ok w
    /\ fst (fst (Helpers.use_decoder_on_representations Examples.decoder
                   (Helpers.training_representation Examples.audio_encoder)
                   (Helpers.sampling_representation Examples.audio_encoder)))
         Examples.graph_inputs = Ok a
    /\ fst (fst (snd (Helpers.create_multitask_model
                        (fun _ => Examples.words_encoder)
                        (fun _ => Examples.audio_encoder)
                        (fun _ => Examples.decoder)
                        (fun _ => Examples.decoder_brick) Examples.both)))
         Examples.graph_inputs = Ok (w + 2 * a).
Proof.
  eexists. eexists. split; [reflexivity|]. split; [reflexivity|].
  apply (multitask_cost_adds_audio_cost_twice
           (fun _ => Examples.words_encoder) (fun _ => Examples.audio_encoder)
           (fun _ => Examples.decoder) (fun _ => Examples.decoder_brick)
           Examples.both Examples.graph_inputs); reflexivity.
Defined.

Lemma both_modalities_fuse_by_elementwise_max_witness :
  Helpers.create_model (fun _ => Examples.words_encoder)
    (fun _ => Examples.audio_encoder) (fun _ => Examples.decoder)
    (fun _ => Examples.decoder_brick) Examples.both
  = Ok (Helpers.print_parameteters
          [Helpers.encoder_brick Examples.words_encoder;
           Helpers.encoder_brick Examples.audio_encoder;
           Examples.decoder_brick],
        Helpers.use_decoder_on_representations Examples.decoder
          (Helpers.merge_representations
             (Helpers.training_representation Examples.words_encoder)
             (Helpers.training_representation Examples.audio_encoder))
          (Helpers.merge_representations
             (Helpers.sampling_representation Examples.words_encoder)
             (Helpers.sampling_representation Examples.audio_encoder)))
  /\ exists fused,
       Helpers.merge_representations
         (Helpers.training_representation Examples.words_encoder)
         (Helpers.training_representation Examples.audio_encoder)
         Examples.graph_inputs = Ok fused
       /\ dim0 fused = 2%nat /\ dim1 fused = 1%nat /\ dim2 fused = 2%nat
       /\ forall i j k,
            item3 fused i j k = Rmax (INR (i + k)) (INR (2 * i + k)).
Proof.
  destruct (both_modalities_fuse_by_elementwise_max
              (fun _ => Examples.words_encoder) (fun _ => Examples.audio_encoder)
              (fun _ => Examples.decoder) (fun _ => Examples.decoder_brick)
              Examples.both eq_refl) as [Hmodel Hmax].
  split; [exact Hmodel|].
  apply (Hmax (Helpers.training_representation Examples.words_encoder)
              (Helpers.training_representation Examples.audio_encoder)
              Examples.graph_inputs Examples.representation
              (Ten3 2 1 2 (fun t _ j => INR (2 * t + j)))); reflexivity.
Defined.

(** ** Parameter reporting *)

Lemma merge_snoc (dicts : list (gmap string (list nat))) (d : gmap string (list nat)) :
  Helpers.merge (dicts ++ [d]) = d ∪ Helpers.merge dicts.
Proof. unfold Helpers.merge. rewrite foldl_app. reflexivity. Qed.

Lemma merge_is_Some (dicts : list (gmap string (list nat))) (name : string) :
  is_Some (Helpers.merge dicts !! name) <-> exists d, In d dicts /\ is_Some (d !! name).
Proof.
  induction dicts as [|d dicts IH] using rev_ind.
  - unfold Helpers.merge. cbn. rewrite lookup_empty. split.
    + intros [x Hx]. discriminate.
    + intros (d & [] & _).
  - rewrite merge_snoc, lookup_union_is_Some, IH. split.
    + intros [H | (d' & Hin & H)].
      * exists d. split; [apply in_or_app; right; left; reflexivity | exact H].
      * exists d'. split; [apply in_or_app; left; exact Hin | exact H].
    + intros (d' & Hin & H). apply in_app_or in Hin. destruct Hin as [Hin | [<- | []]].
      * right. exists d'. split; assumption.
      * left. exact H.
Qed.

Lemma count_parameters_sum (param_dict : gmap string (list nat)) :
  Helpers.count_parameters param_dict
  = sum_list (map (fun nv => Helpers.product (snd nv)) (map_to_list param_dict)).
Proof.
  unfold Helpers.count_parameters. rewrite map_fold_foldr.
  induction (map_to_list param_dict) as [|[name value] l IH]; [reflexivity|].
  cbn [map foldr uncurry sum_list sum_list_with fst snd]. rewrite IH. unfold Datatypes.id. lia.
Qed.

Lemma count_parameters_disj_union (m1 m2 : gmap string (list nat)) :
  m1 ##ₘ m2 ->
  Helpers.count_parameters (m1 ∪ m2)
  = (Helpers.count_parameters m2 + Helpers.count_parameters m1)%nat.
Proof.
  intros Hd. unfold Helpers.count_parameters.
  rewrite map_fold_disj_union by (try exact Hd; intros; lia).
  generalize (map_fold (fun (_ : string) (value : list nat) (n : nat) =>
                          (n + Helpers.product value)%nat) 0%nat m2) as base.
  induction m1 as [|name value m Hnone Hfold IH] using map_first_key_ind; intros base.
  - rewrite !map_fold_empty. lia.
  - rewrite !map_fold_insert_first_key by assumption. rewrite IH.
    + lia.
    + eapply map_disjoint_insert_l. exact Hd.
Qed.

Lemma union_difference_r (d e : gmap string (list nat)) : d ∪ e = d ∪ e ∖ d.
Proof.
  apply map_eq. intros i. rewrite !lookup_union, lookup_difference.
  destruct (d !! i), (e !! i); reflexivity.
Qed.

Lemma reported_total_lines (lines : list (string * list nat)) (n : nat) :
  Helpers.reported_total
    (map (fun nv => Helpers.ParameterLine (snd nv) (fst nv)) lines ++ [Helpers.Total n])
  = Some n.
Proof. induction lines as [|l lines IH]; [reflexivity | exact IH]. Qed.

(** Claim C9.  The total [print_parameteters] reports for the encoders
    followed by the decoder is the sum of the element counts over the
    entries of the merged dictionary, which has one entry per distinct
    parameter name of the composed bricks; every parameter of the decoder is
    an entry with its own shape, and the total is the count of the decoder's
    parameters, once, plus the count of the encoder parameters under other
    names.  [create_multitask_model], which uses the decoder on two
    representations, lists it once in the bricks it reports. *)
Theorem reported_total_counts_each_named_parameter_once
    (models : list Helpers.brick) (decoder : Helpers.brick) :
  let encoders := Helpers.merge (map Helpers.get_parameters models) in
  let param_dict := Helpers.merge (map Helpers.get_parameters (models ++ [decoder])) in
  Helpers.reported_total (Helpers.print_parameteters (models ++ [decoder]))
  = Some (sum_list (map (fun nv => Helpers.product (snd nv)) (map_to_list param_dict)))
  /\ NoDup (map fst (map_to_list param_dict))
  /\ (forall name,
        is_Some (param_dict !! name) <->
        exists m, In m (models ++ [decoder])
                  /\ is_Some (Helpers.get_parameters m !! name))
  /\ (forall name shape,
        Helpers.get_parameters decoder !! name = Some shape ->
        param_dict !! name = Some shape)
  /\ Helpers.reported_total (Helpers.print_parameteters (models ++ [decoder]))
     = Some (Helpers.count_parameters (encoders ∖ Helpers.get_parameters decoder)
             + Helpers.count_parameters (Helpers.get_parameters decoder))%nat
  /\ (forall create_word_encoder create_audio_encoder new_decoder decoder_brick config,
        fst (Helpers.create_multitask_model create_word_encoder create_audio_encoder
               new_decoder decoder_brick config)
        = Helpers.print_parameteters
            ([Helpers.encoder_brick (create_word_encoder config);
              Helpers.encoder_brick (create_audio_encoder config)]
             ++ [decoder_brick config])).
Proof.
  intros encoders param_dict.
  assert (Hrep : Helpers.reported_total (Helpers.print_parameteters (models ++ [decoder]))
                 = Some (Helpers.count_parameters param_dict)).
  { unfold Helpers.print_parameteters. cbn [app Helpers.reported_total].
    apply reported_total_lines. }
  assert (Hdict : param_dict = Helpers.get_parameters decoder ∪ encoders).
  { subst param_dict encoders. rewrite map_app. cbn [map]. apply merge_snoc. }
  split; [|split; [|split; [|split; [|split]]]].
  - rewrite Hrep, count_parameters_sum. reflexivity.
  - apply NoDup_fst_map_to_list.
  - intros name. subst param_dict. rewrite merge_is_Some. split.
    + intros (d & Hin & Hd). apply in_map_iff in Hin. destruct Hin as (m & <- & Hin). eauto.
    + intros (m & Hin & Hd). exists (Helpers.get_parameters m). split; [|exact Hd].
      apply in_map. exact Hin.
  - intros name shape Hd. rewrite Hdict. apply lookup_union_Some_l. exact Hd.
  - rewrite Hrep. f_equal. rewrite Hdict.
    rewrite (union_difference_r (Helpers.get_parameters decoder) encoders).
    apply count_parameters_disj_union. apply map_disjoint_difference_r1. reflexivity.
  - reflexivity.
Qed.

(** ** The initial state of the decoder *)

Lemma tanh_inj (x y : R) : tanh x = tanh y -> x = y.
Proof.
  intros H. apply exp_inv.
  pose proof (exp_pos x) as Hx. pose proof (exp_pos (- x)) as Hx'.
  pose proof (exp_pos y) as Hy. pose proof (exp_pos (- y)) as Hy'.
  assert (Ex : exp x * exp (- x) = 1) by (rewrite <- exp_plus, Rplus_opp_r; apply exp_0).
  assert (Ey : exp y * exp (- y) = 1) by (rewrite <- exp_plus, Rplus_opp_r; apply exp_0).
  unfold tanh, sinh, cosh in H.
  set (a := exp x) in *. set (a' := exp (- x)) in *.
  set (b := exp y) in *. set (b' := exp (- y)) in *.
  assert (Hc : (a - a') * (b + b') = (b - b') * (a + a')).
  { assert (Ha : (a + a') / 2 <> 0) by lra.
    assert (Hb : (b + b') / 2 <> 0) by lra.
    apply (f_equal (fun z => z * ((a + a') / 2) * ((b + b') / 2))) in H.
    field_simplify in H; lra. }
  assert (Hab : a * b' = a' * b) by lra.
  assert (Hsq : a * a = b * b).
  { assert (H0 : a * a * (b * b') = a * a' * (b * b)).
    { replace (a * a * (b * b')) with (a * b * (a * b')) by ring.
      rewrite Hab. ring. }
    rewrite Ex, Ey in H0. lra. }
  nra.
Qed.

Lemma initial_states_unfold (self : GRUInitialState.t) (attended : tensor3) :
  GRUInitialState.initial_states self attended
  = if (dim0 attended =? 0)%nat then Raise IndexError
    else
      let start :=
        GRUInitialState.slice_start (dim2 attended) (GRUInitialState.attended_dim self) in
      if (dim2 attended - start =? GRUInitialState.attended_dim self)%nat
      then Ok (Mat (dim1 attended) (GRUInitialState.dim self)
                 (fun i j =>
                    tanh (rsum (GRUInitialState.attended_dim self)
                            (fun k => item3 attended 0 i (start + k)
                                      * GRUInitialState.state_initializer_W self k j)
                          + GRUInitialState.state_initializer_b self j)))
      else Raise ValueError.
Proof.
  unfold GRUInitialState.initial_states, GRUInitialState.first_position_tail.
  destruct (dim0 attended =? 0)%nat; [reflexivity|].
  cbn [bind]. unfold MLP.apply, MLP.affine. cbn [shape0 shape1 item].
  cbn [GRUInitialState.initial_transformer MLP.input_dim MLP.output_dim MLP.W MLP.b].
  destruct (_ =? _)%nat; reflexivity.
Qed.

Lemma slice_start_tail (n k : nat) :
  (1 <= k <= n)%nat ->
  GRUInitialState.slice_start n k = (n - k)%nat
  /\ (n - GRUInitialState.slice_start n k)%nat = k.
Proof.
  intros H. unfold GRUInitialState.slice_start.
  destruct (k =? 0)%nat eqn:E; [apply Nat.eqb_eq in E; lia | lia].
Qed.

Lemma rsum_bump (n k : nat) (x w : nat -> R) :
  (k < n)%nat ->
  rsum n (fun i => (x i + (if (i =? k)%nat then 1 else 0)) * w i)
  = rsum n (fun i => x i * w i) + w k.
Proof.
  induction n as [|n IH]; intros Hk; [lia|]. cbn [rsum].
  destruct (Nat.eq_dec k n) as [->|Hne].
  - rewrite Nat.eqb_refl.
    rewrite (rsum_ext n _ (fun i => x i * w i)).
    + lra.
    + intros i Hi. replace (i =? n)%nat with false by (symmetry; apply Nat.eqb_neq; lia).
      lra.
  - rewrite IH by lia.
    replace (n =? k)%nat with false by (symmetry; apply Nat.eqb_neq; lia). lra.
Qed.

Lemma initial_states_defined
    (self : Decoder.t) (attended : tensor3) :
  (1 <= dim0 attended)%nat ->
  (1 <= Decoder.state_dim self <= dim2 attended)%nat ->
  exists s0, GRUInitialState.initial_states (Decoder.transition self) attended = Ok s0.
Proof.
  intros HT Hd.
  destruct (slice_start_tail (dim2 attended) (Decoder.state_dim self) Hd) as [Hs Hw].
  rewrite initial_states_unfold.
  cbn [Decoder.transition GRUInitialState.attended_dim GRUInitialState.dim].
  replace (dim0 attended =? 0)%nat with false by (symmetry; apply Nat.eqb_neq; lia).
  cbv zeta. rewrite Hw, Nat.eqb_refl. eexists. reflexivity.
Qed.

(** Claim C6.  For a representation with a first position and at least
    [state_dim] features, the initial state of the decoder's transition is,
    for every batch item, tanh of the affine map of the state initialiser
    applied to the last [state_dim] features of the representation at
    position 0.  It depends on the representation: wherever a weight of the
    initialiser is not zero, changing one of those features changes the
    initial state. *)
Theorem initial_state_is_tanh_of_affine_of_first_position
    (self : Decoder.t) (attended : tensor3) :
  (1 <= dim0 attended)%nat ->
  (1 <= Decoder.state_dim self <= dim2 attended)%nat ->
  exists s0,
    GRUInitialState.initial_states (Decoder.transition self) attended = Ok s0
    /\ shape0 s0 = dim1 attended /\ shape1 s0 = Decoder.state_dim self
    /\ (forall b j,
          item s0 b j
          = tanh (rsum (Decoder.state_dim self)
                    (fun k => item3 attended 0 b
                                (dim2 attended - Decoder.state_dim self + k)
                              * Decoder.state_initializer_W self k j)
                  + Decoder.state_initializer_b self j))
    /\ (forall b k j,
          (k < Decoder.state_dim self)%nat ->
          Decoder.state_initializer_W self k j <> 0 ->
          exists attended' s0',
            dim0 attended' = dim0 attended /\ dim1 attended' = dim1 attended
            /\ dim2 attended' = dim2 attended
            /\ GRUInitialState.initial_states (Decoder.transition self) attended' = Ok s0'
            /\ item s0' b j <> item s0 b j).
Proof.
  intros HT Hd.
  destruct (slice_start_tail (dim2 attended) (Decoder.state_dim self) Hd) as [Hs Hw].
  assert (Hunfold : forall a, dim0 a = dim0 attended -> dim2 a = dim2 attended ->
    GRUInitialState.initial_states (Decoder.transition self) a
    = Ok (Mat (dim1 a) (Decoder.state_dim self)
            (fun i j =>
               tanh (rsum (Decoder.state_dim self)
                       (fun k => item3 a 0 i (dim2 attended - Decoder.state_dim self + k)
                                 * Decoder.state_initializer_W self k j)
                     + Decoder.state_initializer_b self j)))).
  { intros a H0 H2. rewrite initial_states_unfold.
    cbn [Decoder.transition GRUInitialState.attended_dim GRUInitialState.dim
         GRUInitialState.state_initializer_W GRUInitialState.state_initializer_b].
    rewrite H0, H2.
    replace (dim0 attended =? 0)%nat with false by (symmetry; apply Nat.eqb_neq; lia).
    cbv zeta. rewrite Hw, Nat.eqb_refl, Hs. reflexivity. }
  eexists. split; [apply Hunfold; reflexivity|].
  cbn [shape0 shape1 item]. repeat split.
  intros b k j Hk Hne.
  set (start := (dim2 attended - Decoder.state_dim self)%nat).
  set (a' := Ten3 (dim0 attended) (dim1 attended) (dim2 attended)
               (fun t i f => item3 attended t i f
                             + (if (f =? start + k)%nat then 1 else 0))).
  exists a'. eexists. split; [reflexivity|]. split; [reflexivity|]. split; [reflexivity|].
  split; [apply Hunfold; reflexivity|].
  cbn [item a' item3 dim1]. intros Heq. apply tanh_inj in Heq.
  rewrite (rsum_ext _ _
             (fun i => (item3 attended 0 b (start + i)
                        + (if (i =? k)%nat then 1 else 0))
                       * Decoder.state_initializer_W self i j)) in Heq.
  - rewrite rsum_bump in Heq by exact Hk. fold start in Heq. lra.
  - intros i Hi. fold start.
    destruct (Nat.eqb_spec i k) as [->|Hik].
    + rewrite Nat.eqb_refl. reflexivity.
    + replace (start + i =? start + k)%nat with false
        by (symmetry; apply Nat.eqb_neq; lia).
      reflexivity.
Qed.

Lemma initial_state_is_tanh_of_affine_of_first_position_witness :
  exists s0,
    GRUInitialState.initial_states (Decoder.transition Examples.decoder)
      Examples.representation = Ok s0
    /\ shape0 s0 = 1%nat /\ shape1 s0 = 2%nat
    /\ (forall b j,
          item s0 b j
          = tanh (rsum 2 (fun k => item3 Examples.representation 0 b (2 - 2 + k)
                                   * Decoder.state_initializer_W Examples.decoder k j)
                  + Decoder.state_initializer_b Examples.decoder j))
    /\ exists attended' s0',
         GRUInitialState.initial_states (Decoder.transition Examples.decoder) attended'
         = Ok s0'
         /\ item s0' 0%nat 0%nat <> item s0 0%nat 0%nat.
Proof.
  destruct (initial_state_is_tanh_of_affine_of_first_position
              Examples.decoder Examples.representation)
    as (s0 & H & H0 & H1 & Hitem & Hdep).
  - simpl. lia.
  - simpl. lia.
  - exists s0. repeat split; try assumption.
    destruct (Hdep 0%nat 0%nat 0%nat) as (a' & s0' & _ & _ & _ & Ha' & Hne).
    + simpl. lia.
    + simpl. lra.
    + exists a', s0'. split; assumption.
Defined.

(** ** Free-running generation *)

Lemma feedback1_valid (self : Decoder.t) (outputs : list Z) :
  Forall (LookupFeedbackWMT15.valid_output (Decoder.feedback_brick self)) outputs ->
  LookupFeedbackWMT15.feedback1 (Decoder.feedback_brick self) outputs
  = Ok (map (LookupFeedbackWMT15.embedding (Decoder.feedback_brick self)) outputs).
Proof.
  intros H. unfold LookupFeedbackWMT15.feedback1.
  cbn [Decoder.feedback_brick LookupFeedbackWMT15.output_dim Nat.eqb negb].
  apply feedback_flat_valid. exact H.
Qed.

Section GenerateFacts.
Variable self : Decoder.t.
Variables (attended : tensor3) (attended_mask : matrix R).
Hypothesis emit_in_vocabulary :
  forall s f g u, (Decoder.emit self s f g u < Z.of_nat (Decoder.vocab_size self))%Z.

Hypothesis vocabulary_not_empty : (0 < Decoder.vocab_size self)%nat.

Lemma emitted_valid (s f g : list R) (u : R) :
  LookupFeedbackWMT15.valid_output (Decoder.feedback_brick self)
    (Decoder.emit self s f g u).
Proof.
  unfold LookupFeedbackWMT15.valid_output.
  cbn [Decoder.feedback_brick LookupFeedbackWMT15.num_outputs].
  pose proof (emit_in_vocabulary s f g u).
  pose proof vocabulary_not_empty.
  destruct (_ <? 0)%Z; lia.
Qed.

Lemma nth_map_seq {A} (f : nat -> A) (n b : nat) (d : A) :
  (b < n)%nat -> nth b (map f (seq 0 n)) d = f b.
Proof.
  intros Hb. rewrite (nth_indep _ d (f 0%nat)) by (rewrite length_map, length_seq; exact Hb).
  rewrite map_nth, seq_nth by exact Hb. reflexivity.
Qed.

Lemma nth_map_embedding (outputs : list Z) (b : nat) :
  (b < List.length outputs)%nat ->
  nth b (map (LookupFeedbackWMT15.embedding (Decoder.feedback_brick self)) outputs) []
  = LookupFeedbackWMT15.embedding (Decoder.feedback_brick self) (nth b outputs (-1)%Z).
Proof.
  intros Hb.
  rewrite (nth_indep _ [] (LookupFeedbackWMT15.embedding (Decoder.feedback_brick self)
                             (-1)%Z)) by (rewrite length_map; exact Hb).
  apply map_nth.
Qed.

Lemma generate_step_Ok (draws : nat -> R) (states : list (list R)) (outputs : list Z) :
  Forall (LookupFeedbackWMT15.valid_output (Decoder.feedback_brick self)) outputs ->
  List.length outputs = List.length states ->
  exists next_states next_outputs,
    Decoder.generate_step self attended attended_mask draws states outputs
    = Ok (next_states, next_outputs)
    /\ List.length next_states = List.length states
    /\ List.length next_outputs = List.length states
    /\ Forall (LookupFeedbackWMT15.valid_output (Decoder.feedback_brick self))
         next_outputs
    /\ forall b, (b < List.length states)%nat ->
         nth b next_outputs (-1)%Z
         = Decoder.emit self (nth b states [])
             (LookupFeedbackWMT15.embedding (Decoder.feedback_brick self)
                (nth b outputs (-1)%Z))
             (Decoder.glimpse self attended attended_mask b (nth b states []))
             (draws b)
         /\ nth b next_states []
            = Decoder.gru_step self (nth b states [])
                (LookupFeedbackWMT15.embedding (Decoder.feedback_brick self)
                   (nth b next_outputs (-1)%Z))
                (Decoder.glimpse self attended attended_mask b (nth b states [])).
Proof.
  intros Hv Hlen. unfold Decoder.generate_step.
  rewrite (feedback1_valid self outputs Hv). cbn [bind].
  match goal with
  | |- context [LookupFeedbackWMT15.feedback1 _ ?l] =>
      assert (Hn : Forall (LookupFeedbackWMT15.valid_output (Decoder.feedback_brick self)) l)
  end.
  { apply List.Forall_forall. intros o Ho. apply in_map_iff in Ho.
    destruct Ho as (b & <- & _). apply emitted_valid. }
  rewrite (feedback1_valid self _ Hn). cbn [bind].
  eexists. eexists. split; [reflexivity|].
  rewrite !length_map, length_seq. split; [reflexivity|]. split; [reflexivity|].
  split; [exact Hn|].
  intros b Hb.
  assert (Ho : nth b
                 (map (fun b0 =>
                         Decoder.emit self (nth b0 states [])
                           (nth b0 (map (LookupFeedbackWMT15.embedding
                                           (Decoder.feedback_brick self)) outputs) [])
                           (nth b0 (map (fun b1 =>
                                           Decoder.glimpse self attended attended_mask b1
                                             (nth b1 states []))
                                      (seq 0 (List.length states))) [])
                           (draws b0)) (seq 0 (List.length states))) (-1)%Z
               = Decoder.emit self (nth b states [])
                   (LookupFeedbackWMT15.embedding (Decoder.feedback_brick self)
                      (nth b outputs (-1)%Z))
                   (Decoder.glimpse self attended attended_mask b (nth b states []))
                   (draws b)).
  { rewrite nth_map_seq by exact Hb.
    rewrite nth_map_embedding by lia. rewrite nth_map_seq by exact Hb. reflexivity. }
  split; [exact Ho|].
  repeat first [ rewrite Ho
               | rewrite nth_map_seq by exact Hb
               | rewrite nth_map_embedding by (rewrite ?length_map, ?length_seq; lia) ].
  reflexivity.
Qed.

Lemma generate_loop_Ok (n : nat) :
  forall (step : nat) (draws : nat -> nat -> R)
         (states : list (list R)) (outputs : list Z),
    Forall (LookupFeedbackWMT15.valid_output (Decoder.feedback_brick self)) outputs ->
    List.length outputs = List.length states ->
    exists generated,
      Decoder.generate_loop self attended attended_mask n step draws states outputs
      = Ok (generated, (step + n)%nat)
      /\ List.length generated = n
      /\ Forall (fun row => List.length row = List.length states) generated
      /\ forall k b, (k < n)%nat -> (b < List.length states)%nat ->
           nth b (nth k generated []) (-1)%Z
           = Decoder.generated_token self attended attended_mask draws b k step
               (nth b states []) (nth b outputs (-1)%Z).
Proof.
  induction n as [|n IH]; intros step draws states outputs Hv Hlen.
  - exists []. cbn. rewrite Nat.add_0_r. repeat split; [constructor|].
    intros k b Hk. lia.
  - cbn [Decoder.generate_loop].
    destruct (generate_step_Ok (draws step) states outputs Hv Hlen)
      as (s' & o' & Hstep & Hls & Hlo & Hv' & Hitem).
    rewrite Hstep. cbn [bind fst snd].
    destruct (IH (S step) draws s' o' Hv' ltac:(congruence))
      as (rest & Hrest & Hlenr & Hrows & Htok).
    rewrite Hrest. cbn [bind fst snd].
    exists (o' :: rest). split; [f_equal; f_equal; lia|].
    split; [cbn; lia|].
    split; [constructor; [exact Hlo|]; rewrite Hls in Hrows; exact Hrows|].
    intros k b Hk Hb. destruct (Hitem b Hb) as [Ho Hs].
    destruct k as [|k]; cbn [nth Decoder.generated_token].
    + exact Ho.
    + rewrite Htok by lia. rewrite Hs, Ho. reflexivity.
Qed.
End GenerateFacts.

(** Claim C4.  For a representation with at least one position and the
    features the decoder is built for, a decoder whose [state_dim] the
    readout can split in pairs, a non-empty vocabulary and an emitter that
    returns tokens of the vocabulary, [Decoder.generate] runs exactly
    [2 * source_length] steps and returns [2 * source_length] rows of
    tokens, one token per batch item in each row.  Every token is the one
    the emitter returns at its step, from the state reached by feeding back
    all earlier tokens of the item: no token, whatever its value, ends the
    generation or changes how the later steps are run. *)
Theorem generate_returns_twice_the_source_length
    (self : Decoder.t) (representation : tensor3) (draws : nat -> nat -> R) :
  (1 <= dim0 representation)%nat ->
  dim2 representation = Decoder.representation_dim self ->
  Nat.even (Decoder.state_dim self) = true ->
  (1 <= Decoder.state_dim self <= dim2 representation)%nat ->
  (forall s f g u,
      (Decoder.emit self s f g u < Z.of_nat (Decoder.vocab_size self))%Z) ->
  (0 < Decoder.vocab_size self)%nat ->
  exists outputs s0,
    Decoder.generate self representation draws
    = Ok (outputs, (2 * dim0 representation)%nat)
    /\ List.length outputs = (2 * dim0 representation)%nat
    /\ Forall (fun row => List.length row = dim1 representation) outputs
    /\ GRUInitialState.initial_states (Decoder.transition self) representation = Ok s0
    /\ forall k b, (k < 2 * dim0 representation)%nat -> (b < dim1 representation)%nat ->
         nth b (nth k outputs []) (-1)%Z
         = Decoder.generated_token self representation
             (T (ones (dim1 representation) (dim0 representation))) draws b k 0
             (Decoder.matrix_row s0 b) (-1)%Z.
Proof.
  intros HT Hrep Heven Hd Hemit Hvocab.
  unfold Decoder.generate, Decoder.sequence_generator_generate.
  destruct (initial_states_defined self representation HT Hd)
    as (s0 & Hs0). rewrite Hs0. cbn [bind].
  unfold Decoder.shapes_agree, Decoder.dims_agree. cbn [T ones shape0 shape1].
  rewrite Hrep, Heven, !Nat.eqb_refl. cbn [andb].
  destruct (generate_loop_Ok self representation
              (T (ones (dim1 representation) (dim0 representation))) Hemit Hvocab
              (2 * dim0 representation) 0 draws
              (map (Decoder.matrix_row s0) (seq 0 (dim1 representation)))
              (Decoder.initial_outputs (dim1 representation)))
    as (generated & Hgen & Hlen & Hrows & Htok).
  - apply List.Forall_forall. intros o Ho. apply repeat_spec in Ho. subst o.
    unfold LookupFeedbackWMT15.valid_output. cbn. lia.
  - unfold Decoder.initial_outputs. rewrite repeat_length, length_map, length_seq.
    reflexivity.
  - exists generated, s0. rewrite Hgen. rewrite length_map, length_seq in Hrows, Htok.
    split; [reflexivity|]. split; [exact Hlen|]. split; [exact Hrows|].
    split; [reflexivity|].
    intros k b Hk Hb. rewrite Htok by assumption.
    rewrite nth_map_seq by exact Hb.
    unfold Decoder.initial_outputs. rewrite nth_repeat. reflexivity.
Qed.

Lemma generate_returns_twice_the_source_length_witness :
  exists outputs s0,
    Decoder.generate Examples.decoder Examples.representation Examples.draws
    = Ok (outputs, 4%nat)
    /\ List.length outputs = 4%nat
    /\ Forall (fun row => List.length row = 1%nat) outputs
    /\ GRUInitialState.initial_states (Decoder.transition Examples.decoder)
         Examples.representation = Ok s0
    /\ forall k b, (k < 4)%nat -> (b < 1)%nat ->
         nth b (nth k outputs []) (-1)%Z
         = Decoder.generated_token Examples.decoder Examples.representation
             (T (ones 1 2)) Examples.draws b k 0 (Decoder.matrix_row s0 b) (-1)%Z.
Proof.
  apply (generate_returns_twice_the_source_length
           Examples.decoder Examples.representation Examples.draws).
  - simpl. lia.
  - reflexivity.
  - reflexivity.
  - simpl. lia.
  - intros s f g u. simpl. lia.
  - simpl. lia.
Defined.

(** ** Attention over a padded source *)

Lemma forallb_seq_ext (f g : nat -> bool) (n : nat) :
  forall s, (forall t, (s <= t < s + n)%nat -> f t = g t) ->
            forallb f (seq s n) = forallb g (seq s n).
Proof.
  induction n as [|n IH]; intros s H; [reflexivity|].
  cbn [seq forallb]. rewrite (H s) by lia. f_equal.
  apply IH. intros t Ht. apply H. lia.
Qed.

Section AttentionPadding.
Variables (n k : nat).
Variables (e e' m m' : nat -> R).
Hypothesis positions : (1 <= n)%nat.
Hypothesis energies_agree : forall t, (t < n)%nat -> e' t = e t.
Hypothesis mask_agrees : forall t, (t < n)%nat -> m' t = m t.
Hypothesis padding_masked : forall t, (n <= t < n + k)%nat -> m' t = 0.
Hypothesis mask_binary : forall t, (t < n)%nat -> m t = 0 \/ m t = 1.

Lemma all_unmasked_false_pad :
  SequenceContentAttention.all_unmasked_false (n + k) m'
  = SequenceContentAttention.all_unmasked_false n m.
Proof.
  unfold SequenceContentAttention.all_unmasked_false.
  rewrite seq_app, forallb_app.
  replace (forallb _ (seq (0 + n) k)) with true.
  - rewrite andb_true_r. apply forallb_seq_ext.
    intros t Ht. rewrite mask_agrees by lia. reflexivity.
  - symmetry. apply forallb_forall. intros t Ht. apply in_seq in Ht.
    rewrite padding_masked by lia.
    destruct (Req_dec_T (1 - 0) 0); [lra | reflexivity].
Qed.

Lemma all_unmasked_false_zero (t : nat) :
  SequenceContentAttention.all_unmasked_false n m = true -> (t < n)%nat -> m t = 0.
Proof.
  unfold SequenceContentAttention.all_unmasked_false. intros H Ht.
  rewrite forallb_forall in H. specialize (H t).
  destruct (Req_dec_T (1 - m t) 0) as [E|E].
  - assert (false = true) by (apply H, in_seq; lia). discriminate.
  - destruct (mask_binary t Ht); [assumption | lra].
Qed.

Lemma compute_weights_pad (t : nat) :
  SequenceContentAttention.compute_weights (n + k) e' m' t
  = if (t <? n)%nat then SequenceContentAttention.compute_weights n e m t
    else if (t <? n + k)%nat then 0
    else SequenceContentAttention.compute_weights (n + k) e' m' t.
Proof.
  destruct (t <? n)%nat eqn:Et.
  2:{ destruct (t <? n + k)%nat eqn:Et'; [|reflexivity].
      apply Nat.ltb_ge in Et. apply Nat.ltb_lt in Et'.
      unfold SequenceContentAttention.compute_weights,
        SequenceContentAttention.unnormalized_weights.
      rewrite padding_masked by lia. unfold Rdiv. ring. }
  apply Nat.ltb_lt in Et.
  unfold SequenceContentAttention.compute_weights,
    SequenceContentAttention.normalization,
    SequenceContentAttention.unnormalized_weights.
  rewrite all_unmasked_false_pad.
  set (M := rmax_upto (n - 1) e). set (M' := rmax_upto (n + k - 1) e').
  set (c := exp (M - M')).
  assert (Hu : forall i, (i < n)%nat ->
            exp (e' i - M') * m' i = c * (exp (e i - M) * m i)).
  { intros i Hi. rewrite energies_agree, mask_agrees by exact Hi.
    subst c. rewrite <- Rmult_assoc, <- exp_plus. f_equal. f_equal. ring. }
  assert (Hsum : rsum (n + k) (fun i => exp (e' i - M') * m' i)
                 = c * rsum n (fun i => exp (e i - M) * m i)).
  { rewrite rsum_plus, (rsum_zero k), Rplus_0_r.
    - rewrite <- rsum_scale. apply rsum_ext. exact Hu.
    - intros i Hi. rewrite padding_masked by lia. ring. }
  rewrite Hsum, (Hu t Et).
  destruct (SequenceContentAttention.all_unmasked_false n m) eqn:Eall.
  - rewrite (all_unmasked_false_zero t Eall Et). unfold Rdiv. ring.
  - rewrite !Rplus_0_r. unfold Rdiv. rewrite Rinv_mult.
    replace (c * (exp (e t - M) * m t) * (/ c * / rsum n (fun i => exp (e i - M) * m i)))
      with (c * / c * (exp (e t - M) * m t * / rsum n (fun i => exp (e i - M) * m i)))
      by ring.
    rewrite Rinv_r by (subst c; pose proof (exp_pos (M - M')); lra).
    ring.
Qed.
End AttentionPadding.

Lemma glimpse_pad (self : Decoder.t) (rep rep' : tensor3)
    (smask smask' : matrix R) (ks b : nat) (s : list R) :
  (1 <= dim0 rep)%nat ->
  shape1 smask = dim0 rep -> shape0 smask = dim1 rep ->
  Padding.binary_mask smask ->
  Padding.pads3 ks rep rep' ->
  Padding.pads_masked ks smask smask' ->
  (b < dim1 rep)%nat ->
  Decoder.glimpse self rep' (T smask') b s = Decoder.glimpse self rep (T smask) b s.
Proof.
  intros Hn HsT HsB Hbin (Hd0 & Hd1 & Hd2 & Hrep) ((Hm0 & Hm1 & Hm) & Hpad) Hb.
  unfold Decoder.glimpse, SequenceContentAttention.take_glimpses,
    SequenceContentAttention.compute_weighted_averages,
    SequenceContentAttention.weights.
  rewrite Hd2. apply map_ext_in. intros j Hj. apply in_seq in Hj.
  rewrite Hd0, rsum_plus, (rsum_zero ks), Rplus_0_r.
  - apply rsum_ext. intros t Ht.
    rewrite (compute_weights_pad (dim0 rep) ks
               (SequenceContentAttention.compute_energies (Decoder.energy self) rep b s)
               _ (fun t => item (T smask) t b)).
    + replace (t <? dim0 rep)%nat with true by (symmetry; apply Nat.ltb_lt; lia).
      rewrite Hrep by lia. reflexivity.
    + exact Hn.
    + intros i Hi. unfold SequenceContentAttention.compute_energies,
        SequenceContentAttention.attended_at. f_equal. rewrite Hd2.
      apply map_ext_in. intros f Hf. apply in_seq in Hf. apply Hrep; lia.
    + intros i Hi. cbn [T item]. apply Hm; lia.
    + intros i Hi. cbn [T item]. apply Hpad; lia.
    + intros i Hi. cbn [T item]. apply Hbin; lia.
  - intros i Hi.
    rewrite (compute_weights_pad (dim0 rep) ks
               (SequenceContentAttention.compute_energies (Decoder.energy self) rep b s)
               _ (fun t => item (T smask) t b)).
    + replace (dim0 rep + i <? dim0 rep)%nat with false
        by (symmetry; apply Nat.ltb_ge; lia).
      replace (dim0 rep + i <? dim0 rep + ks)%nat with true
        by (symmetry; apply Nat.ltb_lt; lia).
      ring.
    + exact Hn.
    + intros t Ht. unfold SequenceContentAttention.compute_energies,
        SequenceContentAttention.attended_at. f_equal. rewrite Hd2.
      apply map_ext_in. intros f Hf. apply in_seq in Hf. apply Hrep; lia.
    + intros t Ht. cbn [T item]. apply Hm; lia.
    + intros t Ht. cbn [T item]. apply Hpad; lia.
    + intros t Ht. cbn [T item]. apply Hbin; lia.
Qed.

(** ** The recurrence on a padded batch *)

Section RecurrencePadding.
Variable self : Decoder.t.
Variables (attended attended' : tensor3) (amask amask' : matrix R).
Variables (mask mask' : matrix R) (outputs outputs' : matrix Z).
Variables (fb fb' : matrix (list R)) (ffb : list (list R)).
Variables (ini ini' : matrix R).
Variables (batch steps : nat).
Hypothesis glimpses_agree : forall b s, (b < batch)%nat ->
  Decoder.glimpse self attended' amask' b s = Decoder.glimpse self attended amask b s.
Hypothesis masks_agree : forall t b, (t < steps)%nat -> (b < batch)%nat ->
  item mask' t b = item mask t b.
Hypothesis outputs_agree : forall t b, (t < steps)%nat -> (b < batch)%nat ->
  item outputs' t b = item outputs t b.
Hypothesis feedback_agrees : forall t b, (t < steps)%nat -> (b < batch)%nat ->
  item fb' t b = item fb t b.
Hypothesis initial_agrees : forall b, (b < batch)%nat ->
  Decoder.matrix_row ini' b = Decoder.matrix_row ini b.

Lemma states_pad (t b : nat) :
  (t <= steps)%nat -> (b < batch)%nat ->
  Decoder.states self attended' amask' mask' fb' ini' t b
  = Decoder.states self attended amask mask fb ini t b.
Proof.
  intros Ht Hb. induction t as [|t IH]; cbn [Decoder.states].
  - apply initial_agrees. exact Hb.
  - rewrite IH by lia.
    rewrite masks_agree, feedback_agrees, glimpses_agree by lia. reflexivity.
Qed.

Lemma costs_pad (t b : nat) :
  (t < steps)%nat -> (b < batch)%nat ->
  Decoder.costs self attended' amask' mask' outputs' fb' ffb ini' t b
  = Decoder.costs self attended amask mask outputs fb ffb ini t b.
Proof.
  intros Ht Hb. unfold Decoder.costs. cbv zeta.
  rewrite states_pad by lia. rewrite glimpses_agree, outputs_agree by lia.
  f_equal. destruct t as [|t]; cbn [Decoder.rolled_feedback]; [reflexivity|].
  apply feedback_agrees; lia.
Qed.
End RecurrencePadding.

Lemma feedback_Ok_items (self : LookupFeedbackWMT15.t) (outputs : matrix Z)
    (fb : matrix (list R)) :
  LookupFeedbackWMT15.feedback self outputs = Ok fb ->
  forall t b, (t < shape0 outputs)%nat -> (b < shape1 outputs)%nat ->
    item fb t b = LookupFeedbackWMT15.embedding self (item outputs t b).
Proof.
  intros H. destruct (feedback_Ok_valid self outputs fb H) as [Hd Hv].
  destruct (feedback_spec self outputs Hd Hv) as (fb0 & Hfb0 & _ & _ & Hitems).
  rewrite H in Hfb0. injection Hfb0 as <-. exact Hitems.
Qed.

Lemma cost_of_cost_matrix (self : Decoder.t) (representation : tensor3)
    (source_sentence_mask : matrix R) (target_sentence : matrix Z)
    (target_sentence_mask cm : matrix R) :
  Decoder.cost_matrix self (T target_sentence_mask) (T target_sentence)
    representation (T source_sentence_mask) = Ok cm ->
  Decoder.cost self representation source_sentence_mask target_sentence
    target_sentence_mask
  = Ok (rsum (shape1 target_sentence_mask) (fun t =>
          rsum (shape0 target_sentence_mask) (fun b =>
            item cm t b * item target_sentence_mask b t))
        / INR (shape0 target_sentence_mask)).
Proof.
  intros E. unfold Decoder.cost. rewrite E. cbn [bind].
  apply cost_matrix_Ok in E.
  destruct E as (fb & ini & ffb & _ & _ & _ & Hs & _ & ->).
  apply same_shape_eq in Hs. destruct Hs as [Hs0 Hs1]. cbn in Hs0, Hs1.
  unfold mul, same_shape. cbn [shape0 shape1 T].
  rewrite <- Hs0, <- Hs1, !Nat.eqb_refl. cbn. reflexivity.
Qed.

Lemma cost_Ok_cost_matrix (self : Decoder.t) (representation : tensor3)
    (source_sentence_mask : matrix R) (target_sentence : matrix Z)
    (target_sentence_mask : matrix R) (c : R) :
  Decoder.cost self representation source_sentence_mask target_sentence
    target_sentence_mask = Ok c ->
  exists cm,
    Decoder.cost_matrix self (T target_sentence_mask) (T target_sentence)
      representation (T source_sentence_mask) = Ok cm
    /\ c = rsum (shape1 target_sentence_mask) (fun t =>
             rsum (shape0 target_sentence_mask) (fun b =>
               item cm t b * item target_sentence_mask b t))
           / INR (shape0 target_sentence_mask).
Proof.
  intros H.
  destruct (Decoder.cost_matrix self (T target_sentence_mask) (T target_sentence)
              representation (T source_sentence_mask)) as [cm|e] eqn:E.
  - exists cm. split; [reflexivity|].
    rewrite (cost_of_cost_matrix _ _ _ _ _ cm E) in H. injection H as <-. reflexivity.
  - unfold Decoder.cost in H. rewrite E in H. discriminate.
Qed.

Lemma initial_states_pad (self : GRUInitialState.t) (rep rep' : tensor3)
    (ks : nat) (ini : matrix R) :
  Padding.pads3 ks rep rep' ->
  GRUInitialState.initial_states self rep = Ok ini ->
  (1 <= dim0 rep)%nat
  /\ exists ini',
       GRUInitialState.initial_states self rep' = Ok ini'
       /\ forall b, (b < dim1 rep)%nat ->
            Decoder.matrix_row ini' b = Decoder.matrix_row ini b.
Proof.
  intros (Hd0 & Hd1 & Hd2 & Hrep) H.
  rewrite initial_states_unfold in H. rewrite initial_states_unfold.
  rewrite Hd0, Hd2.
  destruct (dim0 rep =? 0)%nat eqn:E0; [discriminate|].
  apply Nat.eqb_neq in E0.
  replace (dim0 rep + ks =? 0)%nat with false by (symmetry; apply Nat.eqb_neq; lia).
  cbv zeta in *.
  set (start := GRUInitialState.slice_start (dim2 rep) (GRUInitialState.attended_dim self)) in *.
  destruct (dim2 rep - start =? GRUInitialState.attended_dim self)%nat eqn:Ew;
    [|discriminate].
  apply Nat.eqb_eq in Ew. injection H as <-.
  split; [lia|]. eexists. split; [reflexivity|].
  intros b Hb. unfold Decoder.matrix_row. cbn [shape1 item].
  apply map_ext_in. intros j _. f_equal. f_equal.
  apply rsum_ext. intros i Hi. rewrite Hrep by lia. reflexivity.
Qed.

(** Claim C1.  Let a batch on which [Decoder.cost] returns a value have a
    0/1 source mask.  Appending [ks] positions to the representation and to
    the source mask, the new positions masked out, and appending [kt]
    positions to the target sentence and to the target mask, the new
    positions masked out and holding tokens of the vocabulary, leaves the
    returned cost unchanged ([ks] or [kt] may be 0). *)
Theorem cost_unchanged_by_masked_padding
    (self : Decoder.t) (rep rep' : tensor3) (smask smask' : matrix R)
    (tgt tgt' : matrix Z) (tmask tmask' : matrix R) (ks kt : nat) (c : R) :
  Padding.binary_mask smask ->
  Padding.pads3 ks rep rep' ->
  Padding.pads_masked ks smask smask' ->
  Padding.pads kt tgt tgt' ->
  Padding.pads_masked kt tmask tmask' ->
  (forall b t, (b < shape0 tgt)%nat -> (shape1 tgt <= t < shape1 tgt + kt)%nat ->
     (item tgt' b t < Z.of_nat (Decoder.vocab_size self))%Z) ->
  Decoder.cost self rep smask tgt tmask = Ok c ->
  Decoder.cost self rep' smask' tgt' tmask' = Ok c.
Proof.
  intros Hbin Hrep Hsm Htg Htm Hnew Hc.
  apply cost_Ok_cost_matrix in Hc. destruct Hc as (cm & Hcm & ->).
  pose proof (cost_matrix_Ok_dims _ _ _ _ _ _ Hcm) as Hdims.
  apply cost_matrix_Ok in Hcm.
  destruct Hcm as (fb & ini & ffb & Hfb & Hini & Hffb & Hs1 & Hs2 & ->).
  apply same_shape_eq in Hs1. cbn [T shape0 shape1] in Hs1. destruct Hs1 as [HsT HsB].
  unfold Decoder.shapes_agree in Hs2. cbn [T shape0 shape1] in Hs2.
  apply andb_true_iff in Hs2. destruct Hs2 as [Hs2 HmB].
  apply andb_true_iff in Hs2. destruct Hs2 as [HrB HmT].
  apply Nat.eqb_eq in HmB, HrB, HmT.
  cbn [T shape1] in Hffb.
  pose proof Hrep as (Hd0 & Hd1 & Hd2 & _).
  pose proof Hsm as ((Hm0 & Hm1 & _) & _).
  pose proof Htg as (Hg0 & Hg1 & Hg).
  pose proof Htm as ((Ht0 & Ht1 & Ht) & Htpad).
  destruct (initial_states_pad _ rep rep' ks ini Hrep Hini) as (Hn & ini' & Hini' & Hrows).
  (* the feedback of the padded targets *)
  destruct (feedback_Ok_valid _ _ _ Hfb) as [Hod Hvalid]. cbn [T shape0 shape1 item] in Hvalid.
  assert (Hvocab : (0 < shape0 tgt)%nat -> (0 < Decoder.vocab_size self)%nat).
  { intros HB. unfold LookupFeedbackWMT15.feedback1 in Hffb.
    cbn [Decoder.feedback_brick LookupFeedbackWMT15.output_dim Nat.eqb negb] in Hffb.
    apply feedback_flat_Ok in Hffb. rewrite List.Forall_forall in Hffb.
    assert (Hin : In (-1)%Z (Decoder.initial_outputs (shape0 tgt))).
    { unfold Decoder.initial_outputs. destruct (shape0 tgt); [lia | left; reflexivity]. }
    specialize (Hffb _ Hin). unfold LookupFeedbackWMT15.valid_output in Hffb.
    cbn in Hffb. lia. }
  destruct (feedback_spec (Decoder.feedback_brick self) (T tgt') Hod)
    as (fb' & Hfb' & _ & _ & Hitems').
  { cbn [T shape0 shape1 item]. intros t b Ht' Hb'. rewrite Hg1 in Ht'. rewrite Hg0 in Hb'.
    destruct (Nat.lt_ge_cases t (shape1 tgt)) as [Hlt|Hge].
    - rewrite Hg by assumption. apply Hvalid; assumption.
    - specialize (Hnew b t Hb' (conj Hge Ht')). specialize (Hvocab ltac:(lia)).
      unfold LookupFeedbackWMT15.valid_output.
      cbn [Decoder.feedback_brick LookupFeedbackWMT15.num_outputs].
      destruct (_ <? 0)%Z; lia. }
  pose proof (feedback_Ok_items _ _ _ Hfb) as Hitems.
  cbn [T shape0 shape1 item] in Hitems, Hitems'.
  (* the cost matrix of the padded batch *)
  assert (Hcm' :
    Decoder.cost_matrix self (T tmask') (T tgt') rep' (T smask')
    = Ok (Mat (shape1 tgt') (shape0 tgt')
            (fun t b => Decoder.costs self rep' (T smask') (T tmask') (T tgt')
                          fb' ffb ini' t b
                        * item (T tmask') t b))).
  { unfold Decoder.cost_matrix. rewrite Hfb', Hini'. cbn [bind T shape0 shape1].
    rewrite Hg0, Hffb. cbn [bind].
    unfold same_shape, Decoder.shapes_agree. cbn [T shape0 shape1].
    rewrite ?Hg0.
    replace (shape1 tmask' =? shape1 tgt')%nat with true
      by (symmetry; apply Nat.eqb_eq; lia).
    replace (shape0 tmask' =? shape0 tgt)%nat with true
      by (symmetry; apply Nat.eqb_eq; lia).
    replace (dim1 rep' =? shape0 tgt)%nat with true
      by (symmetry; apply Nat.eqb_eq; lia).
    replace (shape1 smask' =? dim0 rep')%nat with true
      by (symmetry; apply Nat.eqb_eq; lia).
    replace (shape0 smask' =? shape0 tgt)%nat with true
      by (symmetry; apply Nat.eqb_eq; lia).
    replace (Decoder.dims_agree self rep') with true
      by (symmetry; unfold Decoder.dims_agree in *; rewrite Hd2; exact Hdims).
    reflexivity. }
  rewrite (cost_of_cost_matrix _ _ _ _ _ _ Hcm'). f_equal.
  rewrite Ht0. f_equal. rewrite Ht1, rsum_plus.
  rewrite (rsum_zero kt), Rplus_0_r.
  - apply rsum_ext. intros t Ht'. apply rsum_ext. intros b Hb'.
    cbn [item T]. rewrite Ht by lia.
    rewrite (costs_pad self rep rep' (T smask) (T smask') (T tmask) (T tmask')
               (T tgt) (T tgt') fb fb' ffb ini ini' (shape0 tgt) (shape1 tgt)).
    + reflexivity.
    + intros b0 s Hb0. apply (glimpse_pad self rep rep' smask smask' ks); try assumption; lia.
    + intros t0 b0 Ht0' Hb0. cbn [T item]. apply Ht; lia.
    + intros t0 b0 Ht0' Hb0. cbn [T item]. apply Hg; lia.
    + intros t0 b0 Ht0' Hb0. rewrite Hitems, Hitems' by lia. rewrite Hg by lia. reflexivity.
    + intros b0 Hb0. apply Hrows. lia.
    + lia.
    + lia.
  - intros i Hi. apply rsum_zero. intros b Hb'.
    cbn [item T]. rewrite Htpad by lia. ring.
Qed.

(** ** Batches on which the cost evaluates *)

Lemma cost_returns_a_value (self : Decoder.t) (rep : tensor3) (smask : matrix R)
    (tgt : matrix Z) (tmask : matrix R) :
  (forall b t, (b < shape0 tgt)%nat -> (t < shape1 tgt)%nat ->
     (item tgt b t < Z.of_nat (Decoder.vocab_size self))%Z) ->
  (0 < Decoder.vocab_size self)%nat ->
  (1 <= dim0 rep)%nat ->
  (1 <= Decoder.state_dim self <= dim2 rep)%nat ->
  dim2 rep = Decoder.representation_dim self ->
  Nat.even (Decoder.state_dim self) = true ->
  same_shape tmask tgt = true ->
  dim1 rep = shape0 tgt -> shape0 smask = shape0 tgt -> shape1 smask = dim0 rep ->
  exists c, Decoder.cost self rep smask tgt tmask = Ok c.
Proof.
  intros Hvalid Hvocab Hn Hw Hrd Heven Hts HrB Hm0 Hm1.
  apply same_shape_eq in Hts. destruct Hts as [Ht0 Ht1].
  assert (Hv : forall o, (o < Z.of_nat (Decoder.vocab_size self))%Z ->
                 LookupFeedbackWMT15.valid_output (Decoder.feedback_brick self) o).
  { intros o Ho. unfold LookupFeedbackWMT15.valid_output.
    cbn [Decoder.feedback_brick LookupFeedbackWMT15.num_outputs].
    destruct (o <? 0)%Z; lia. }
  destruct (feedback_spec (Decoder.feedback_brick self) (T tgt) eq_refl)
    as (fb & Hfb & _).
  { cbn [T shape0 shape1 item]. intros t b Ht Hb. apply Hv. apply Hvalid; assumption. }
  assert (Hffb : exists ffb,
             LookupFeedbackWMT15.feedback1 (Decoder.feedback_brick self)
               (Decoder.initial_outputs (shape0 tgt)) = Ok ffb).
  { eexists. apply feedback1_valid. apply List.Forall_forall.
    intros o Ho. apply repeat_spec in Ho. subst o. apply Hv. lia. }
  destruct Hffb as (ffb & Hffb).
  destruct (initial_states_defined self rep Hn Hw) as (ini & Hini).
  assert (Hcm : exists cm,
             Decoder.cost_matrix self (T tmask) (T tgt) rep (T smask) = Ok cm).
  { unfold Decoder.cost_matrix. rewrite Hfb, Hini. cbn [bind T shape0 shape1].
    rewrite Hffb. cbn [bind].
    unfold same_shape, Decoder.shapes_agree, Decoder.dims_agree. cbn [T shape0 shape1].
    rewrite Ht0, Ht1, HrB, Hm0, Hm1, Hrd, Heven, !Nat.eqb_refl. cbn [andb].
    eexists. reflexivity. }
  destruct Hcm as (cm & Hcm).
  eexists. apply (cost_of_cost_matrix _ _ _ _ _ _ Hcm).
Qed.

Ltac decide_ltb :=
  repeat match goal with
    | |- context [(?a <? ?b)%nat] =>
        first [ replace (a <? b)%nat with true
                  by (symmetry; apply Nat.ltb_lt; cbn in *; lia)
              | replace (a <? b)%nat with false
                  by (symmetry; apply Nat.ltb_ge; cbn in *; lia) ]
    end.

Lemma cost_unchanged_by_masked_padding_witness :
  exists c,
    Decoder.cost Examples.decoder Examples.representation Examples.source_mask
      Examples.target Examples.target_mask = Ok c
    /\ Decoder.cost Examples.decoder Examples.padded_representation
         Examples.padded_source_mask Examples.padded_target
         Examples.padded_target_mask = Ok c.
Proof.
  eexists. split; [reflexivity|].
  apply (cost_unchanged_by_masked_padding Examples.decoder
           Examples.representation Examples.padded_representation
           Examples.source_mask Examples.padded_source_mask
           Examples.target Examples.padded_target
           Examples.target_mask Examples.padded_target_mask 1 2).
  - intros b t _ _. right. reflexivity.
  - repeat split. intros t b j Ht _ _. cbn -[Nat.ltb INR]. decide_ltb. reflexivity.
  - split; [repeat split|]; intros b t Hb Ht; cbn -[Nat.ltb]; decide_ltb; reflexivity.
  - repeat split. intros b t Hb Ht. cbn -[Nat.ltb Z.of_nat]. decide_ltb. reflexivity.
  - split; [repeat split|]; intros b t Hb Ht; cbn -[Nat.ltb]; decide_ltb; reflexivity.
  - intros b t Hb Ht. cbn -[Nat.ltb]. decide_ltb. lia.
  - reflexivity.
Defined.

(** ** Attention over a source that is masked out everywhere *)

Lemma map_const_repeat {A} (x : A) (l : list nat) :
  map (fun _ => x) l = repeat x (List.length l).
Proof. induction l as [|a l IH]; [reflexivity | cbn; rewrite IH; reflexivity]. Qed.

Lemma all_unmasked_false_of_zero (n : nat) (mask : nat -> R) :
  (forall t, (t < n)%nat -> mask t = 0) ->
  SequenceContentAttention.all_unmasked_false n mask = true.
Proof.
  intros H. unfold SequenceContentAttention.all_unmasked_false.
  apply forallb_forall. intros t Ht. apply in_seq in Ht.
  rewrite H by lia. destruct (Req_dec_T (1 - 0) 0); [lra | reflexivity].
Qed.

Lemma fully_masked_attention
    (energy : list R -> list R -> R) (attended : tensor3)
    (attended_mask : matrix R) (b : nat) (state : list R) :
  (forall t, (t < dim0 attended)%nat -> item attended_mask t b = 0) ->
  SequenceContentAttention.normalization (dim0 attended)
    (SequenceContentAttention.compute_energies energy attended b state)
    (fun t => item attended_mask t b) = 1
  /\ (forall t, (t < dim0 attended)%nat ->
        SequenceContentAttention.weights energy attended attended_mask b state t = 0)
  /\ SequenceContentAttention.take_glimpses energy attended attended_mask b state
     = repeat 0 (dim2 attended).
Proof.
  intros Hzero.
  assert (Hnorm : SequenceContentAttention.normalization (dim0 attended)
            (SequenceContentAttention.compute_energies energy attended b state)
            (fun t => item attended_mask t b) = 1).
  { unfold SequenceContentAttention.normalization.
    rewrite all_unmasked_false_of_zero by exact Hzero.
    rewrite rsum_zero; [lra|].
    intros t Ht. unfold SequenceContentAttention.unnormalized_weights.
    rewrite Hzero by exact Ht. ring. }
  assert (Hw : forall t, (t < dim0 attended)%nat ->
            SequenceContentAttention.weights energy attended attended_mask b state t = 0).
  { intros t Ht. unfold SequenceContentAttention.weights,
      SequenceContentAttention.compute_weights.
    rewrite Hnorm. unfold SequenceContentAttention.unnormalized_weights.
    rewrite Hzero by exact Ht. lra. }
  split; [exact Hnorm|]. split; [exact Hw|].
  unfold SequenceContentAttention.take_glimpses,
    SequenceContentAttention.compute_weighted_averages.
  transitivity (map (fun _ : nat => 0) (seq 0 (dim2 attended))).
  - apply map_ext. intros j.
    apply rsum_zero. intros t Ht. rewrite Hw by exact Ht. ring.
  - rewrite map_const_repeat, length_seq. reflexivity.
Qed.

(** Claim C3, as the code has it.  On a batch that is consistent otherwise
    (targets of at least one position holding tokens of the vocabulary, a
    representation with the features the decoder is built for, masks and
    targets of matching shapes), a source mask that is zero at every
    position of a batch item raises nothing: [Decoder.cost] returns a
    value, and for this item and every decoding state the normalization
    coefficient of the attention is 1, every attention weight is 0, and the
    glimpse is the zero vector of the representation's dimension. *)
Theorem attention_on_fully_masked_item_is_zero
    (self : Decoder.t) (rep : tensor3) (smask : matrix R)
    (tgt : matrix Z) (tmask : matrix R) (b : nat) :
  (1 <= shape1 tgt)%nat ->
  (forall b t, (b < shape0 tgt)%nat -> (t < shape1 tgt)%nat ->
     (0 <= item tgt b t < Z.of_nat (Decoder.vocab_size self))%Z) ->
  (1 <= dim0 rep)%nat ->
  (1 <= Decoder.state_dim self <= dim2 rep)%nat ->
  dim2 rep = Decoder.representation_dim self ->
  Nat.even (Decoder.state_dim self) = true ->
  same_shape tmask tgt = true ->
  dim1 rep = shape0 tgt -> shape0 smask = shape0 tgt -> shape1 smask = dim0 rep ->
  (b < shape0 smask)%nat ->
  (forall t, (t < shape1 smask)%nat -> item smask b t = 0) ->
  (exists c, Decoder.cost self rep smask tgt tmask = Ok c)
  /\ (forall e, Decoder.cost self rep smask tgt tmask <> Raise e)
  /\ forall state,
       SequenceContentAttention.normalization (dim0 rep)
         (SequenceContentAttention.compute_energies (Decoder.energy self) rep b state)
         (fun t => item (T smask) t b) = 1
       /\ (forall t, (t < dim0 rep)%nat ->
             SequenceContentAttention.weights (Decoder.energy self) rep (T smask)
               b state t = 0)
       /\ Decoder.glimpse self rep (T smask) b state = repeat 0 (dim2 rep).
Proof.
  intros HT Hvalid Hn Hw Hrd Heven Hts HrB Hm0 Hm1 Hb Hzero.
  assert (Hvocab : (0 < Decoder.vocab_size self)%nat).
  { specialize (Hvalid b 0%nat ltac:(lia) ltac:(lia)). lia. }
  destruct (cost_returns_a_value self rep smask tgt tmask) as (c & Hc);
    try assumption.
  { intros b' t Hb' Ht. apply Hvalid; assumption. }
  split; [exists c; exact Hc|].
  split; [intros e He; rewrite Hc in He; discriminate|].
  intros state. unfold Decoder.glimpse.
  apply fully_masked_attention.
  intros t Ht. cbn [T item]. apply Hzero. lia.
Qed.

Lemma attention_on_fully_masked_item_is_zero_witness :
  (exists c,
     Decoder.cost Examples.decoder Examples.representation Examples.empty_source_mask
       Examples.target Examples.target_mask = Ok c)
  /\ (forall e,
        Decoder.cost Examples.decoder Examples.representation
          Examples.empty_source_mask Examples.target Examples.target_mask <> Raise e)
  /\ forall state,
       SequenceContentAttention.normalization 2
         (SequenceContentAttention.compute_energies (Decoder.energy Examples.decoder)
            Examples.representation 0 state)
         (fun t => item (T Examples.empty_source_mask) t 0) = 1
       /\ (forall t, (t < 2)%nat ->
             SequenceContentAttention.weights (Decoder.energy Examples.decoder)
               Examples.representation (T Examples.empty_source_mask) 0 state t = 0)
       /\ Decoder.glimpse Examples.decoder Examples.representation
            (T Examples.empty_source_mask) 0 state = [0; 0].
Proof.
  apply (attention_on_fully_masked_item_is_zero Examples.decoder
           Examples.representation Examples.empty_source_mask Examples.target
           Examples.target_mask 0%nat).
  - cbn. lia.
  - intros b t Hb Ht. cbn in *. lia.
  - cbn. lia.
  - cbn. lia.
  - reflexivity.
  - reflexivity.
  - reflexivity.
  - reflexivity.
  - reflexivity.
  - reflexivity.
  - cbn. lia.
  - intros t Ht. reflexivity.
Defined.

(** Claim C3, as stated, fails: on a batch whose only item has a source
    mask of zeros, [Decoder.cost] returns a value and raises no exception. *)
Lemma cost_on_fully_masked_source_returns_a_value :
  (forall b t, item Examples.empty_source_mask b t = 0)
  /\ (exists c,
        Decoder.cost Examples.decoder Examples.representation
          Examples.empty_source_mask Examples.target Examples.target_mask = Ok c)
  /\ forall e,
       Decoder.cost Examples.decoder Examples.representation
         Examples.empty_source_mask Examples.target Examples.target_mask <> Raise e.
Proof.
  split; [reflexivity|]. split.
  - eexists. reflexivity.
  - intros e. discriminate.
Qed.

(* ===================================================================== *)
(** * Further properties                                                  *)
(* ===================================================================== *)

(** ** Failures of the feedback brick *)

Lemma mapM_Ok_or_Raise {A B} (f : A -> result B) (e : exn) (l : list A) :
  (forall a, (exists b, f a = Ok b) \/ f a = Raise e) ->
  (exists r, mapM f l = Ok r) \/ mapM f l = Raise e.
Proof.
  intros Hf. induction l as [|a l IH]; cbn [mapM].
  - left. eexists. reflexivity.
  - destruct (Hf a) as [(b & ->) | ->]; cbn [bind]; [|right; reflexivity].
    destruct IH as [(r & ->) | ->]; cbn [bind]; [left; eexists|right]; reflexivity.
Qed.

Lemma subscript_Ok_or_IndexError (t : LookupTable) (i : Z) :
  (exists r, subscript t i = Ok r) \/ subscript t i = Raise IndexError.
Proof.
  unfold subscript. destruct (_ && _); [left; eexists; reflexivity|].
  destruct (_ && _); [left; eexists; reflexivity | right; reflexivity].
Qed.

Lemma feedback_flat_Ok_or_IndexError (self : LookupFeedbackWMT15.t) (l : list Z) :
  (exists r, LookupFeedbackWMT15.feedback_flat self l = Ok r)
  \/ LookupFeedbackWMT15.feedback_flat self l = Raise IndexError.
Proof.
  unfold LookupFeedbackWMT15.feedback_flat, lookup_apply.
  destruct (mapM_Ok_or_Raise (subscript (LookupFeedbackWMT15.lookup self)) IndexError
              (map (fun o : Z => if (o <? 0)%Z then 0%Z else o) l)
              (subscript_Ok_or_IndexError _)) as [(r & ->) | ->]; cbn [bind].
  - left. eexists. reflexivity.
  - right. reflexivity.
Qed.

Lemma valid_output_max (self : LookupFeedbackWMT15.t) (o : Z) :
  LookupFeedbackWMT15.valid_output self o
  <-> (Z.max 0 o < Z.of_nat (LookupFeedbackWMT15.num_outputs self))%Z.
Proof.
  unfold LookupFeedbackWMT15.valid_output.
  destruct (o <? 0)%Z eqn:E; [apply Z.ltb_lt in E | apply Z.ltb_ge in E]; lia.
Qed.

Lemma feedback_flat_Raise (self : LookupFeedbackWMT15.t) (l : list Z) (e : exn) :
  LookupFeedbackWMT15.feedback_flat self l = Raise e ->
  exists o, In o l
            /\ (Z.of_nat (LookupFeedbackWMT15.num_outputs self) <= Z.max 0 o)%Z.
Proof.
  unfold LookupFeedbackWMT15.feedback_flat, lookup_apply. intros H.
  assert (Hm : mapM (subscript (LookupFeedbackWMT15.lookup self))
                 (map (fun o : Z => if (o <? 0)%Z then 0%Z else o) l) = Raise e).
  { destruct (mapM _ _); [discriminate | exact H]. }
  clear H. induction l as [|o l IH]; [discriminate|].
  cbn [map mapM] in Hm.
  destruct (Z.lt_ge_cases (Z.max 0 o)
              (Z.of_nat (LookupFeedbackWMT15.num_outputs self))) as [Hlt|Hge].
  - apply valid_output_max in Hlt. rewrite (subscript_clamped self o Hlt) in Hm.
    cbn [bind] in Hm.
    destruct (mapM _ _) as [rows|e'] eqn:E; [discriminate|].
    cbn [bind] in Hm. destruct (IH Hm) as (o' & Hin & Hbad).
    exists o'. split; [right; exact Hin | exact Hbad].
  - exists o. split; [left; reflexivity | exact Hge].
Qed.

Lemma feedback_IndexError_at
    (self : LookupFeedbackWMT15.t) (outputs : matrix Z) (t b : nat) :
  LookupFeedbackWMT15.output_dim self = 0%nat ->
  (t < shape0 outputs)%nat -> (b < shape1 outputs)%nat ->
  (Z.of_nat (LookupFeedbackWMT15.num_outputs self) <= Z.max 0 (item outputs t b))%Z ->
  LookupFeedbackWMT15.feedback self outputs = Raise IndexError.
Proof.
  intros Hd Ht Hb Hbad.
  destruct (LookupFeedbackWMT15.feedback self outputs) as [fb|e] eqn:E.
  - destruct (feedback_Ok_valid self outputs fb E) as [_ Hv].
    specialize (Hv t b Ht Hb). apply valid_output_max in Hv. lia.
  - unfold LookupFeedbackWMT15.feedback in E. rewrite Hd in E. cbn [Nat.eqb negb] in E.
    destruct (feedback_flat_Ok_or_IndexError self (flatten outputs)) as [(r & Hr) | Hr];
      rewrite Hr in E; cbn [bind] in E; [discriminate | symmetry; exact E].
Qed.

(** Property X1.  [feedback] raises [IndexError] as soon as one output, clamped at 0, is
    not a row of the embedding table: a token at or beyond the table length,
    or any output at all, the sentinel included, when the table is empty.
    No other exception is raised once [output_dim] is 0. *)
Theorem feedback_raises_index_error_outside_table
    (self : LookupFeedbackWMT15.t) (outputs : matrix Z) :
  LookupFeedbackWMT15.output_dim self = 0%nat ->
  ((exists t b, (t < shape0 outputs)%nat /\ (b < shape1 outputs)%nat
                /\ (Z.of_nat (LookupFeedbackWMT15.num_outputs self)
                    <= Z.max 0 (item outputs t b))%Z)
   <-> LookupFeedbackWMT15.feedback self outputs = Raise IndexError)
  /\ forall e, LookupFeedbackWMT15.feedback self outputs = Raise e -> e = IndexError.
Proof.
  intros Hd.
  assert (Hcases : (exists fb, LookupFeedbackWMT15.feedback self outputs = Ok fb)
                   \/ LookupFeedbackWMT15.feedback self outputs = Raise IndexError).
  { unfold LookupFeedbackWMT15.feedback. rewrite Hd. cbn [Nat.eqb negb].
    destruct (feedback_flat_Ok_or_IndexError self (flatten outputs)) as [(r & ->) | ->];
      cbn [bind]; [left; eexists; reflexivity | right; reflexivity]. }
  split; [split|].
  - intros (t & b & Ht & Hb & Hbad).
    apply (feedback_IndexError_at self outputs t b); assumption.
  - intros Hraise. unfold LookupFeedbackWMT15.feedback in Hraise.
    rewrite Hd in Hraise. cbn [Nat.eqb negb] in Hraise.
    destruct (LookupFeedbackWMT15.feedback_flat self (flatten outputs)) as [r|e] eqn:E;
      [discriminate|].
    apply feedback_flat_Raise in E. destruct E as (o & Hin & Hbad).
    apply in_flatten in Hin. destruct Hin as (t & b & Ht & Hb & ->).
    exists t, b. repeat split; assumption.
  - intros e He. destruct Hcases as [(fb & Hfb) | Hr]; rewrite He in *; congruence.
Qed.

Lemma feedback_raises_index_error_outside_table_witness :
  LookupFeedbackWMT15.feedback (Decoder.feedback_brick Examples.decoder)
    MoreExamples.outputs_outside_vocabulary = Raise IndexError.
Proof.
  destruct (feedback_raises_index_error_outside_table
              (Decoder.feedback_brick Examples.decoder)
              MoreExamples.outputs_outside_vocabulary eq_refl) as [[H _] _].
  apply H. exists 0%nat, 0%nat. simpl. repeat split; lia.
Defined.

(** ** Edge behaviour of the initial state *)

Lemma slice_width_cases (n k : nat) :
  (n - GRUInitialState.slice_start n k)%nat = k
  <-> (1 <= k <= n)%nat \/ (k = 0 /\ n = 0)%nat.
Proof.
  unfold GRUInitialState.slice_start.
  destruct (k =? 0)%nat eqn:E; [apply Nat.eqb_eq in E | apply Nat.eqb_neq in E]; lia.
Qed.

(** Property X2.  [initial_states] raises [IndexError] exactly on a representation without
    positions; otherwise it raises [ValueError] exactly when the
    representation has fewer than [attended_dim] features, or when
    [attended_dim] is 0 and the representation has features (the slice
    [-0:] keeps them all); in the remaining cases it returns a value. *)
Theorem initial_states_failure_cases
    (self : GRUInitialState.t) (attended : tensor3) :
  (GRUInitialState.initial_states self attended = Raise IndexError
   <-> dim0 attended = 0%nat)
  /\ (GRUInitialState.initial_states self attended = Raise ValueError
      <-> (1 <= dim0 attended)%nat
          /\ ((dim2 attended < GRUInitialState.attended_dim self)%nat
              \/ (GRUInitialState.attended_dim self = 0%nat
                  /\ (1 <= dim2 attended)%nat)))
  /\ ((exists s0, GRUInitialState.initial_states self attended = Ok s0)
      <-> (1 <= dim0 attended)%nat
          /\ ((1 <= GRUInitialState.attended_dim self <= dim2 attended)%nat
              \/ (GRUInitialState.attended_dim self = 0%nat
                  /\ dim2 attended = 0%nat))).
Proof.
  rewrite initial_states_unfold. cbv zeta.
  pose proof (slice_width_cases (dim2 attended) (GRUInitialState.attended_dim self)) as Hw.
  destruct (dim0 attended =? 0)%nat eqn:E0;
    [apply Nat.eqb_eq in E0 | apply Nat.eqb_neq in E0].
  - split; [|split]; split; intros H;
      try reflexivity; try discriminate; try lia;
      try (destruct H as [s0 H]; discriminate).
  - destruct (_ =? GRUInitialState.attended_dim self)%nat eqn:Ew;
      [apply Nat.eqb_eq in Ew | apply Nat.eqb_neq in Ew].
    + apply Hw in Ew.
      split; [|split]; split; intros H;
        try discriminate; try lia; try (eexists; reflexivity).
    + assert (Hn : ~ ((1 <= GRUInitialState.attended_dim self <= dim2 attended)%nat
                      \/ (GRUInitialState.attended_dim self = 0 /\ dim2 attended = 0)%nat))
        by (intros H; apply Hw in H; contradiction).
      split; [|split]; split; intros H;
        try reflexivity; try discriminate; try lia;
        try (destruct H as [s0 H]; discriminate).
Qed.

(** Property X3.  The initial state reads the representation only at position 0 and only
    in its last [attended_dim] features: a representation of the same batch
    size and feature count that agrees there, whatever its other positions,
    its other features and its length, gives the same initial state. *)
Theorem initial_states_read_only_first_position_tail
    (self : GRUInitialState.t) (attended attended' : tensor3) (s0 : matrix R) :
  dim1 attended' = dim1 attended ->
  dim2 attended' = dim2 attended ->
  (1 <= dim0 attended')%nat ->
  (forall b j, (b < dim1 attended)%nat ->
     (dim2 attended - GRUInitialState.attended_dim self <= j < dim2 attended)%nat ->
     item3 attended' 0 b j = item3 attended 0 b j) ->
  GRUInitialState.initial_states self attended = Ok s0 ->
  exists s0',
    GRUInitialState.initial_states self attended' = Ok s0'
    /\ shape0 s0' = shape0 s0 /\ shape1 s0' = shape1 s0
    /\ forall b j, (b < shape0 s0)%nat -> item s0' b j = item s0 b j.
Proof.
  intros H1 H2 H0 Hagree H.
  rewrite initial_states_unfold in H. rewrite initial_states_unfold.
  cbv zeta in *. rewrite H1, H2.
  destruct (dim0 attended =? 0)%nat; [discriminate|].
  replace (dim0 attended' =? 0)%nat with false by (symmetry; apply Nat.eqb_neq; lia).
  destruct (_ =? GRUInitialState.attended_dim self)%nat eqn:Ew; [|discriminate].
  apply Nat.eqb_eq in Ew. injection H as <-.
  eexists. split; [reflexivity|]. cbn [shape0 shape1 item].
  split; [reflexivity|]. split; [reflexivity|].
  intros b j Hb. f_equal. f_equal. apply rsum_ext. intros i Hi.
  rewrite Hagree; [reflexivity | exact Hb |].
  apply slice_width_cases in Ew. unfold GRUInitialState.slice_start.
  destruct (GRUInitialState.attended_dim self =? 0)%nat eqn:E;
    [apply Nat.eqb_eq in E | apply Nat.eqb_neq in E]; lia.
Qed.

Lemma initial_states_read_only_first_position_tail_witness :
  exists s0 s0',
    GRUInitialState.initial_states (Decoder.transition Examples.decoder)
      MoreExamples.wide_representation = Ok s0
    /\ GRUInitialState.initial_states (Decoder.transition Examples.decoder)
         MoreExamples.other_representation = Ok s0'
    /\ shape0 s0' = shape0 s0 /\ shape1 s0' = shape1 s0
    /\ forall b j, (b < shape0 s0)%nat -> item s0' b j = item s0 b j.
Proof.
  assert (H : exists s0,
             GRUInitialState.initial_states (Decoder.transition Examples.decoder)
               MoreExamples.wide_representation = Ok s0) by (eexists; reflexivity).
  destruct H as [s0 H]. exists s0.
  destruct (initial_states_read_only_first_position_tail
              (Decoder.transition Examples.decoder)
              MoreExamples.wide_representation MoreExamples.other_representation
              s0 eq_refl eq_refl) as (s0' & H' & Hrest).
  - simpl. lia.
  - intros b j Hb Hj. cbn in Hj.
    assert (Hj' : j = 1%nat \/ j = 2%nat) by lia.
    destruct Hj' as [-> | ->]; reflexivity.
  - exact H.
  - exists s0'. split; [exact H|]. split; assumption.
Defined.

Lemma tanh_bounds (x : R) : -1 < tanh x < 1.
Proof.
  unfold tanh, sinh, cosh.
  pose proof (exp_pos x) as Ha. pose proof (exp_pos (- x)) as Hb.
  set (a := exp x) in *. set (b := exp (- x)) in *.
  assert (Hc : 0 < (a + b) / 2) by lra.
  set (t := (a - b) / 2 / ((a + b) / 2)).
  assert (Ht : t * ((a + b) / 2) = (a - b) / 2) by (subst t; field; lra).
  split; nra.
Qed.

(** Property X4.  Every component of an initial state lies between -1 and 1. *)
Theorem initial_states_are_bounded
    (self : GRUInitialState.t) (attended : tensor3) (s0 : matrix R) (b j : nat) :
  GRUInitialState.initial_states self attended = Ok s0 ->
  -1 <= item s0 b j <= 1.
Proof.
  intros H. rewrite initial_states_unfold in H. cbv zeta in H.
  destruct (dim0 attended =? 0)%nat; [discriminate|].
  destruct (_ =? GRUInitialState.attended_dim self)%nat; [|discriminate].
  injection H as <-. cbn [item].
  match goal with |- _ <= tanh ?x <= _ => pose proof (tanh_bounds x) end. lra.
Qed.

Lemma initial_states_are_bounded_witness :
  exists s0,
    GRUInitialState.initial_states (Decoder.transition Examples.decoder)
      Examples.representation = Ok s0
    /\ -1 <= item s0 0%nat 0%nat <= 1.
Proof.
  eexists. split; [reflexivity|].
  apply (initial_states_are_bounded (Decoder.transition Examples.decoder)
           Examples.representation _ 0%nat 0%nat).
  reflexivity.
Defined.

(** ** Attention weights under a 0/1 mask *)

Lemma rsum_nonneg (n : nat) (f : nat -> R) :
  (forall i, (i < n)%nat -> 0 <= f i) -> 0 <= rsum n f.
Proof.
  induction n as [|n IH]; intros H; cbn [rsum]; [lra|].
  pose proof (IH (fun i Hi => H i (Nat.lt_lt_succ_r _ _ Hi))).
  pose proof (H n (Nat.lt_succ_diag_r n)). lra.
Qed.

Lemma rsum_pos_at (n : nat) (f : nat -> R) (t : nat) :
  (forall i, (i < n)%nat -> 0 <= f i) -> (t < n)%nat -> 0 < f t -> 0 < rsum n f.
Proof.
  induction n as [|n IH]; intros H Ht Hf; [lia|]. cbn [rsum].
  pose proof (rsum_nonneg n f (fun i Hi => H i (Nat.lt_lt_succ_r _ _ Hi))) as Hs.
  pose proof (H n (Nat.lt_succ_diag_r n)) as Hn.
  destruct (Nat.eq_dec t n) as [->|Hne]; [lra|].
  assert (0 < rsum n f) by (apply IH; [intros; apply H|..]; try assumption; lia). lra.
Qed.

Section AttentionMasked.
Variable n : nat.
Variables (e e' m : nat -> R).
Hypothesis mask_binary : forall t, (t < n)%nat -> m t = 0 \/ m t = 1.
Hypothesis energies_agree : forall t, (t < n)%nat -> m t <> 0 -> e' t = e t.

Lemma all_unmasked_false_true_zero (t : nat) :
  SequenceContentAttention.all_unmasked_false n m = true -> (t < n)%nat -> m t = 0.
Proof.
  unfold SequenceContentAttention.all_unmasked_false. intros H Ht.
  rewrite forallb_forall in H. specialize (H t).
  destruct (Req_dec_T (1 - m t) 0) as [E|E].
  - assert (false = true) by (apply H, in_seq; lia). discriminate.
  - destruct (mask_binary t Ht); [assumption | lra].
Qed.

Lemma all_unmasked_false_false_one :
  SequenceContentAttention.all_unmasked_false n m = false ->
  exists t, (t < n)%nat /\ m t = 1.
Proof.
  unfold SequenceContentAttention.all_unmasked_false. intros H.
  assert (Hex : exists t, In t (seq 0 n)
                          /\ (if Req_dec_T (1 - m t) 0 then false else true) = false).
  { induction (seq 0 n) as [|a l IH]; cbn [forallb] in H; [discriminate|].
    apply andb_false_iff in H. destruct H as [H|H].
    - exists a. split; [left; reflexivity | exact H].
    - destruct (IH H) as (t & Hin & Ht). exists t. split; [right; exact Hin | exact Ht]. }
  destruct Hex as (t & Hin & Ht). apply in_seq in Hin.
  exists t. split; [lia|]. destruct (Req_dec_T (1 - m t) 0); [lra | discriminate].
Qed.

Lemma compute_weights_masked_energies (t : nat) :
  (t < n)%nat ->
  SequenceContentAttention.compute_weights n e' m t
  = SequenceContentAttention.compute_weights n e m t.
Proof.
  intros Ht.
  unfold SequenceContentAttention.compute_weights,
    SequenceContentAttention.normalization,
    SequenceContentAttention.unnormalized_weights.
  set (M := rmax_upto (n - 1) e). set (M' := rmax_upto (n - 1) e').
  set (c := exp (M - M')).
  assert (Hu : forall i, (i < n)%nat ->
            exp (e' i - M') * m i = c * (exp (e i - M) * m i)).
  { intros i Hi. destruct (Req_dec_T (m i) 0) as [E|E].
    - rewrite E. ring.
    - rewrite energies_agree by assumption.
      subst c. rewrite <- Rmult_assoc, <- exp_plus. f_equal. f_equal. ring. }
  assert (Hsum : rsum n (fun i => exp (e' i - M') * m i)
                 = c * rsum n (fun i => exp (e i - M) * m i)).
  { rewrite <- rsum_scale. apply rsum_ext. exact Hu. }
  rewrite Hsum, (Hu t Ht).
  destruct (SequenceContentAttention.all_unmasked_false n m) eqn:Eall.
  - rewrite (all_unmasked_false_true_zero t Eall Ht). unfold Rdiv. ring.
  - rewrite !Rplus_0_r. unfold Rdiv. rewrite Rinv_mult.
    replace (c * (exp (e t - M) * m t) * (/ c * / rsum n (fun i => exp (e i - M) * m i)))
      with (c * / c * (exp (e t - M) * m t * / rsum n (fun i => exp (e i - M) * m i)))
      by ring.
    rewrite Rinv_r by (subst c; pose proof (exp_pos (M - M')); lra).
    ring.
Qed.

Lemma compute_weights_zero_where_masked (t : nat) :
  m t = 0 -> SequenceContentAttention.compute_weights n e m t = 0.
Proof.
  intros H. unfold SequenceContentAttention.compute_weights,
    SequenceContentAttention.unnormalized_weights.
  rewrite H. unfold Rdiv. ring.
Qed.

Lemma normalization_positive :
  (exists t, (t < n)%nat /\ m t = 1) ->
  SequenceContentAttention.normalization n e m
  = rsum n (SequenceContentAttention.unnormalized_weights n e m)
  /\ 0 < rsum n (SequenceContentAttention.unnormalized_weights n e m).
Proof.
  intros (t & Ht & H1).
  assert (Hnn : forall i, (i < n)%nat ->
            0 <= SequenceContentAttention.unnormalized_weights n e m i).
  { intros i Hi. unfold SequenceContentAttention.unnormalized_weights.
    pose proof (exp_pos (e i - rmax_upto (n - 1) e)).
    destruct (mask_binary i Hi) as [-> | ->]; lra. }
  split.
  - unfold SequenceContentAttention.normalization.
    destruct (SequenceContentAttention.all_unmasked_false n m) eqn:E; [|lra].
    pose proof (all_unmasked_false_true_zero t E Ht). lra.
  - apply (rsum_pos_at n _ t Hnn Ht).
    unfold SequenceContentAttention.unnormalized_weights. rewrite H1.
    pose proof (exp_pos (e t - rmax_upto (n - 1) e)). lra.
Qed.

Lemma compute_weights_distribution :
  (exists t, (t < n)%nat /\ m t = 1) ->
  rsum n (SequenceContentAttention.compute_weights n e m) = 1
  /\ (forall t, (t < n)%nat -> m t = 1 ->
        0 < SequenceContentAttention.compute_weights n e m t)
  /\ (forall t, (t < n)%nat -> m t = 0 ->
        SequenceContentAttention.compute_weights n e m t = 0).
Proof.
  intros Hex. destruct (normalization_positive Hex) as [Hnorm Hpos].
  split; [|split].
  - unfold SequenceContentAttention.compute_weights. rewrite Hnorm.
    rewrite (rsum_ext n _
               (fun i => / rsum n (SequenceContentAttention.unnormalized_weights n e m)
                         * SequenceContentAttention.unnormalized_weights n e m i))
      by (intros; unfold Rdiv; ring).
    rewrite rsum_scale. apply Rinv_l. lra.
  - intros t Ht H1. unfold SequenceContentAttention.compute_weights. rewrite Hnorm.
    apply Rdiv_lt_0_compat; [|exact Hpos].
    unfold SequenceContentAttention.unnormalized_weights. rewrite H1.
    pose proof (exp_pos (e t - rmax_upto (n - 1) e)). lra.
  - intros t _ H0. apply compute_weights_zero_where_masked. exact H0.
Qed.
End AttentionMasked.

(** Property X5.  For a batch item whose 0/1 source mask keeps at least one position, the
    attention weights of every decoding state are 0 at the masked positions,
    positive at the others, and sum to 1 over the positions. *)
Theorem attention_weights_are_a_distribution_over_unmasked_positions
    (energy : list R -> list R -> R) (attended : tensor3)
    (attended_mask : matrix R) (b : nat) (state : list R) (t0 : nat) :
  (forall t, (t < dim0 attended)%nat ->
     item attended_mask t b = 0 \/ item attended_mask t b = 1) ->
  (t0 < dim0 attended)%nat -> item attended_mask t0 b = 1 ->
  rsum (dim0 attended)
    (SequenceContentAttention.weights energy attended attended_mask b state) = 1
  /\ (forall t, (t < dim0 attended)%nat -> item attended_mask t b = 1 ->
        0 < SequenceContentAttention.weights energy attended attended_mask b state t)
  /\ (forall t, (t < dim0 attended)%nat -> item attended_mask t b = 0 ->
        SequenceContentAttention.weights energy attended attended_mask b state t = 0).
Proof.
  intros Hbin Ht0 H1. unfold SequenceContentAttention.weights.
  apply compute_weights_distribution; [exact Hbin | exists t0; split; assumption].
Qed.

Lemma attention_weights_are_a_distribution_over_unmasked_positions_witness :
  rsum 3
    (SequenceContentAttention.weights (Decoder.energy Examples.decoder)
       Examples.padded_representation (T Examples.padded_source_mask) 0 [0; 0]) = 1
  /\ (forall t, (t < 3)%nat -> item (T Examples.padded_source_mask) t 0 = 1 ->
        0 < SequenceContentAttention.weights (Decoder.energy Examples.decoder)
              Examples.padded_representation (T Examples.padded_source_mask) 0 [0; 0] t)
  /\ (forall t, (t < 3)%nat -> item (T Examples.padded_source_mask) t 0 = 0 ->
        SequenceContentAttention.weights (Decoder.energy Examples.decoder)
          Examples.padded_representation (T Examples.padded_source_mask) 0 [0; 0] t = 0).
Proof.
  apply (attention_weights_are_a_distribution_over_unmasked_positions
           (Decoder.energy Examples.decoder) Examples.padded_representation
           (T Examples.padded_source_mask) 0 [0; 0] 0).
  - intros t Ht. cbn -[Nat.ltb]. destruct (t <? 2)%nat; [right | left]; reflexivity.
  - simpl. lia.
  - reflexivity.
Defined.

(** Property X6.  In [generate] no source position is masked: for a representation with
    at least one position, every position, whether or not it is padding of
    the sampling batch, receives a positive attention weight at every step,
    and the weights of a batch item sum to 1. *)
Theorem generation_attends_to_every_position
    (self : Decoder.t) (representation : tensor3) (b : nat) (state : list R) :
  (1 <= dim0 representation)%nat ->
  let attended_mask := T (ones (dim1 representation) (dim0 representation)) in
  rsum (dim0 representation)
    (SequenceContentAttention.weights (Decoder.energy self) representation
       attended_mask b state) = 1
  /\ forall t, (t < dim0 representation)%nat ->
       0 < SequenceContentAttention.weights (Decoder.energy self) representation
             attended_mask b state t.
Proof.
  intros Hn attended_mask.
  destruct (compute_weights_distribution (dim0 representation)
              (SequenceContentAttention.compute_energies (Decoder.energy self)
                 representation b state)
              (fun t => item attended_mask t b)) as (Hsum & Hpos & _).
  - intros t _. right. reflexivity.
  - exists 0%nat. split; [lia | reflexivity].
  - split; [exact Hsum|]. intros t Ht. apply Hpos; [exact Ht | reflexivity].
Qed.

Lemma generation_attends_to_every_position_witness :
  rsum 3
    (SequenceContentAttention.weights (Decoder.energy Examples.decoder)
       Examples.padded_representation (T (ones 1 3)) 0 [0; 0]) = 1
  /\ forall t, (t < 3)%nat ->
       0 < SequenceContentAttention.weights (Decoder.energy Examples.decoder)
             Examples.padded_representation (T (ones 1 3)) 0 [0; 0] t.
Proof.
  apply (generation_attends_to_every_position Examples.decoder
           Examples.padded_representation 0 [0; 0]).
  simpl. lia.
Defined.

(** ** The training cost: what it reads and when it evaluates *)

Lemma glimpse_masked_positions (self : Decoder.t) (rep rep' : tensor3)
    (smask : matrix R) (b : nat) (s : list R) :
  dim0 rep' = dim0 rep -> dim2 rep' = dim2 rep ->
  (forall t, (t < dim0 rep)%nat -> item smask b t = 0 \/ item smask b t = 1) ->
  (forall t j, (t < dim0 rep)%nat -> (j < dim2 rep)%nat -> item smask b t <> 0 ->
     item3 rep' t b j = item3 rep t b j) ->
  Decoder.glimpse self rep' (T smask) b s = Decoder.glimpse self rep (T smask) b s.
Proof.
  intros Hd0 Hd2 Hbin Hagree.
  unfold Decoder.glimpse, SequenceContentAttention.take_glimpses,
    SequenceContentAttention.compute_weighted_averages,
    SequenceContentAttention.weights.
  rewrite Hd2, Hd0. apply map_ext_in. intros j Hj. apply in_seq in Hj.
  apply rsum_ext. intros t Ht.
  rewrite (compute_weights_masked_energies (dim0 rep)
             (SequenceContentAttention.compute_energies (Decoder.energy self) rep b s)
             _ (fun t => item (T smask) t b)).
  - destruct (Req_dec_T (item smask b t) 0) as [E|E].
    + rewrite (compute_weights_zero_where_masked (dim0 rep) _
                 (fun t => item (T smask) t b) t) by exact E.
      ring.
    + rewrite Hagree by (try assumption; lia). reflexivity.
  - intros i Hi. cbn [T item]. apply Hbin. exact Hi.
  - intros i Hi Hne. cbn [T item] in Hne.
    unfold SequenceContentAttention.compute_energies,
      SequenceContentAttention.attended_at. f_equal. rewrite Hd2.
    apply map_ext_in. intros f Hf. apply in_seq in Hf. apply Hagree; (assumption || lia).
  - exact Ht.
Qed.

Lemma initial_states_first_position (self : GRUInitialState.t) (rep rep' : tensor3)
    (ini : matrix R) :
  dim0 rep' = dim0 rep -> dim1 rep' = dim1 rep -> dim2 rep' = dim2 rep ->
  (forall b j, (b < dim1 rep)%nat -> (j < dim2 rep)%nat ->
     item3 rep' 0 b j = item3 rep 0 b j) ->
  GRUInitialState.initial_states self rep = Ok ini ->
  exists ini',
    GRUInitialState.initial_states self rep' = Ok ini'
    /\ forall b, (b < dim1 rep)%nat ->
         Decoder.matrix_row ini' b = Decoder.matrix_row ini b.
Proof.
  intros Hd0 Hd1 Hd2 Hagree H.
  rewrite initial_states_unfold in H. rewrite initial_states_unfold.
  rewrite Hd0, Hd1, Hd2. cbv zeta in *.
  destruct (dim0 rep =? 0)%nat; [discriminate|].
  destruct (_ =? GRUInitialState.attended_dim self)%nat eqn:Ew; [|discriminate].
  apply Nat.eqb_eq in Ew. injection H as <-.
  eexists. split; [reflexivity|].
  intros b Hb. unfold Decoder.matrix_row. cbn [shape1 item].
  apply map_ext_in. intros j _. f_equal. f_equal.
  apply rsum_ext. intros i Hi. rewrite Hagree by lia. reflexivity.
Qed.

(** Property X7.  With a 0/1 source mask, [Decoder.cost] does not read the representation
    at the masked-out source positions, except at position 0, which the
    initial state reads whatever the mask: a representation of the same
    shape that agrees at position 0 and at the unmasked positions gives the
    same cost. *)
Theorem cost_ignores_representation_at_masked_positions
    (self : Decoder.t) (rep rep' : tensor3) (smask : matrix R)
    (tgt : matrix Z) (tmask : matrix R) (c : R) :
  Padding.binary_mask smask ->
  dim0 rep' = dim0 rep -> dim1 rep' = dim1 rep -> dim2 rep' = dim2 rep ->
  (forall t b j, (t < dim0 rep)%nat -> (b < dim1 rep)%nat -> (j < dim2 rep)%nat ->
     t = 0%nat \/ item smask b t <> 0 ->
     item3 rep' t b j = item3 rep t b j) ->
  Decoder.cost self rep smask tgt tmask = Ok c ->
  Decoder.cost self rep' smask tgt tmask = Ok c.
Proof.
  intros Hbin Hd0 Hd1 Hd2 Hagree Hc.
  apply cost_Ok_cost_matrix in Hc. destruct Hc as (cm & Hcm & ->).
  pose proof (cost_matrix_Ok_dims _ _ _ _ _ _ Hcm) as Hdims.
  apply cost_matrix_Ok in Hcm.
  destruct Hcm as (fb & ini & ffb & Hfb & Hini & Hffb & Hs1 & Hs2 & ->).
  pose proof Hs1 as Hs1'. apply same_shape_eq in Hs1'. cbn [T shape0 shape1] in Hs1'.
  destruct Hs1' as [HsT HsB].
  pose proof Hs2 as Hs2'. unfold Decoder.shapes_agree in Hs2'. cbn [T shape0 shape1] in Hs2'.
  apply andb_true_iff in Hs2'. destruct Hs2' as [Hs2' HmB].
  apply andb_true_iff in Hs2'. destruct Hs2' as [HrB HmT].
  apply Nat.eqb_eq in HmB, HrB, HmT.
  destruct (initial_states_first_position (Decoder.transition self) rep rep' ini Hd0 Hd1 Hd2) as (ini' & Hini' & Hrows);
    [|exact Hini|].
  { intros b j Hb Hj. apply Hagree; try assumption; [|left; reflexivity].
    destruct (initial_states_pad (Decoder.transition self) rep rep 0 ini) as [Hn _];
      [|exact Hini|lia].
    repeat split; lia. }
  assert (Hcm' :
    Decoder.cost_matrix self (T tmask) (T tgt) rep' (T smask)
    = Ok (Mat (shape1 tgt) (shape0 tgt)
            (fun t b => Decoder.costs self rep' (T smask) (T tmask) (T tgt)
                          fb ffb ini' t b
                        * item (T tmask) t b))).
  { unfold Decoder.cost_matrix. rewrite Hfb, Hini'. cbn [bind T shape0 shape1] in *.
    rewrite Hffb. cbn [bind]. rewrite Hs1.
    unfold Decoder.shapes_agree in *. cbn [T shape0 shape1] in *.
    rewrite Hd0, Hd1. rewrite Hs2.
    replace (Decoder.dims_agree self rep') with true
      by (symmetry; unfold Decoder.dims_agree in *; rewrite Hd2; exact Hdims).
    reflexivity. }
  rewrite (cost_of_cost_matrix _ _ _ _ _ _ Hcm'). f_equal. f_equal.
  apply rsum_ext. intros t Ht. apply rsum_ext. intros b Hb.
  cbn [item T].
  rewrite (costs_pad self rep rep' (T smask) (T smask) (T tmask) (T tmask)
             (T tgt) (T tgt) fb fb ffb ini ini' (shape0 tgt) (shape1 tgt));
    try reflexivity; try lia.
  - intros b0 s Hb0. apply glimpse_masked_positions; try assumption.
    + intros t0 Ht0. apply Hbin; lia.
    + intros t0 j Ht0 Hj Hne. apply Hagree; try assumption; [lia | right; exact Hne].
  - intros b0 Hb0. apply Hrows. lia.
Qed.

Lemma cost_ignores_representation_at_masked_positions_witness :
  exists c,
    Decoder.cost Examples.decoder Examples.padded_representation
      Examples.padded_source_mask CostExamples.target CostExamples.target_mask = Ok c
    /\ Decoder.cost Examples.decoder CostExamples.representation_changed_where_masked
         Examples.padded_source_mask CostExamples.target CostExamples.target_mask = Ok c.
Proof.
  eexists. split; [reflexivity|].
  apply (cost_ignores_representation_at_masked_positions Examples.decoder
           Examples.padded_representation
           CostExamples.representation_changed_where_masked
           Examples.padded_source_mask CostExamples.target CostExamples.target_mask).
  - intros b t _ _. cbn -[Nat.ltb]. destruct (t <? 2)%nat; [right | left]; reflexivity.
  - reflexivity.
  - reflexivity.
  - reflexivity.
  - intros t b j Ht Hb Hj Hm. cbn -[Nat.ltb INR] in *.
    destruct (t <? 2)%nat eqn:E; [reflexivity|].
    destruct Hm as [-> | Hm]; [discriminate E | lra].
  - reflexivity.
Defined.

(** Property X8.  A batch with at least one item whose target mask is
    zero everywhere costs exactly 0, whenever its cost evaluates. *)
Theorem cost_of_fully_masked_targets_is_zero
    (self : Decoder.t) (rep : tensor3) (smask : matrix R)
    (tgt : matrix Z) (tmask : matrix R) (c : R) :
  (1 <= shape0 tmask)%nat ->
  (forall b t, (b < shape0 tmask)%nat -> (t < shape1 tmask)%nat ->
     item tmask b t = 0) ->
  Decoder.cost self rep smask tgt tmask = Ok c ->
  c = 0.
Proof.
  intros Hitems Hzero Hc.
  apply cost_Ok_cost_matrix in Hc. destruct Hc as (cm & _ & ->).
  assert (Hn : INR (shape0 tmask) <> 0) by (apply not_0_INR; lia).
  rewrite rsum_zero; [field; exact Hn|].
  intros t Ht. apply rsum_zero. intros b Hb. rewrite Hzero by assumption. ring.
Qed.

Lemma cost_of_fully_masked_targets_is_zero_witness :
  Decoder.cost Examples.decoder Examples.representation Examples.source_mask
    Examples.target CostExamples.empty_target_mask = Ok 0.
Proof.
  assert (H : exists c,
             Decoder.cost Examples.decoder Examples.representation Examples.source_mask
               Examples.target CostExamples.empty_target_mask = Ok c)
    by (eexists; reflexivity).
  destruct H as [c H]. rewrite H. f_equal.
  apply (cost_of_fully_masked_targets_is_zero Examples.decoder
           Examples.representation Examples.source_mask Examples.target
           CostExamples.empty_target_mask c).
  - cbn. lia.
  - intros b t _ _. reflexivity.
  - exact H.
Defined.

(** Property X9.  On a batch that is consistent otherwise, a target token at
    or beyond the vocabulary size makes [Decoder.cost] raise [IndexError],
    also where the target mask is 0: the padding of the targets must hold
    tokens of the vocabulary. *)
Theorem cost_raises_on_target_outside_vocabulary
    (self : Decoder.t) (rep : tensor3) (smask : matrix R)
    (tgt : matrix Z) (tmask : matrix R) (b t : nat) :
  (1 <= dim0 rep)%nat ->
  ((1 <= Decoder.state_dim self <= dim2 rep)%nat
   \/ (Decoder.state_dim self = 0 /\ dim2 rep = 0)%nat) ->
  same_shape tmask tgt = true ->
  dim1 rep = shape0 tgt -> shape0 smask = shape0 tgt -> shape1 smask = dim0 rep ->
  (b < shape0 tgt)%nat -> (t < shape1 tgt)%nat ->
  (Z.of_nat (Decoder.vocab_size self) <= item tgt b t)%Z ->
  Decoder.cost self rep smask tgt tmask = Raise IndexError.
Proof.
  intros _ _ _ _ _ _ Hb Ht Hbad. unfold Decoder.cost, Decoder.cost_matrix.
  rewrite (feedback_IndexError_at
             (Decoder.feedback_brick self) (T tgt) t b); [reflexivity|..].
  - reflexivity.
  - exact Ht.
  - exact Hb.
  - cbn [T item Decoder.feedback_brick LookupFeedbackWMT15.num_outputs]. lia.
Qed.

Lemma cost_raises_on_target_outside_vocabulary_witness :
  item CostExamples.target_mask 0 2 = 0
  /\ Decoder.cost Examples.decoder Examples.padded_representation
       Examples.padded_source_mask CostExamples.target_outside_vocabulary
       CostExamples.target_mask = Raise IndexError.
Proof.
  split; [reflexivity|].
  apply (cost_raises_on_target_outside_vocabulary Examples.decoder
           Examples.padded_representation Examples.padded_source_mask
           CostExamples.target_outside_vocabulary CostExamples.target_mask 0 2).
  - simpl. lia.
  - left. simpl. lia.
  - reflexivity.
  - reflexivity.
  - reflexivity.
  - reflexivity.
  - simpl. lia.
  - simpl. lia.
  - simpl. lia.
Defined.

(** Property X10.  For a decoder with at least one state feature and a
    batch with at least one item, targets of at least one position and no
    negative target token, [Decoder.cost] returns a value exactly when the
    batch is consistent: every target token is below the vocabulary size;
    the representation has a first position and exactly the
    [representation_dim] features the decoder is built for, at least
    [state_dim] of them; [state_dim] is even, as the readout's pairwise
    maximum needs; targets and target mask have one shape; the
    representation, the source mask and the targets agree on the batch
    size; and the source mask is as long as the representation. *)
Theorem cost_returns_a_value_iff_batch_is_consistent
    (self : Decoder.t) (rep : tensor3) (smask : matrix R)
    (tgt : matrix Z) (tmask : matrix R) :
  (1 <= Decoder.state_dim self)%nat ->
  (1 <= shape0 tgt)%nat -> (1 <= shape1 tgt)%nat ->
  (forall b t, (b < shape0 tgt)%nat -> (t < shape1 tgt)%nat ->
     (0 <= item tgt b t)%Z) ->
  (exists c, Decoder.cost self rep smask tgt tmask = Ok c)
  <-> ((forall b t, (b < shape0 tgt)%nat -> (t < shape1 tgt)%nat ->
          (item tgt b t < Z.of_nat (Decoder.vocab_size self))%Z)
       /\ (1 <= dim0 rep)%nat
       /\ dim2 rep = Decoder.representation_dim self
       /\ (Decoder.state_dim self <= dim2 rep)%nat
       /\ Nat.even (Decoder.state_dim self) = true
       /\ shape0 tmask = shape0 tgt /\ shape1 tmask = shape1 tgt
       /\ dim1 rep = shape0 tgt
       /\ shape0 smask = shape0 tgt /\ shape1 smask = dim0 rep).
Proof.
  intros Hstate HB HT Hpos. split.
  - intros (c & Hc).
    apply cost_Ok_cost_matrix in Hc. destruct Hc as (cm & Hcm & _).
    pose proof (cost_matrix_Ok_dims _ _ _ _ _ _ Hcm) as Hdims.
    apply dims_agree_eq in Hdims. destruct Hdims as [Hrd Heven].
    apply cost_matrix_Ok in Hcm.
    destruct Hcm as (fb & ini & ffb & Hfb & Hini & Hffb & Hs1 & Hs2 & _).
    apply same_shape_eq in Hs1. cbn [T shape0 shape1] in Hs1. destruct Hs1 as [HsT HsB].
    unfold Decoder.shapes_agree in Hs2. cbn [T shape0 shape1] in Hs2.
    apply andb_true_iff in Hs2. destruct Hs2 as [Hs2 HmB].
    apply andb_true_iff in Hs2. destruct Hs2 as [HrB HmT].
    apply Nat.eqb_eq in HmB, HrB, HmT.
    destruct (feedback_Ok_valid _ _ _ Hfb) as [_ Hvalid].
    cbn [T shape0 shape1 item] in Hvalid.
    rewrite initial_states_unfold in Hini. cbv zeta in Hini.
    cbn [Decoder.transition GRUInitialState.attended_dim] in Hini.
    destruct (dim0 rep =? 0)%nat eqn:E0; [discriminate|]. apply Nat.eqb_neq in E0.
    destruct (_ =? Decoder.state_dim self)%nat eqn:Ew; [|discriminate].
    apply Nat.eqb_eq in Ew. apply slice_width_cases in Ew.
    repeat split; try assumption; try lia.
    intros b t Hb Ht. specialize (Hvalid t b Ht Hb).
    apply valid_output_max in Hvalid. specialize (Hpos b t Hb Ht).
    cbn [Decoder.feedback_brick LookupFeedbackWMT15.num_outputs] in Hvalid. lia.
  - intros (Hvalid & Hn & Hrd & Hw & Heven & Ht0 & Ht1 & HrB & Hm0 & Hm1).
    apply cost_returns_a_value; try assumption; try lia.
    + specialize (Hvalid 0%nat 0%nat ltac:(lia) ltac:(lia)).
      specialize (Hpos 0%nat 0%nat ltac:(lia) ltac:(lia)). lia.
    + apply same_shape_eq. split; assumption.
Qed.

Lemma cost_returns_a_value_iff_batch_is_consistent_witness :
  exists c,
    Decoder.cost Examples.decoder Examples.representation Examples.source_mask
      Examples.target Examples.target_mask = Ok c.
Proof.
  apply (cost_returns_a_value_iff_batch_is_consistent Examples.decoder
           Examples.representation Examples.source_mask Examples.target
           Examples.target_mask).
  - cbn. lia.
  - cbn. lia.
  - cbn. lia.
  - intros b t Hb Ht. cbn. lia.
  - cbn. repeat split; try lia.
Defined.

(** ** Assembly: unsupported inputs, fusion, alignment *)

(** Property X11.  With an [input] other than "words", "audio" and "both", [create_model]
    raises [UnboundLocalError]: no representation is bound when the decoder
    is to be created. *)
Theorem create_model_rejects_other_inputs
    (create_word_encoder create_audio_encoder : Helpers.config -> Helpers.encoder)
    (new_decoder : Helpers.config -> Decoder.t)
    (decoder_brick : Helpers.config -> Helpers.brick)
    (config : Helpers.config) :
  Helpers.input config <> "words"%string ->
  Helpers.input config <> "audio"%string ->
  Helpers.input config <> "both"%string ->
  Helpers.create_model create_word_encoder create_audio_encoder new_decoder
    decoder_brick config = Raise UnboundLocalError.
Proof.
  intros Hw Ha Hb. unfold Helpers.create_model, Helpers.representations.
  apply String.eqb_neq in Hw, Ha, Hb. rewrite Hw, Ha, Hb. reflexivity.
Qed.

Lemma create_model_rejects_other_inputs_witness :
  Helpers.create_model (fun _ => Examples.words_encoder)
    (fun _ => Examples.audio_encoder) (fun _ => Examples.decoder)
    (fun _ => Examples.decoder_brick) AssemblyExamples.phones
  = Raise UnboundLocalError.
Proof.
  apply (create_model_rejects_other_inputs (fun _ => Examples.words_encoder)
           (fun _ => Examples.audio_encoder) (fun _ => Examples.decoder)
           (fun _ => Examples.decoder_brick) AssemblyExamples.phones);
    discriminate.
Defined.

Lemma same_shape3_eq (x y : tensor3) :
  same_shape3 x y = true <-> dim0 x = dim0 y /\ dim1 x = dim1 y /\ dim2 x = dim2 y.
Proof.
  unfold same_shape3. rewrite !andb_true_iff, !Nat.eqb_eq. tauto.
Qed.

(** Property X12.  [merge_representations] raises [ValueError] on word and audio
    representations of different shapes: nothing is broadcast or truncated. *)
Theorem merge_representations_rejects_different_shapes
    (words audio : Helpers.variable tensor3) (env : Helpers.inputs) (x y : tensor3) :
  words env = Ok x -> audio env = Ok y ->
  (dim0 x <> dim0 y \/ dim1 x <> dim1 y \/ dim2 x <> dim2 y) ->
  Helpers.merge_representations words audio env = Raise ValueError.
Proof.
  intros Hx Hy Hne. unfold Helpers.merge_representations.
  rewrite Hx, Hy. cbn [bind stack forallb].
  destruct (same_shape3 x y) eqn:E.
  - apply same_shape3_eq in E. exfalso. intuition congruence.
  - rewrite andb_false_r. reflexivity.
Qed.

Lemma merge_representations_rejects_different_shapes_witness :
  Helpers.merge_representations
    (Helpers.training_representation Examples.words_encoder)
    (Helpers.training_representation AssemblyExamples.longer_audio_encoder)
    Examples.graph_inputs = Raise ValueError.
Proof.
  apply (merge_representations_rejects_different_shapes
           (Helpers.training_representation Examples.words_encoder)
           (Helpers.training_representation AssemblyExamples.longer_audio_encoder)
           Examples.graph_inputs Examples.representation Examples.padded_representation).
  - reflexivity.
  - reflexivity.
  - left. simpl. lia.
Defined.

(** Property X13.  The fusion does not depend on the order of the two modalities, and no
    entry of the fused representation is below the entry of either
    modality. *)
Theorem merge_representations_is_symmetric_and_dominates
    (words audio : Helpers.variable tensor3) (env : Helpers.inputs) (x y : tensor3) :
  words env = Ok x -> audio env = Ok y -> same_shape3 x y = true ->
  exists fused fused',
    Helpers.merge_representations words audio env = Ok fused
    /\ Helpers.merge_representations audio words env = Ok fused'
    /\ dim0 fused' = dim0 fused /\ dim1 fused' = dim1 fused /\ dim2 fused' = dim2 fused
    /\ forall i j k,
         item3 fused' i j k = item3 fused i j k
         /\ item3 x i j k <= item3 fused i j k
         /\ item3 y i j k <= item3 fused i j k.
Proof.
  intros Hx Hy Hs. unfold Helpers.merge_representations.
  rewrite Hx, Hy. cbn [bind stack forallb].
  assert (Hxx : same_shape3 x x = true) by (apply same_shape3_eq; tauto).
  assert (Hyy : same_shape3 y y = true) by (apply same_shape3_eq; tauto).
  assert (Hyx : same_shape3 y x = true)
    by (apply same_shape3_eq; apply same_shape3_eq in Hs; intuition congruence).
  rewrite Hxx, Hyy, Hs, Hyx. cbn.
  apply same_shape3_eq in Hs. destruct Hs as (H0 & H1 & H2).
  eexists. eexists. split; [reflexivity|]. split; [reflexivity|]. cbn.
  repeat split; try congruence.
  - apply Rmax_comm.
  - apply Rmax_l.
  - apply Rmax_r.
Qed.

Lemma merge_representations_is_symmetric_and_dominates_witness :
  exists fused fused',
    Helpers.merge_representations
      (Helpers.training_representation Examples.words_encoder)
      (Helpers.training_representation Examples.audio_encoder)
      Examples.graph_inputs = Ok fused
    /\ Helpers.merge_representations
         (Helpers.training_representation Examples.audio_encoder)
         (Helpers.training_representation Examples.words_encoder)
         Examples.graph_inputs = Ok fused'
    /\ dim0 fused' = dim0 fused /\ dim1 fused' = dim1 fused /\ dim2 fused' = dim2 fused
    /\ forall i j k,
         item3 fused' i j k = item3 fused i j k
         /\ INR (i + k) <= item3 fused i j k
         /\ INR (2 * i + k) <= item3 fused i j k.
Proof.
  apply (merge_representations_is_symmetric_and_dominates
           (Helpers.training_representation Examples.words_encoder)
           (Helpers.training_representation Examples.audio_encoder)
           Examples.graph_inputs Examples.representation
           (Ten3 2 1 2 (fun t _ j => INR (2 * t + j)))); reflexivity.
Defined.

Lemma use_decoder_cost_Ok (decoder : Decoder.t)
    (training_representation sampling_representation : Helpers.variable tensor3)
    (env : Helpers.inputs) (c : R) :
  fst (fst (Helpers.use_decoder_on_representations decoder
              training_representation sampling_representation)) env = Ok c ->
  exists representation marks_mask,
    training_representation env = Ok representation
    /\ env !! "punctuation_marks_mask"%string = Some (Helpers.FloatMatrix marks_mask)
    /\ dim0 representation = shape1 marks_mask
    /\ dim1 representation = shape0 marks_mask.
Proof.
  cbn [Helpers.use_decoder_on_representations fst]. intros H.
  apply bind_Ok in H. destruct H as (rep & Hrep & H).
  apply bind_Ok in H. destruct H as (marks & Hmarks & H).
  apply bind_Ok in H. destruct H as (mask & Hmask & H).
  unfold Helpers.matrix_ in Hmask.
  destruct (env !! "punctuation_marks_mask"%string) as [[|m'|]|] eqn:E2; try discriminate.
  injection Hmask as ->.
  apply cost_Ok_cost_matrix in H. destruct H as (cm & Hcm & _).
  apply cost_matrix_Ok in Hcm.
  destruct Hcm as (_ & _ & _ & _ & _ & _ & Hs1 & Hs2 & _).
  apply same_shape_eq in Hs1. cbn [T shape0 shape1] in Hs1.
  unfold Decoder.shapes_agree in Hs2. cbn [T shape0 shape1] in Hs2.
  apply andb_true_iff in Hs2. destruct Hs2 as [Hs2 HmB].
  apply andb_true_iff in Hs2. destruct Hs2 as [HrB HmT].
  apply Nat.eqb_eq in HmB, HrB, HmT.
  exists rep, mask. repeat split; try assumption; lia.
Qed.

(** Property X14.  The multitask cost evaluates only when the word representation and the
    audio representation have the same number of positions and the same
    batch size, both equal to those of the punctuation-marks mask: the two
    encoders must be aligned position by position with the targets. *)
Theorem multitask_cost_needs_aligned_representations
    (create_word_encoder create_audio_encoder : Helpers.config -> Helpers.encoder)
    (new_decoder : Helpers.config -> Decoder.t)
    (decoder_brick : Helpers.config -> Helpers.brick)
    (config : Helpers.config) (env : Helpers.inputs) (c : R) :
  fst (fst (snd (Helpers.create_multitask_model create_word_encoder
                   create_audio_encoder new_decoder decoder_brick config))) env = Ok c ->
  exists words audio marks_mask,
    Helpers.training_representation (create_word_encoder config) env = Ok words
    /\ Helpers.training_representation (create_audio_encoder config) env = Ok audio
    /\ env !! "punctuation_marks_mask"%string = Some (Helpers.FloatMatrix marks_mask)
    /\ dim0 words = shape1 marks_mask /\ dim0 audio = shape1 marks_mask
    /\ dim1 words = shape0 marks_mask /\ dim1 audio = shape0 marks_mask.
Proof.
  cbv beta iota zeta delta
    [Helpers.create_multitask_model Helpers.create_decoder fst snd Helpers.add].
  intros H.
  apply bind_Ok in H. destruct H as (wa & Hwa & H).
  apply bind_Ok in H. destruct H as (a & Ha & _).
  apply bind_Ok in Hwa. destruct Hwa as (w & Hw & _).
  apply (use_decoder_cost_Ok (new_decoder config)
           (Helpers.training_representation (create_word_encoder config))
           (Helpers.sampling_representation (create_word_encoder config))) in Hw.
  destruct Hw as (words & m & Hwords & Hm & Hw0 & Hw1).
  apply (use_decoder_cost_Ok (new_decoder config)
           (Helpers.training_representation (create_audio_encoder config))
           (Helpers.sampling_representation (create_audio_encoder config))) in Ha.
  destruct Ha as (audio & m' & Haudio & Hm' & Ha0 & Ha1).
  rewrite Hm in Hm'. injection Hm' as <-.
  exists words, audio, m. repeat split; assumption.
Qed.

Lemma multitask_cost_needs_aligned_representations_witness :
  exists c words audio marks_mask,
    fst (fst (snd (Helpers.create_multitask_model
                     (fun _ => Examples.words_encoder)
                     (fun _ => Examples.audio_encoder)
                     (fun _ => Examples.decoder)
                     (fun _ => Examples.decoder_brick) Examples.both)))
      Examples.graph_inputs = Ok c
    /\ Helpers.training_representation Examples.words_encoder Examples.graph_inputs
       = Ok words
    /\ Helpers.training_representation Examples.audio_encoder Examples.graph_inputs
       = Ok audio
    /\ Examples.graph_inputs !! "punctuation_marks_mask"%string
       = Some (Helpers.FloatMatrix marks_mask)
    /\ dim0 words = shape1 marks_mask /\ dim0 audio = shape1 marks_mask
    /\ dim1 words = shape0 marks_mask /\ dim1 audio = shape0 marks_mask.
Proof.
  eexists.
  assert (H : fst (fst (snd (Helpers.create_multitask_model
                     (fun _ => Examples.words_encoder)
                     (fun _ => Examples.audio_encoder)
                     (fun _ => Examples.decoder)
                     (fun _ => Examples.decoder_brick) Examples.both)))
                Examples.graph_inputs = Ok _) by reflexivity.
  destruct (multitask_cost_needs_aligned_representations _ _ _ _ _ _ _ H)
    as (words & audio & m & Hrest).
  exists words, audio, m. split; [exact H | exact Hrest].
Defined.

(** ** Parameter totals over several bricks *)

Lemma reported_total_print (models : list Helpers.brick) :
  Helpers.reported_total (Helpers.print_parameteters models)
  = Some (Helpers.count_parameters
            (Helpers.merge (map Helpers.get_parameters models))).
Proof.
  unfold Helpers.print_parameteters. cbn [app Helpers.reported_total].
  apply reported_total_lines.
Qed.

Lemma count_parameters_subseteq (m1 m2 : gmap string (list nat)) :
  m1 ⊆ m2 -> (Helpers.count_parameters m1 <= Helpers.count_parameters m2)%nat.
Proof.
  intros Hsub. rewrite <- (map_difference_union m1 m2 Hsub).
  rewrite count_parameters_disj_union
    by (apply map_disjoint_difference_r1; reflexivity).
  lia.
Qed.

Lemma count_parameters_union_le (d acc : gmap string (list nat)) :
  (Helpers.count_parameters (d ∪ acc)
   <= Helpers.count_parameters acc + Helpers.count_parameters d)%nat.
Proof.
  rewrite (union_difference_r d acc).
  rewrite count_parameters_disj_union
    by (apply map_disjoint_difference_r1; reflexivity).
  pose proof (count_parameters_subseteq (acc ∖ d) acc
                (map_subseteq_difference_l acc d acc (reflexivity acc))).
  lia.
Qed.

Lemma count_foldl_disjoint (dicts : list (gmap string (list nat))) :
  forall acc,
    Forall (fun d => d ##ₘ acc) dicts ->
    ForallOrdPairs (fun a b => a ##ₘ b) dicts ->
    Helpers.count_parameters (foldl (fun acc d => d ∪ acc) acc dicts)
    = (Helpers.count_parameters acc
       + sum_list (map Helpers.count_parameters dicts))%nat.
Proof.
  induction dicts as [|d dicts IH]; intros acc Hacc Hpairs; cbn [foldl map sum_list sum_list_with].
  - lia.
  - inversion Hacc as [|? ? Hd Hrest]; subst.
    inversion Hpairs as [|? ? Hdr Hpairs']; subst.
    rewrite IH.
    + rewrite count_parameters_disj_union by exact Hd.
      generalize (sum_list_with Datatypes.id (map Helpers.count_parameters dicts)).
      intros n. unfold Datatypes.id. lia.
    + rewrite List.Forall_forall in Hrest, Hdr. apply List.Forall_forall.
      intros r Hr. apply map_disjoint_union_r. split.
      * symmetry. apply Hdr. exact Hr.
      * apply Hrest. exact Hr.
    + exact Hpairs'.
Qed.

Lemma count_foldl_le (dicts : list (gmap string (list nat))) :
  forall acc,
    (Helpers.count_parameters (foldl (fun acc d => d ∪ acc) acc dicts)
     <= Helpers.count_parameters acc
        + sum_list (map Helpers.count_parameters dicts))%nat.
Proof.
  induction dicts as [|d dicts IH]; intros acc; cbn [foldl map sum_list sum_list_with].
  - lia.
  - specialize (IH (d ∪ acc)). pose proof (count_parameters_union_le d acc) as Hle.
    revert IH Hle.
    generalize (sum_list_with Datatypes.id (map Helpers.count_parameters dicts)).
    intros n IH Hle. unfold Datatypes.id. lia.
Qed.

Lemma count_parameters_empty : Helpers.count_parameters ∅ = 0%nat.
Proof. unfold Helpers.count_parameters. apply map_fold_empty. Qed.

(** Property X15.  When no two bricks share a parameter name, the reported total is the
    sum of the bricks' own parameter counts. *)
Theorem reported_total_of_disjoint_bricks_is_the_sum
    (models : list Helpers.brick) :
  ForallOrdPairs
    (fun a b => Helpers.get_parameters a ##ₘ Helpers.get_parameters b) models ->
  Helpers.reported_total (Helpers.print_parameteters models)
  = Some (sum_list
            (map (fun m => Helpers.count_parameters (Helpers.get_parameters m)) models)).
Proof.
  intros Hpairs. rewrite reported_total_print. f_equal. unfold Helpers.merge.
  rewrite count_foldl_disjoint.
  - rewrite count_parameters_empty, map_map. reflexivity.
  - apply List.Forall_forall. intros d _. apply map_disjoint_empty_r.
  - clear -Hpairs. induction Hpairs as [|a l Ha Hl IH]; cbn [map]; constructor.
    + rewrite List.Forall_forall in Ha. apply List.Forall_forall.
      intros d Hd. apply in_map_iff in Hd. destruct Hd as (b & <- & Hb). auto.
    + exact IH.
Qed.

Ltac disjoint_names :=
  cbn [Helpers.get_parameters Helpers.encoder_brick];
  apply map_disjoint_dom;
  rewrite ?dom_insert_L, ?dom_singleton_L;
  let x := fresh "x" in
  let Hx := fresh "Hx" in
  let Hy := fresh "Hy" in
  apply elem_of_disjoint; intros x Hx Hy;
  repeat (apply elem_of_union in Hx; destruct Hx as [Hx|Hx]);
  apply elem_of_singleton in Hx;
  repeat (apply elem_of_union in Hy; destruct Hy as [Hy|Hy]);
  apply elem_of_singleton in Hy;
  rewrite Hx in Hy; discriminate.

Lemma reported_total_of_disjoint_bricks_is_the_sum_witness :
  Helpers.reported_total
    (Helpers.print_parameteters
       [Helpers.encoder_brick Examples.words_encoder;
        Helpers.encoder_brick Examples.audio_encoder; Examples.decoder_brick])
  = Some (5 * 3 + (4 * 3 + 3) + (2 * 1 + 1 * 1))%nat.
Proof.
  rewrite (reported_total_of_disjoint_bricks_is_the_sum
             [Helpers.encoder_brick Examples.words_encoder;
              Helpers.encoder_brick Examples.audio_encoder; Examples.decoder_brick]).
  - vm_compute. reflexivity.
  - unfold Examples.words_encoder, Examples.audio_encoder, Examples.decoder_brick.
    cbn [Helpers.get_parameters Helpers.encoder_brick].
    repeat first
      [ apply FOP_nil | apply List.Forall_nil
      | apply FOP_cons | apply List.Forall_cons
      | disjoint_names ].
Defined.

(** Property X16.  The reported total never exceeds the sum of the bricks'
    own counts, and where bricks hold a parameter under one name, the
    merged dictionary keeps the shape of the last brick of the list that
    holds that name. *)
Theorem reported_total_at_most_the_sum_later_name_wins
    (models : list Helpers.brick) :
  (exists n,
      Helpers.reported_total (Helpers.print_parameteters models) = Some n
      /\ (n <= sum_list
                 (map (fun m => Helpers.count_parameters (Helpers.get_parameters m))
                    models))%nat)
  /\ forall (before after : list Helpers.brick) (last : Helpers.brick)
            (name : string) (shape : list nat),
       models = before ++ last :: after ->
       Helpers.get_parameters last !! name = Some shape ->
       Forall (fun m => Helpers.get_parameters m !! name = None) after ->
       Helpers.merge (map Helpers.get_parameters models) !! name = Some shape.
Proof.
  split.
  - eexists. split; [apply reported_total_print|].
    unfold Helpers.merge.
    pose proof (count_foldl_le (map Helpers.get_parameters models) ∅) as H.
    rewrite count_parameters_empty, map_map in H. exact H.
  - intros before after last name shape -> Hlast.
    induction after as [|m after IH] using rev_ind; intros Hafter.
    + rewrite map_app. cbn [map]. rewrite merge_snoc.
      apply lookup_union_Some_l. exact Hlast.
    + apply Forall_app in Hafter. destruct Hafter as [Hafter Hm].
      inversion Hm as [|? ? Hnone _]; subst.
      replace (before ++ last :: after ++ [m]) with ((before ++ last :: after) ++ [m])
        by (rewrite <- app_assoc; reflexivity).
      rewrite map_app. cbn [map]. rewrite merge_snoc.
      rewrite lookup_union_r by exact Hnone. apply IH. exact Hafter.
Qed.

(** ** Vocabulary sizes of the main block *)

Lemma fold_max_spec (v : Z) (values : list Z) :
  (forall x, In x (v :: values) -> (x <= fold_right Z.max v values)%Z)
  /\ In (fold_right Z.max v values) (v :: values).
Proof.
  induction values as [|a values [IHle IHin]]; cbn [fold_right].
  - split; [intros x [Hx | []]; lia | left; reflexivity].
  - split.
    + intros x [Hx | [Hx | Hin]].
      * specialize (IHle x (or_introl Hx)). lia.
      * lia.
      * specialize (IHle x (or_intror Hin)). lia.
    + destruct (Z.max_spec a (fold_right Z.max v values)) as [[_ ->] | [_ ->]].
      * destruct IHin as [<- | Hin]; [left; reflexivity | right; right; exact Hin].
      * right. left. reflexivity.
Qed.

Lemma in_values (vocab : gmap string Z) (i : Z) :
  In i (map snd (map_to_list vocab)) <-> exists w, vocab !! w = Some i.
Proof.
  rewrite in_map_iff. split.
  - intros ([w x] & <- & Hin). apply list_elem_of_In, elem_of_map_to_list in Hin. eauto.
  - intros (w & Hw). exists (w, i). split; [reflexivity|].
    apply list_elem_of_In, elem_of_map_to_list. exact Hw.
Qed.

Lemma max_value_Return (vocab : gmap string Z) (m : Z) :
  Main.max_value vocab = Main.Return m ->
  (forall w i, vocab !! w = Some i -> (i <= m)%Z)
  /\ exists w, vocab !! w = Some m.
Proof.
  unfold Main.max_value. intros H.
  destruct (map snd (map_to_list vocab)) as [|v values] eqn:E; [discriminate|].
  injection H as <-. destruct (fold_max_spec v values) as [Hle Hin].
  rewrite <- E in Hle, Hin. split.
  - intros w i Hw. apply Hle. apply in_values. eauto.
  - apply in_values. exact Hin.
Qed.

Lemma max_value_Raised (vocab : gmap string Z) :
  (vocab = ∅ -> Main.max_value vocab = Main.Raised Main.EmptyMax)
  /\ (vocab <> ∅ -> exists m, Main.max_value vocab = Main.Return m).
Proof.
  unfold Main.max_value. split.
  - intros ->. rewrite map_to_list_empty. reflexivity.
  - intros Hne. destruct (map_to_list vocab) as [|p l] eqn:E.
    + apply map_to_list_empty_iff in E. contradiction.
    + cbn [map]. eexists. reflexivity.
Qed.

(** Property X17.  When the main block completes, every index of a vocabulary is below the
    vocabulary size computed for it, the size is tight (some word has the
    index [size - 1]), and each end-of-sentence index is the entry of
    ["</s>"] and so below the size. *)
Theorem vocabulary_sizes_bound_every_index
    (src_vocab trg_vocab : gmap string Z) (e : Main.entries) :
  Main.configure src_vocab trg_vocab = Main.Return e ->
  (forall w i, src_vocab !! w = Some i -> (i < Main.src_vocab_size e)%Z)
  /\ (exists w, src_vocab !! w = Some (Main.src_vocab_size e - 1)%Z)
  /\ (forall w i, trg_vocab !! w = Some i -> (i < Main.trg_vocab_size e)%Z)
  /\ (exists w, trg_vocab !! w = Some (Main.trg_vocab_size e - 1)%Z)
  /\ src_vocab !! "</s>"%string = Some (Main.src_eos_idx e)
  /\ trg_vocab !! "</s>"%string = Some (Main.trg_eos_idx e)
  /\ (Main.src_eos_idx e < Main.src_vocab_size e)%Z
  /\ (Main.trg_eos_idx e < Main.trg_vocab_size e)%Z.
Proof.
  unfold Main.configure, Main.getitem. intros H.
  destruct (Main.max_value src_vocab) as [ms|] eqn:Es; [|discriminate].
  destruct (Main.max_value trg_vocab) as [mt|] eqn:Et; [|discriminate].
  destruct (src_vocab !! "</s>"%string) as [es|] eqn:Ees; [|discriminate].
  destruct (trg_vocab !! "</s>"%string) as [et|] eqn:Eet; [|discriminate].
  injection H as <-. cbn.
  destruct (max_value_Return _ _ Es) as [Hsle (ws & Hws)].
  destruct (max_value_Return _ _ Et) as [Htle (wt & Hwt)].
  repeat split.
  - intros w i Hw. specialize (Hsle w i Hw). lia.
  - exists ws. rewrite Hws. f_equal. lia.
  - intros w i Hw. specialize (Htle w i Hw). lia.
  - exists wt. rewrite Hwt. f_equal. lia.
  - specialize (Hsle _ _ Ees). lia.
  - specialize (Htle _ _ Eet). lia.
Qed.

Lemma vocabulary_sizes_bound_every_index_witness :
  exists e,
    Main.configure MainExamples.src_vocab MainExamples.trg_vocab = Main.Return e
    /\ Main.src_vocab_size e = 3%Z /\ Main.trg_vocab_size e = 2%Z
    /\ (forall w i, MainExamples.trg_vocab !! w = Some i -> (i < Main.trg_vocab_size e)%Z).
Proof.
  assert (H : Main.configure MainExamples.src_vocab MainExamples.trg_vocab
              = Main.Return {| Main.src_vocab_size := 3; Main.trg_vocab_size := 2;
                               Main.src_eos_idx := 0; Main.trg_eos_idx := 0 |})
    by (vm_compute; reflexivity).
  eexists. split; [exact H|]. split; [reflexivity|]. split; [reflexivity|].
  destruct (vocabulary_sizes_bound_every_index _ _ _ H) as (_ & _ & Ht & _).
  exact Ht.
Defined.

Ltac settle_outcome :=
  repeat match goal with
    | H : exists _, _ |- _ => destruct H
    | H : _ /\ _ |- _ => destruct H
    | H : is_Some _ |- _ => destruct H
    | H : _ \/ _ |- _ => destruct H
    | H : Main.Return _ = Main.Return _ |- _ => injection H as H
    | H : Main.Raised _ = Main.Raised _ |- _ => injection H as H
    | H : Main.KeyError _ = Main.KeyError _ |- _ => injection H as H
    end;
  subst; try discriminate; try contradiction; try congruence;
  try (eexists; reflexivity);
  repeat split; try (eexists; reflexivity); try reflexivity; try congruence; auto.

(** Property X18.  The main block completes exactly when both vocabularies hold ["</s>"];
    it raises the [ValueError] of [max] on an empty sequence exactly when a
    vocabulary is empty, and [KeyError] for ["</s>"], and for no other key,
    exactly when both are non-empty and one lacks ["</s>"]. *)
Theorem main_block_failure_cases (src_vocab trg_vocab : gmap string Z) :
  ((exists e, Main.configure src_vocab trg_vocab = Main.Return e)
   <-> is_Some (src_vocab !! "</s>"%string) /\ is_Some (trg_vocab !! "</s>"%string))
  /\ (Main.configure src_vocab trg_vocab = Main.Raised Main.EmptyMax
      <-> src_vocab = ∅ \/ trg_vocab = ∅)
  /\ (forall key,
        Main.configure src_vocab trg_vocab = Main.Raised (Main.KeyError key)
        <-> key = "</s>"%string /\ src_vocab <> ∅ /\ trg_vocab <> ∅
            /\ (src_vocab !! "</s>"%string = None \/ trg_vocab !! "</s>"%string = None)).
Proof.
  unfold Main.configure, Main.getitem.
  destruct (max_value_Raised src_vocab) as [Hse Hsn].
  destruct (max_value_Raised trg_vocab) as [Hte Htn].
  destruct (decide (src_vocab = ∅)) as [Es|Es].
  { rewrite (Hse Es). clear Hse Hsn Hte Htn. subst src_vocab. rewrite lookup_empty.
    split; [|split; [|intros key]]; split; intros H; settle_outcome. }
  destruct (Hsn Es) as [ms ->].
  destruct (decide (trg_vocab = ∅)) as [Et|Et].
  { rewrite (Hte Et). clear Hse Hsn Hte Htn. subst trg_vocab. rewrite lookup_empty.
    split; [|split; [|intros key]]; split; intros H; settle_outcome. }
  destruct (Htn Et) as [mt ->]. clear Hse Hsn Hte Htn.
  destruct (src_vocab !! "</s>"%string) as [es|] eqn:Ees;
    destruct (trg_vocab !! "</s>"%string) as [et|] eqn:Eet;
    (split; [|split; [|intros key]]; split; intros H; settle_outcome).
Qed.

(** Property X19.  A decoder built with the target vocabulary size of the main block
    accepts every mark of the target vocabulary as feedback, provided the
    indices of the vocabulary are not negative: [feedback] raises nothing on
    outputs drawn from it. *)
Theorem target_vocabulary_marks_are_valid_feedback
    (src_vocab trg_vocab : gmap string Z) (e : Main.entries)
    (self : Decoder.t) (outputs : matrix Z) :
  Main.configure src_vocab trg_vocab = Main.Return e ->
  (forall w i, trg_vocab !! w = Some i -> (0 <= i)%Z) ->
  Decoder.vocab_size self = Z.to_nat (Main.trg_vocab_size e) ->
  (forall t b, (t < shape0 outputs)%nat -> (b < shape1 outputs)%nat ->
     exists w, trg_vocab !! w = Some (item outputs t b)) ->
  (0 < Decoder.vocab_size self)%nat
  /\ exists fb,
       LookupFeedbackWMT15.feedback (Decoder.feedback_brick self) outputs = Ok fb
       /\ forall t b, (t < shape0 outputs)%nat -> (b < shape1 outputs)%nat ->
            item fb t b
            = row (LookupFeedbackWMT15.lookup (Decoder.feedback_brick self))
                (Z.to_nat (item outputs t b)).
Proof.
  intros Hconf Hnonneg Hsize Hmarks.
  unfold Main.configure, Main.getitem in Hconf.
  destruct (Main.max_value src_vocab) as [ms|] eqn:Es; [|discriminate].
  destruct (Main.max_value trg_vocab) as [mt|] eqn:Et; [|discriminate].
  destruct (src_vocab !! "</s>"%string) as [es|] eqn:Ees; [|discriminate].
  destruct (trg_vocab !! "</s>"%string) as [et|] eqn:Eet; [|discriminate].
  injection Hconf as <-. cbn in Hsize.
  destruct (max_value_Return _ _ Et) as [Hle (wt & Hwt)].
  pose proof (Hnonneg _ _ Hwt) as Hmt.
  split; [lia|].
  destruct (feedback_spec (Decoder.feedback_brick self) outputs eq_refl)
    as (fb & Hfb & _ & _ & Hitems).
  - intros t b Ht Hb. destruct (Hmarks t b Ht Hb) as (w & Hw).
    pose proof (Hle _ _ Hw). pose proof (Hnonneg _ _ Hw).
    apply valid_output_max.
    cbn [Decoder.feedback_brick LookupFeedbackWMT15.num_outputs]. lia.
  - exists fb. split; [exact Hfb|]. intros t b Ht Hb.
    rewrite Hitems by assumption. unfold LookupFeedbackWMT15.embedding.
    destruct (Hmarks t b Ht Hb) as (w & Hw). pose proof (Hnonneg _ _ Hw).
    replace (item outputs t b <? 0)%Z with false by (symmetry; apply Z.ltb_ge; lia).
    reflexivity.
Qed.

Lemma target_vocabulary_marks_are_valid_feedback_witness :
  exists fb,
    LookupFeedbackWMT15.feedback (Decoder.feedback_brick Examples.decoder)
      MainExamples.marks = Ok fb.
Proof.
  destruct (target_vocabulary_marks_are_valid_feedback
              MainExamples.src_vocab MainExamples.trg_vocab
              {| Main.src_vocab_size := 3; Main.trg_vocab_size := 2;
                 Main.src_eos_idx := 0; Main.trg_eos_idx := 0 |}
              Examples.decoder MainExamples.marks)
    as (_ & fb & Hfb & _).
  - vm_compute. reflexivity.
  - intros w i Hw. unfold MainExamples.trg_vocab in Hw.
    apply lookup_insert_Some in Hw. destruct Hw as [[_ <-] | [_ Hw]]; [lia|].
    apply lookup_singleton_Some in Hw. destruct Hw as [_ <-]. lia.
  - reflexivity.
  - intros t b Ht Hb. cbn in Ht, Hb. cbn [MainExamples.marks item].
    destruct t as [|[|t]]; [exists "</s>"%string | exists "."%string | lia];
      vm_compute; reflexivity.
  - exists fb. exact Hfb.
Defined.

(** ** The recurrent passes of the encoders *)

Lemma masked_update_zero (next state : list R) :
  List.length next = List.length state ->
  Decoder.masked_update 0 next state = state.
Proof.
  unfold Decoder.masked_update. revert next.
  induction state as [|s state IH]; intros [|n next] H; try discriminate; [reflexivity|].
  cbn [zip_with]. rewrite IH by (cbn in H; lia). f_equal. ring.
Qed.

Lemma masked_update_length (m : R) (next state : list R) :
  List.length next = List.length state ->
  List.length (Decoder.masked_update m next state) = List.length state.
Proof.
  unfold Decoder.masked_update. revert next.
  induction state as [|s state IH]; intros [|n next] H; try discriminate; [reflexivity|].
  cbn [zip_with List.length]. rewrite IH by (cbn in H; lia). reflexivity.
Qed.

Lemma last_cons_default {A} (l : list A) :
  forall a d, List.last (a :: l) d = List.last l a.
Proof.
  induction l as [|b l IH]; intros a d; [reflexivity|].
  change (List.last (a :: b :: l) d) with (List.last (b :: l) d).
  rewrite !IH. reflexivity.
Qed.

Section ScanFacts.
Variable self : GatedRecurrent.t.

Lemma scan_length (inputs : list (list R * list R)) :
  forall state mask,
    List.length mask = List.length inputs ->
    List.length (GatedRecurrent.scan self state inputs mask) = List.length inputs.
Proof.
  induction inputs as [|x inputs IH]; intros state [|m mask] H; try discriminate;
    [reflexivity|].
  cbn [GatedRecurrent.scan List.length]. rewrite IH by (cbn in H; lia). reflexivity.
Qed.

Lemma scan_app (inputs inputs' : list (list R * list R)) :
  forall state mask mask',
    List.length mask = List.length inputs ->
    GatedRecurrent.scan self state (inputs ++ inputs') (mask ++ mask')
    = GatedRecurrent.scan self state inputs mask
      ++ GatedRecurrent.scan self
           (List.last (GatedRecurrent.scan self state inputs mask) state) inputs' mask'.
Proof.
  induction inputs as [|x inputs IH]; intros state [|m mask] mask' H; try discriminate;
    [reflexivity|].
  cbn [GatedRecurrent.scan app]. rewrite IH by (cbn in H; lia).
  f_equal. f_equal. f_equal. symmetry. apply last_cons_default.
Qed.

Hypothesis well_formed : GatedRecurrent.well_formed self.

Lemma scan_masked_out (inputs : list (list R * list R)) (state : list R) :
  List.length state = GatedRecurrent.dim self ->
  GatedRecurrent.scan self state inputs (repeat 0 (List.length inputs))
  = repeat state (List.length inputs).
Proof.
  intros Hs. induction inputs as [|x inputs IH]; [reflexivity|].
  cbn [List.length repeat GatedRecurrent.scan].
  rewrite masked_update_zero
    by (rewrite (proj2 well_formed) by exact Hs; symmetry; exact Hs).
  rewrite IH. reflexivity.
Qed.

Lemma scan_state_lengths (inputs : list (list R * list R)) :
  forall state mask,
    List.length state = GatedRecurrent.dim self ->
    Forall (fun s => List.length s = GatedRecurrent.dim self)
      (GatedRecurrent.scan self state inputs mask).
Proof.
  induction inputs as [|x inputs IH]; intros state [|m mask] Hs;
    cbn [GatedRecurrent.scan]; try constructor.
  - rewrite masked_update_length; [exact Hs|].
    rewrite (proj2 well_formed) by exact Hs. symmetry. exact Hs.
  - apply IH. rewrite masked_update_length; [exact Hs|].
    rewrite (proj2 well_formed) by exact Hs. symmetry. exact Hs.
Qed.
End ScanFacts.

Lemma zip_with_repeat {A B C} (f : A -> B -> C) (a : A) (b : B) (n : nat) :
  zip_with f (repeat a n) (repeat b n) = repeat (f a b) n.
Proof. induction n as [|n IH]; [reflexivity | cbn; rewrite IH; reflexivity]. Qed.

Lemma last_repeat {A} (a : A) (n : nat) : List.last (repeat a n) a = a.
Proof.
  induction n as [|n IH]; [reflexivity|].
  cbn [repeat]. rewrite last_cons_default. destruct n; [reflexivity|].
  cbn [repeat] in *. rewrite last_cons_default in IH.
  rewrite last_cons_default. exact IH.
Qed.

Lemma last_nth {A} (l : list A) (d : A) :
  List.last l d = nth (List.length l - 1) l d.
Proof.
  induction l as [|a l IH]; [reflexivity|].
  destruct l as [|b l]; [reflexivity|].
  change (List.last (a :: b :: l) d) with (List.last (b :: l) d).
  rewrite IH.
  replace (List.length (a :: b :: l) - 1)%nat with (S (List.length (b :: l) - 1))
    by (cbn [List.length]; lia).
  reflexivity.
Qed.

Lemma bidirectional_apply_length (self : BidirectionalWMT15.t)
    (xs ys : list (list R * list R)) (mask : list R) :
  List.length ys = List.length xs -> List.length mask = List.length xs ->
  List.length (BidirectionalWMT15.apply self xs ys mask mask) = List.length xs.
Proof.
  intros Hy Hm. unfold BidirectionalWMT15.apply, GatedRecurrent.apply.
  rewrite length_zip_with, length_rev, !scan_length;
    rewrite ?length_rev; lia.
Qed.

(** One batch item whose mask keeps its first [L] positions only: the
    states of the kept positions are those of the unpadded sequence; at
    the padded positions the backward state is the backward initial
    state. *)
Lemma bidirectional_apply_padded (self : BidirectionalWMT15.t)
    (xs1 xs2 ys1 ys2 : list (list R * list R)) (L k : nat) :
  GatedRecurrent.well_formed (BidirectionalWMT15.backward self) ->
  List.length xs1 = L -> List.length ys1 = L ->
  List.length xs2 = k -> List.length ys2 = k ->
  let mask := repeat 1 L ++ repeat 0 k in
  BidirectionalWMT15.apply self (xs1 ++ xs2) (ys1 ++ ys2) mask mask
  = BidirectionalWMT15.apply self xs1 ys1 (repeat 1 L) (repeat 1 L)
    ++ zip_with (fun f b => f ++ b)
         (GatedRecurrent.scan (BidirectionalWMT15.forward self)
            (List.last
               (GatedRecurrent.scan (BidirectionalWMT15.forward self)
                  (GatedRecurrent.initial_state (BidirectionalWMT15.forward self))
                  xs1 (repeat 1 L))
               (GatedRecurrent.initial_state (BidirectionalWMT15.forward self)))
            xs2 (repeat 0 k))
         (repeat (GatedRecurrent.initial_state (BidirectionalWMT15.backward self)) k).
Proof.
  intros Hwf Hx1 Hy1 Hx2 Hy2 mask. subst mask L k.
  unfold BidirectionalWMT15.apply, GatedRecurrent.apply.
  rewrite (scan_app (BidirectionalWMT15.forward self)) by apply repeat_length.
  rewrite !rev_app_distr, !rev_repeat.
  rewrite (scan_app (BidirectionalWMT15.backward self))
    by (rewrite repeat_length, length_rev; lia).
  rewrite <- Hy2, <- (length_rev ys2).
  rewrite (scan_masked_out (BidirectionalWMT15.backward self) Hwf)
    by (apply (proj1 Hwf)).
  rewrite last_repeat, rev_app_distr, rev_repeat.
  rewrite zip_with_app.
  - rewrite length_rev. reflexivity.
  - rewrite length_rev, !scan_length; rewrite ?repeat_length, ?length_rev; lia.
Qed.

(** ** The lookup of the word encoder *)

Lemma subscript_in_bounds (t : LookupTable) (i : Z) :
  subscript t i
  = if BidirectionalAudioEncoder.in_bounds (lookup_length t) i
    then Ok (row t (BidirectionalAudioEncoder.wrap (lookup_length t) i))
    else Raise IndexError.
Proof.
  unfold subscript, BidirectionalAudioEncoder.in_bounds, BidirectionalAudioEncoder.wrap.
  destruct (0 <=? i)%Z eqn:E0; destruct (i <? Z.of_nat (lookup_length t))%Z eqn:E1;
    destruct (- Z.of_nat (lookup_length t) <=? i)%Z eqn:E2;
    destruct (i <? 0)%Z eqn:E3; cbn [andb]; try reflexivity; lia.
Qed.

Lemma lookup_apply_in_bounds (t : LookupTable) (indices : list Z) :
  Forall (fun i => BidirectionalAudioEncoder.in_bounds (lookup_length t) i = true) indices ->
  lookup_apply t indices
  = Ok (map (fun i => row t (BidirectionalAudioEncoder.wrap (lookup_length t) i)) indices).
Proof.
  unfold lookup_apply. induction indices as [|i l IH]; intros H; [reflexivity|].
  inversion H as [|? ? Hi Hl]; subst. cbn [mapM map].
  rewrite subscript_in_bounds, Hi. cbn [bind]. rewrite (IH Hl). reflexivity.
Qed.

Lemma lookup_apply_Ok (t : LookupTable) (indices : list Z) (rows : list (list R)) :
  lookup_apply t indices = Ok rows ->
  Forall (fun i => BidirectionalAudioEncoder.in_bounds (lookup_length t) i = true) indices.
Proof.
  unfold lookup_apply. revert rows.
  induction indices as [|i l IH]; intros rows H; [constructor|].
  cbn [mapM] in H. rewrite subscript_in_bounds in H.
  destruct (BidirectionalAudioEncoder.in_bounds (lookup_length t) i) eqn:E;
    [|discriminate].
  cbn [bind] in H. destruct (mapM (subscript t) l) as [r|e] eqn:El; [|discriminate].
  constructor; [exact E | eapply IH; reflexivity].
Qed.

Lemma lookup_apply_Raise (t : LookupTable) (indices : list Z) (i : Z) :
  In i indices -> BidirectionalAudioEncoder.in_bounds (lookup_length t) i = false ->
  lookup_apply t indices = Raise IndexError.
Proof.
  intros Hin Hbad.
  destruct (mapM_Ok_or_Raise (subscript t) IndexError indices
              (subscript_Ok_or_IndexError t)) as [(r & Hr) | Hr]; [|exact Hr].
  apply lookup_apply_Ok in Hr. rewrite List.Forall_forall in Hr.
  rewrite (Hr i Hin) in Hbad. discriminate.
Qed.

(** [LookupTable.apply] on a matrix: it succeeds exactly on indices within
    the bounds of the table, and then holds the row of each index. *)
Lemma lookup_apply_matrix_spec (t : LookupTable) (indices : matrix Z) :
  (forall i k, (i < shape0 indices)%nat -> (k < shape1 indices)%nat ->
     BidirectionalAudioEncoder.in_bounds (lookup_length t) (item indices i k) = true) ->
  exists e,
    lookup_apply_matrix t indices = Ok e
    /\ dim0 e = shape0 indices /\ dim1 e = shape1 indices /\ dim2 e = lookup_dim t
    /\ forall i k j, (i < shape0 indices)%nat -> (k < shape1 indices)%nat ->
         item3 e i k j
         = nth j (row t (BidirectionalAudioEncoder.wrap (lookup_length t)
                           (item indices i k))) 0.
Proof.
  intros Hb. unfold lookup_apply_matrix.
  rewrite lookup_apply_in_bounds.
  2:{ apply List.Forall_forall. intros x Hx. apply in_flatten in Hx.
      destruct Hx as (i & k & Hi & Hk & ->). apply Hb; assumption. }
  cbn [bind]. eexists. split; [reflexivity|]. cbn [dim0 dim1 dim2 item3].
  repeat split. intros i k j Hi Hk.
  assert (Hlt : (i * shape1 indices + k < shape0 indices * shape1 indices)%nat) by nia.
  rewrite (nth_indep _ [] (row t (BidirectionalAudioEncoder.wrap (lookup_length t) 0%Z)))
    by (rewrite length_map, length_flatten; exact Hlt).
  rewrite (map_nth (fun x => row t (BidirectionalAudioEncoder.wrap (lookup_length t) x))).
  rewrite nth_flatten by assumption. reflexivity.
Qed.

Lemma lookup_apply_matrix_Ok (t : LookupTable) (indices : matrix Z) (e : tensor3) :
  lookup_apply_matrix t indices = Ok e ->
  forall i k, (i < shape0 indices)%nat -> (k < shape1 indices)%nat ->
    BidirectionalAudioEncoder.in_bounds (lookup_length t) (item indices i k) = true.
Proof.
  unfold lookup_apply_matrix. intros H.
  apply bind_Ok in H. destruct H as (rows & Hrows & _).
  apply lookup_apply_Ok in Hrows. rewrite List.Forall_forall in Hrows.
  intros i k Hi Hk. apply Hrows. apply in_flatten. eauto.
Qed.

Lemma embed_spec (self : BidirectionalEncoder.t) (words : matrix Z) :
  (forall t b, (t < shape0 words)%nat -> (b < shape1 words)%nat ->
     BidirectionalAudioEncoder.in_bounds (BidirectionalEncoder.vocab_size self)
       (item words t b) = true) ->
  exists e,
    BidirectionalEncoder.embed self words = Ok e
    /\ dim0 e = shape0 words /\ dim1 e = shape1 words
    /\ dim2 e = BidirectionalEncoder.embedding_dim self
    /\ forall t b j, (t < shape0 words)%nat -> (b < shape1 words)%nat ->
         item3 e t b j
         = nth j (row (BidirectionalEncoder.lookup self)
                    (BidirectionalAudioEncoder.wrap (BidirectionalEncoder.vocab_size self)
                       (item words t b))) 0.
Proof. exact (lookup_apply_matrix_spec (BidirectionalEncoder.lookup self) words). Qed.

Lemma embed_Ok (self : BidirectionalEncoder.t) (words : matrix Z) (e : tensor3) :
  BidirectionalEncoder.embed self words = Ok e ->
  forall t b, (t < shape0 words)%nat -> (b < shape1 words)%nat ->
    BidirectionalAudioEncoder.in_bounds (BidirectionalEncoder.vocab_size self)
      (item words t b) = true.
Proof. exact (lookup_apply_matrix_Ok (BidirectionalEncoder.lookup self) words e). Qed.

(** ** The forked bidirectional application *)

Lemma apply_forked_Ok_inv (self : BidirectionalWMT15.t) (ff bf : Fork.t)
    (sequence : tensor3) (mask : matrix R) (r : tensor3) :
  BidirectionalWMT15.apply_forked self ff bf sequence mask = Ok r ->
  dim2 sequence = Fork.input_dim ff /\ dim2 sequence = Fork.input_dim bf
  /\ (shape0 mask <= dim0 sequence)%nat /\ shape1 mask = dim1 sequence
  /\ dim0 r = shape0 mask /\ dim1 r = shape1 mask
  /\ dim2 r = BidirectionalWMT15.output_dim self
  /\ forall t b j,
       item3 r t b j
       = nth j (nth t (BidirectionalWMT15.apply self
                         (map (Fork.outputs ff)
                            (map (fun t' => SequenceContentAttention.attended_at sequence t' b)
                               (seq 0 (dim0 sequence))))
                         (map (Fork.outputs bf)
                            (map (fun t' => SequenceContentAttention.attended_at sequence t' b)
                               (seq 0 (dim0 sequence))))
                         (map (fun t' => item mask t' b) (seq 0 (shape0 mask)))
                         (map (fun t' => item mask t' b) (seq 0 (shape0 mask)))) []) 0.
Proof.
  unfold BidirectionalWMT15.apply_forked.
  destruct (dim2 sequence =? Fork.input_dim ff)%nat eqn:E1; [|discriminate].
  destruct (dim2 sequence =? Fork.input_dim bf)%nat eqn:E2; [|discriminate].
  destruct (shape0 mask <=? dim0 sequence)%nat eqn:E3; [|discriminate].
  destruct (shape1 mask =? dim1 sequence)%nat eqn:E4; [|discriminate].
  cbn [andb negb]. intros H. injection H as <-. cbn [dim0 dim1 dim2 item3].
  apply Nat.eqb_eq in E1, E2, E4. apply Nat.leb_le in E3.
  repeat split; assumption.
Qed.

Lemma apply_forked_Ok (self : BidirectionalWMT15.t) (ff bf : Fork.t)
    (sequence : tensor3) (mask : matrix R) :
  dim2 sequence = Fork.input_dim ff -> dim2 sequence = Fork.input_dim bf ->
  (shape0 mask <= dim0 sequence)%nat -> shape1 mask = dim1 sequence ->
  exists r, BidirectionalWMT15.apply_forked self ff bf sequence mask = Ok r.
Proof.
  intros E1 E2 E3 E4. unfold BidirectionalWMT15.apply_forked.
  apply Nat.eqb_eq in E1, E2, E4. apply Nat.leb_le in E3.
  rewrite E1, E2, E3, E4. cbn [andb negb]. eexists. reflexivity.
Qed.

Lemma map_seq_ext {A} (f g : nat -> A) (n : nat) :
  forall s, (forall t, (s <= t < s + n)%nat -> f t = g t) ->
            map f (seq s n) = map g (seq s n).
Proof.
  induction n as [|n IH]; intros s H; [reflexivity|].
  cbn [seq map]. rewrite (H s) by lia. f_equal.
  apply IH. intros t Ht. apply H. lia.
Qed.

Lemma prefix_mask_column (mask : nat -> R) (L n : nat) :
  (L <= n)%nat ->
  (forall t, (t < n)%nat -> mask t = if (t <? L)%nat then 1 else 0) ->
  map mask (seq 0 n) = repeat 1 L ++ repeat 0 (n - L).
Proof.
  intros HL Hm. replace n with (L + (n - L))%nat at 1 by lia.
  rewrite seq_app, map_app. f_equal.
  - rewrite (map_seq_ext mask (fun _ => 1)).
    + rewrite map_const_repeat, length_seq. reflexivity.
    + intros t Ht. rewrite Hm by lia.
      destruct (Nat.ltb_spec t L); [reflexivity | lia].
  - rewrite (map_seq_ext mask (fun _ => 0)).
    + rewrite map_const_repeat, length_seq. reflexivity.
    + intros t Ht. rewrite Hm by lia.
      destruct (Nat.ltb_spec t L); [lia | reflexivity].
Qed.

(** One batch item under a mask that keeps its first [L] positions, in the
    representation of the whole batch. *)
Lemma apply_forked_prefix_mask (self : BidirectionalWMT15.t) (ff bf : Fork.t)
    (sequence : tensor3) (mask : matrix R) (r : tensor3) (b L : nat) :
  GatedRecurrent.well_formed (BidirectionalWMT15.backward self) ->
  BidirectionalWMT15.apply_forked self ff bf sequence mask = Ok r ->
  shape0 mask = dim0 sequence -> (L <= dim0 sequence)%nat ->
  (forall t, (t < dim0 sequence)%nat ->
     item mask t b = if (t <? L)%nat then 1 else 0) ->
  let column := fun s n =>
    map (fun t' => SequenceContentAttention.attended_at sequence t' b) (seq s n) in
  forall t j,
    item3 r t b j
    = nth j (nth t
        (BidirectionalWMT15.apply self
           (map (Fork.outputs ff) (column 0%nat L))
           (map (Fork.outputs bf) (column 0%nat L)) (repeat 1 L) (repeat 1 L)
         ++ zip_with (fun f b => f ++ b)
              (GatedRecurrent.scan (BidirectionalWMT15.forward self)
                 (List.last
                    (GatedRecurrent.scan (BidirectionalWMT15.forward self)
                       (GatedRecurrent.initial_state (BidirectionalWMT15.forward self))
                       (map (Fork.outputs ff) (column 0%nat L)) (repeat 1 L))
                    (GatedRecurrent.initial_state (BidirectionalWMT15.forward self)))
                 (map (Fork.outputs ff) (column L (dim0 sequence - L)%nat))
                 (repeat 0 (dim0 sequence - L)))
              (repeat (GatedRecurrent.initial_state (BidirectionalWMT15.backward self))
                 (dim0 sequence - L))) []) 0.
Proof.
  intros Hwf Hr Hshape HL Hmask column t j.
  destruct (apply_forked_Ok_inv _ _ _ _ _ _ Hr) as (_ & _ & _ & _ & _ & _ & _ & Hitem).
  rewrite Hitem, Hshape.
  rewrite (prefix_mask_column (fun t' => item mask t' b) L (dim0 sequence) HL Hmask).
  replace (seq 0 (dim0 sequence))
    with (seq 0 L ++ seq L (dim0 sequence - L))
    by (change L with (0 + L)%nat at 2; rewrite <- seq_app; f_equal; lia).
  rewrite !map_app.
  rewrite bidirectional_apply_padded;
    rewrite ?length_map, ?length_seq; try reflexivity; exact Hwf.
Qed.

(** ** The word encoder *)

Lemma in_bounds_iff (n : nat) (i : Z) :
  BidirectionalAudioEncoder.in_bounds n i = true
  <-> (- Z.of_nat n <= i < Z.of_nat n)%Z.
Proof. unfold BidirectionalAudioEncoder.in_bounds. lia. Qed.

Lemma in_bounds_false_iff (n : nat) (i : Z) :
  BidirectionalAudioEncoder.in_bounds n i = false
  <-> (i < - Z.of_nat n \/ Z.of_nat n <= i)%Z.
Proof. unfold BidirectionalAudioEncoder.in_bounds. lia. Qed.

Lemma Forall_last {A} (P : A -> Prop) (l : list A) (d : A) :
  Forall P l -> P d -> P (List.last l d).
Proof.
  intros Hl Hd. induction Hl as [|a l Ha Hl IH]; [exact Hd|].
  destruct l as [|b l]; [exact Ha|].
  change (List.last (a :: b :: l) d) with (List.last (b :: l) d). exact IH.
Qed.

Lemma nth_zip_with_app (F B : list (list R)) (t : nat) :
  (t < List.length F)%nat -> (t < List.length B)%nat ->
  nth t (zip_with (fun f b => f ++ b) F B) [] = nth t F [] ++ nth t B [].
Proof.
  revert B t. induction F as [|f F IH]; intros [|b B] t HF HB;
    cbn [List.length] in *; try lia.
  destruct t as [|t]; [reflexivity|]. cbn [zip_with nth]. apply IH; lia.
Qed.

Lemma attended_at_ext (x y : tensor3) (t b t' b' : nat) :
  dim2 x = dim2 y ->
  (forall j, (j < dim2 x)%nat -> item3 x t b j = item3 y t' b' j) ->
  SequenceContentAttention.attended_at x t b
  = SequenceContentAttention.attended_at y t' b'.
Proof.
  intros Hd Hi. unfold SequenceContentAttention.attended_at. rewrite <- Hd.
  apply map_seq_ext. intros j Hj. apply Hi. lia.
Qed.

(** The representation of a batch, at the positions its mask keeps for
    one sentence, is the representation of that sentence alone under a
    mask of ones. *)
Lemma encoder_apply_sentence_of_padded_batch (self : BidirectionalEncoder.t)
    (words : matrix Z) (words_mask : matrix R) (b L : nat) (r : tensor3) :
  GatedRecurrent.well_formed
    (BidirectionalWMT15.backward (BidirectionalEncoder.bidir self)) ->
  same_shape words_mask words = true ->
  (b < shape0 words)%nat -> (L <= shape1 words)%nat ->
  (forall t, (t < shape1 words)%nat ->
     item words_mask b t = if (t <? L)%nat then 1 else 0) ->
  BidirectionalEncoder.apply self words words_mask = Ok r ->
  exists r',
    BidirectionalEncoder.apply self (Mat 1 L (fun _ t => item words b t)) (ones 1 L)
    = Ok r'
    /\ dim0 r' = L /\ dim1 r' = 1%nat
    /\ forall t j, (t < L)%nat -> item3 r' t 0%nat j = item3 r t b j.
Proof.
  intros Hwf Hshape Hb HL Hmask H.
  apply same_shape_eq in Hshape. destruct Hshape as [Hs0 Hs1].
  unfold BidirectionalEncoder.apply in H. apply bind_Ok in H.
  destruct H as (e & He & Hr).
  pose proof (embed_Ok _ _ _ He) as Hbounds. cbn [T shape0 shape1 item] in Hbounds.
  destruct (embed_spec self (T words)) as (e0 & He0 & Hd0 & Hd1 & Hd2 & Hitem).
  { cbn [T shape0 shape1 item]. exact Hbounds. }
  rewrite He in He0. injection He0 as <-. cbn [T shape0 shape1 item] in Hd0, Hd1, Hitem.
  destruct (embed_spec self (T (Mat 1 L (fun _ t => item words b t))))
    as (e' & He' & Hd0' & Hd1' & Hd2' & Hitem').
  { cbn [T shape0 shape1 item]. intros t b' Ht Hb'. apply Hbounds; lia. }
  cbn [T shape0 shape1 item] in Hd0', Hd1', Hitem'.
  pose proof (apply_forked_Ok_inv _ _ _ _ _ _ Hr)
    as (Hf1 & Hf2 & _ & _ & _ & _ & _ & _).
  destruct (apply_forked_Ok (BidirectionalEncoder.bidir self)
              (BidirectionalEncoder.fwd_fork self) (BidirectionalEncoder.back_fork self)
              e' (T (ones 1 L))) as (r' & Hr').
  { rewrite Hd2', <- Hd2. exact Hf1. }
  { rewrite Hd2', <- Hd2. exact Hf2. }
  { cbn [T ones shape0 shape1]. lia. }
  { cbn [T ones shape0 shape1]. lia. }
  exists r'. unfold BidirectionalEncoder.apply. rewrite He'. cbn [bind].
  split; [exact Hr'|].
  pose proof (apply_forked_Ok_inv _ _ _ _ _ _ Hr')
    as (_ & _ & _ & _ & Hr0 & Hr1 & _ & Hitem_r').
  cbn [T ones shape0 shape1 item] in Hr0, Hr1, Hitem_r'.
  split; [exact Hr0|]. split; [exact Hr1|].
  intros t j Ht.
  rewrite (apply_forked_prefix_mask _ _ _ _ _ _ b L Hwf Hr).
  2:{ cbn [T shape0]. lia. }
  2:{ lia. }
  2:{ rewrite Hd0. cbn [T item]. exact Hmask. }
  rewrite app_nth1
    by (rewrite bidirectional_apply_length;
        rewrite ?length_map, ?length_seq, ?repeat_length; lia).
  rewrite Hitem_r', Hd0', map_const_repeat, length_seq.
  do 3 f_equal; f_equal; apply map_seq_ext; intros t' Ht';
    apply attended_at_ext; try congruence;
    intros j' _; rewrite Hitem, Hitem' by lia; reflexivity.
Qed.

Section WordEncoder.
Variable self : BidirectionalEncoder.t.
Variable words : matrix Z.
Variable words_mask : matrix R.

(** Property X20.  A word outside [-vocab_size, vocab_size) makes [apply] raise
    [IndexError], whatever the mask: also at a position the mask drops. *)
Theorem word_encoder_raises_on_word_outside_vocabulary (b t : nat) :
  (b < shape0 words)%nat -> (t < shape1 words)%nat ->
  (item words b t < - Z.of_nat (BidirectionalEncoder.vocab_size self)
   \/ Z.of_nat (BidirectionalEncoder.vocab_size self) <= item words b t)%Z ->
  BidirectionalEncoder.apply self words words_mask = Raise IndexError.
Proof.
  intros Hb Ht Hout.
  unfold BidirectionalEncoder.apply, BidirectionalEncoder.embed, lookup_apply_matrix.
  rewrite (lookup_apply_Raise _ _ (item words b t)); [reflexivity | |].
  - apply in_flatten. exists t, b. cbn [T shape0 shape1 item]. auto.
  - apply in_bounds_false_iff. exact Hout.
Qed.

(** Property X21.  For a mask of the shape of the words and at least one position,
    [apply] returns a representation exactly when every word lies in
    [-vocab_size, vocab_size); the representation is time-major with
    [2 * state_dim] features. *)
Theorem word_encoder_returns_a_value_iff_words_in_vocabulary :
  same_shape words_mask words = true -> (0 < shape1 words)%nat ->
  ((forall b t, (b < shape0 words)%nat -> (t < shape1 words)%nat ->
      (- Z.of_nat (BidirectionalEncoder.vocab_size self) <= item words b t
       < Z.of_nat (BidirectionalEncoder.vocab_size self))%Z)
   <-> exists r, BidirectionalEncoder.apply self words words_mask = Ok r)
  /\ forall r, BidirectionalEncoder.apply self words words_mask = Ok r ->
       dim0 r = shape1 words /\ dim1 r = shape0 words
       /\ dim2 r = (2 * BidirectionalEncoder.state_dim self)%nat.
Proof.
  intros Hshape Hpos. apply same_shape_eq in Hshape. destruct Hshape as [Hs0 Hs1].
  split; [split|].
  - intros Hbounds.
    destruct (embed_spec self (T words)) as (e & He & Hd0 & Hd1 & Hd2 & _).
    { cbn [T shape0 shape1 item]. intros t b Ht Hb. apply in_bounds_iff.
      apply Hbounds; assumption. }
    cbn [T shape0 shape1] in Hd0, Hd1.
    destruct (apply_forked_Ok (BidirectionalEncoder.bidir self)
                (BidirectionalEncoder.fwd_fork self) (BidirectionalEncoder.back_fork self)
                e (T words_mask)) as (r & Hr).
    { exact Hd2. } { exact Hd2. }
    { cbn [T shape0]. lia. } { cbn [T shape1]. lia. }
    exists r. unfold BidirectionalEncoder.apply. rewrite He. exact Hr.
  - intros (r & H) b t Hb Ht. unfold BidirectionalEncoder.apply in H.
    apply bind_Ok in H. destruct H as (e & He & _).
    apply in_bounds_iff.
    apply (embed_Ok _ _ _ He t b); cbn [T shape0 shape1]; assumption.
  - intros r H. unfold BidirectionalEncoder.apply in H.
    apply bind_Ok in H. destruct H as (e & He & Hr).
    pose proof (apply_forked_Ok_inv _ _ _ _ _ _ Hr)
      as (_ & _ & _ & _ & Hr0 & Hr1 & Hr2 & _).
    cbn [T shape0 shape1] in Hr0, Hr1.
    rewrite Hr0, Hr1, Hr2, Hs0, Hs1.
    unfold BidirectionalWMT15.output_dim. cbn. repeat split; lia.
Qed.

(** Property X23.  Where the mask of a sentence is [1] on its first [L] positions
    and [0] after them, every later position of its representation holds
    the forward state of position [L - 1] followed by the initial state of
    the backward brick. *)
Theorem word_encoder_padded_positions_repeat_the_last_state
    (b L : nat) (r : tensor3) :
  GatedRecurrent.well_formed
    (BidirectionalWMT15.forward (BidirectionalEncoder.bidir self)) ->
  GatedRecurrent.well_formed
    (BidirectionalWMT15.backward (BidirectionalEncoder.bidir self)) ->
  same_shape words_mask words = true ->
  (b < shape0 words)%nat -> (0 < L <= shape1 words)%nat ->
  (forall t, (t < shape1 words)%nat ->
     item words_mask b t = if (t <? L)%nat then 1 else 0) ->
  BidirectionalEncoder.apply self words words_mask = Ok r ->
  forall t j, (L <= t < shape1 words)%nat ->
    item3 r t b j
    = if (j <? BidirectionalEncoder.state_dim self)%nat
      then item3 r (L - 1) b j
      else nth (j - BidirectionalEncoder.state_dim self)
             (BidirectionalEncoder.back_initial_state self) 0.
Proof.
  intros Hwf_f Hwf_b Hshape Hb HL Hmask H t j Ht.
  apply same_shape_eq in Hshape. destruct Hshape as [Hs0 Hs1].
  unfold BidirectionalEncoder.apply in H. apply bind_Ok in H.
  destruct H as (e & He & Hr).
  destruct (embed_spec self (T words)) as (e0 & He0 & Hd0 & _).
  { exact (embed_Ok _ _ _ He). }
  rewrite He in He0. injection He0 as <-. cbn [T shape0] in Hd0.
  assert (Hm : forall t, (t < dim0 e)%nat ->
                 item (T words_mask) t b = if (t <? L)%nat then 1 else 0)
    by (rewrite Hd0; exact Hmask).
  assert (Hsm : shape0 (T words_mask) = dim0 e) by (cbn [T shape0]; lia).
  assert (HLe : (L <= dim0 e)%nat) by lia.
  rewrite !(apply_forked_prefix_mask _ _ _ _ _ _ b L Hwf_b Hr Hsm HLe Hm).
  set (xs1 := map (Fork.outputs (BidirectionalEncoder.fwd_fork self))
                (map (fun t' => SequenceContentAttention.attended_at e t' b) (seq 0 L))).
  set (ys1 := map (Fork.outputs (BidirectionalEncoder.back_fork self))
                (map (fun t' => SequenceContentAttention.attended_at e t' b) (seq 0 L))).
  set (xs2 := map (Fork.outputs (BidirectionalEncoder.fwd_fork self))
                (map (fun t' => SequenceContentAttention.attended_at e t' b)
                   (seq L (dim0 e - L)))).
  assert (Lx1 : List.length xs1 = L) by (unfold xs1; rewrite !length_map, length_seq; reflexivity).
  assert (Ly1 : List.length ys1 = L) by (unfold ys1; rewrite !length_map, length_seq; reflexivity).
  assert (Lx2 : List.length xs2 = (dim0 e - L)%nat)
    by (unfold xs2; rewrite !length_map, length_seq; reflexivity).
  assert (LA : List.length (BidirectionalWMT15.apply (BidirectionalEncoder.bidir self)
                              xs1 ys1 (repeat 1 L) (repeat 1 L)) = L)
    by (rewrite bidirectional_apply_length; rewrite ?repeat_length; lia).
  set (F := GatedRecurrent.scan
              (BidirectionalWMT15.forward (BidirectionalEncoder.bidir self))
              (GatedRecurrent.initial_state
                 (BidirectionalWMT15.forward (BidirectionalEncoder.bidir self)))
              xs1 (repeat 1 L)).
  assert (LF : List.length F = L) by (unfold F; rewrite scan_length; rewrite ?repeat_length; lia).
  assert (HF : Forall (fun s => List.length s = BidirectionalEncoder.state_dim self) F)
    by (apply (scan_state_lengths _ Hwf_f); apply (proj1 Hwf_f)).
  set (last_state := List.last F
                       (GatedRecurrent.initial_state
                          (BidirectionalWMT15.forward (BidirectionalEncoder.bidir self)))).
  assert (Hlast : List.length last_state = BidirectionalEncoder.state_dim self)
    by (apply (Forall_last (fun s => List.length s = BidirectionalEncoder.state_dim self));
        [exact HF | apply (proj1 Hwf_f)]).
  rewrite app_nth2 by lia. rewrite LA.
  rewrite <- Lx2 at 1.
  rewrite (scan_masked_out _ Hwf_f) by exact Hlast.
  rewrite Lx2, zip_with_repeat, nth_repeat_lt by lia.
  rewrite (app_nth1 _ _ _ (n := (L - 1)%nat)) by lia.
  unfold BidirectionalWMT15.apply at 1. unfold GatedRecurrent.apply. fold F.
  rewrite nth_zip_with_app
    by (rewrite ?length_rev, ?scan_length; rewrite ?length_rev, ?repeat_length; lia).
  assert (HFl : nth (L - 1) F [] = last_state).
  { unfold last_state. rewrite last_nth, LF. apply nth_indep. lia. }
  rewrite HFl.
  destruct (Nat.ltb_spec j (BidirectionalEncoder.state_dim self)) as [Hj|Hj].
  - rewrite !app_nth1 by lia. reflexivity.
  - rewrite app_nth2 by lia. rewrite Hlast. reflexivity.
Qed.

End WordEncoder.

Lemma words_encoder_well_formed :
  GatedRecurrent.well_formed
    (BidirectionalWMT15.forward (BidirectionalEncoder.bidir EncoderExamples.words_encoder))
  /\ GatedRecurrent.well_formed
       (BidirectionalWMT15.backward (BidirectionalEncoder.bidir EncoderExamples.words_encoder)).
Proof.
  split; (split; [reflexivity | intros s x g Hs; cbn; rewrite length_map; exact Hs]).
Defined.

Lemma word_encoder_raises_on_word_outside_vocabulary_witness :
  BidirectionalEncoder.apply EncoderExamples.words_encoder
    EncoderExamples.words_outside_vocabulary EncoderExamples.words_mask
  = Raise IndexError.
Proof.
  apply (word_encoder_raises_on_word_outside_vocabulary EncoderExamples.words_encoder
           EncoderExamples.words_outside_vocabulary EncoderExamples.words_mask 0 2).
  - cbn; lia.
  - cbn; lia.
  - right. cbn. lia.
Defined.

Lemma word_encoder_returns_a_value_iff_words_in_vocabulary_witness :
  exists r,
    BidirectionalEncoder.apply EncoderExamples.words_encoder EncoderExamples.words
      EncoderExamples.words_mask = Ok r
    /\ dim0 r = 3%nat /\ dim1 r = 2%nat /\ dim2 r = 2%nat.
Proof.
  destruct (word_encoder_returns_a_value_iff_words_in_vocabulary
              EncoderExamples.words_encoder EncoderExamples.words
              EncoderExamples.words_mask) as [[Hvalue _] Hshape].
  - reflexivity.
  - cbn; lia.
  - destruct Hvalue as (r & Hr).
    + intros b t Hb Ht. cbn [EncoderExamples.words item].
      pose proof (Nat.mod_upper_bound (b + t) 3). cbn in *. lia.
    + exists r. split; [exact Hr | exact (Hshape r Hr)].
Defined.

Lemma word_encoder_padded_positions_repeat_the_last_state_witness :
  exists r,
    BidirectionalEncoder.apply EncoderExamples.words_encoder EncoderExamples.words
      EncoderExamples.words_mask = Ok r
    /\ forall j, item3 r 2 0 j
                 = if (j <? 1)%nat then item3 r 1 0 j else nth (j - 1) [0] 0.
Proof.
  eexists. split; [reflexivity|]. intros j.
  apply (word_encoder_padded_positions_repeat_the_last_state
           EncoderExamples.words_encoder EncoderExamples.words
           EncoderExamples.words_mask 0 2).
  - exact (proj1 words_encoder_well_formed).
  - exact (proj2 words_encoder_well_formed).
  - reflexivity.
  - cbn; lia.
  - cbn; lia.
  - intros t Ht. reflexivity.
  - reflexivity.
  - cbn; lia.
Defined.

(** ** The graphs of [create_word_encoder] *)

Section WordEncoderGraphs.
Local Open Scope string_scope.
Variable encoder : BidirectionalEncoder.t.
Variable parameters : Helpers.brick.

(** Property X22.  Training and sampling agree on a sentence: where the training
    mask keeps the first [L] words of sentence [b] of a batch, the sampling
    graph on this sentence alone returns, position by position, what the
    training graph returns for it inside the padded batch. *)
Theorem word_sampling_agrees_with_training_on_a_padded_batch
    (env senv : Helpers.inputs) (words : matrix Z) (words_mask : matrix R)
    (b L : nat) (r : tensor3) :
  GatedRecurrent.well_formed
    (BidirectionalWMT15.backward (BidirectionalEncoder.bidir encoder)) ->
  env !! "words" = Some (Helpers.IntMatrix words) ->
  env !! "words_mask" = Some (Helpers.FloatMatrix words_mask) ->
  senv !! "sampling_words"
    = Some (Helpers.IntMatrix (Mat 1 L (fun _ t => item words b t))) ->
  same_shape words_mask words = true ->
  (b < shape0 words)%nat -> (0 < L <= shape1 words)%nat ->
  (forall t, (t < shape1 words)%nat ->
     item words_mask b t = if (t <? L)%nat then 1 else 0) ->
  Helpers.training_representation
    (EncoderGraphs.create_word_encoder encoder parameters) env = Ok r ->
  exists r',
    Helpers.sampling_representation
      (EncoderGraphs.create_word_encoder encoder parameters) senv = Ok r'
    /\ dim0 r' = L /\ dim1 r' = 1%nat
    /\ forall t j, (t < L)%nat -> item3 r' t 0%nat j = item3 r t b j.
Proof.
  intros Hwf Hwords Hmask Hsent Hshape Hb HL Hprefix H.
  cbn [EncoderGraphs.create_word_encoder Helpers.training_representation
       Helpers.sampling_representation] in *.
  unfold Helpers.lmatrix, Helpers.matrix_ in *.
  rewrite Hwords, Hmask in H. rewrite Hsent. cbn [bind shape0 shape1] in *.
  apply (encoder_apply_sentence_of_padded_batch encoder words words_mask b L r);
    try assumption. lia.
Qed.

End WordEncoderGraphs.

Lemma word_sampling_agrees_with_training_on_a_padded_batch_witness :
  exists r r',
    Helpers.training_representation
      (EncoderGraphs.create_word_encoder EncoderExamples.words_encoder
         EncoderExamples.no_parameters) EncoderExamples.training_inputs = Ok r
    /\ Helpers.sampling_representation
         (EncoderGraphs.create_word_encoder EncoderExamples.words_encoder
            EncoderExamples.no_parameters) EncoderExamples.sampling_inputs = Ok r'
    /\ dim0 r' = 2%nat /\ dim1 r' = 1%nat
    /\ forall t j, (t < 2)%nat -> item3 r' t 0%nat j = item3 r t 0%nat j.
Proof.
  eexists.
  assert (H : Helpers.training_representation
                (EncoderGraphs.create_word_encoder EncoderExamples.words_encoder
                   EncoderExamples.no_parameters) EncoderExamples.training_inputs
              = Ok _) by reflexivity.
  destruct (word_sampling_agrees_with_training_on_a_padded_batch
              EncoderExamples.words_encoder EncoderExamples.no_parameters
              EncoderExamples.training_inputs EncoderExamples.sampling_inputs
              EncoderExamples.words EncoderExamples.words_mask 0 2 _
              (proj2 words_encoder_well_formed) eq_refl eq_refl eq_refl eq_refl
              ltac:(cbn; lia) ltac:(cbn; lia) (fun t _ => eq_refl) H)
    as (r' & Hr').
  exists r'. split; [exact H | exact Hr'].
Defined.

(** ** The audio encoder *)

Lemma take_words_ends_Ok_inv (batch_size : nat) (e : tensor3) (words_ends : matrix Z)
    (g : tensor3) :
  shape0 words_ends = batch_size ->
  BidirectionalAudioEncoder.take_words_ends batch_size e words_ends = Ok g ->
  dim0 g = shape1 words_ends /\ dim1 g = batch_size /\ dim2 g = dim2 e
  /\ (forall i w, (i < batch_size)%nat -> (w < shape1 words_ends)%nat ->
        (i < dim1 e)%nat
        /\ BidirectionalAudioEncoder.in_bounds (dim0 e) (item words_ends i w) = true)
  /\ forall w i j, (i < batch_size)%nat ->
       item3 g w i j
       = item3 e (BidirectionalAudioEncoder.wrap (dim0 e) (item words_ends i w)) i j.
Proof.
  intros Hshape. unfold BidirectionalAudioEncoder.take_words_ends,
    BidirectionalAudioEncoder.broadcast.
  rewrite Hshape, Nat.eqb_refl. cbn [bind].
  destruct (forallb _ (seq 0 batch_size)) eqn:E; [|discriminate].
  intros H. injection H as <-. cbn [dim0 dim1 dim2 item3].
  assert (Hsame : forall i, (i < batch_size)%nat ->
            (if (batch_size =? 1)%nat then 0%nat else i) = i).
  { intros i Hi. destruct (Nat.eqb_spec batch_size 1); [lia | reflexivity]. }
  repeat split.
  - rewrite forallb_forall in E. specialize (E i). rewrite in_seq in E.
    specialize (E ltac:(lia)). apply andb_true_iff in E. destruct E as [E _].
    apply Nat.ltb_lt in E. rewrite Hsame in E by assumption. exact E.
  - rewrite forallb_forall in E. specialize (E i). rewrite in_seq in E.
    specialize (E ltac:(lia)). apply andb_true_iff in E. destruct E as [_ E].
    rewrite forallb_forall in E. specialize (E w). rewrite in_seq in E.
    specialize (E ltac:(lia)). rewrite Hsame in E by assumption. exact E.
  - intros w i j Hi. rewrite !Hsame by assumption. reflexivity.
Qed.

Lemma take_words_ends_Ok (batch_size : nat) (e : tensor3) (words_ends : matrix Z) :
  shape0 words_ends = batch_size -> (batch_size <= dim1 e)%nat ->
  (forall i w, (i < batch_size)%nat -> (w < shape1 words_ends)%nat ->
     BidirectionalAudioEncoder.in_bounds (dim0 e) (item words_ends i w) = true) ->
  exists g, BidirectionalAudioEncoder.take_words_ends batch_size e words_ends = Ok g.
Proof.
  intros Hshape Hrows Hends. unfold BidirectionalAudioEncoder.take_words_ends,
    BidirectionalAudioEncoder.broadcast.
  rewrite Hshape, Nat.eqb_refl. cbn [bind].
  assert (Hsame : forall i, (i < batch_size)%nat ->
            (if (batch_size =? 1)%nat then 0%nat else i) = i).
  { intros i Hi. destruct (Nat.eqb_spec batch_size 1); [lia | reflexivity]. }
  destruct (forallb _ (seq 0 batch_size)) eqn:E; [eexists; reflexivity|].
  exfalso. apply not_true_iff_false in E. apply E. clear E.
  apply forallb_forall. intros i Hi. apply in_seq in Hi.
  apply andb_true_iff. split.
  - apply Nat.ltb_lt. rewrite Hsame by lia. lia.
  - apply forallb_forall. intros w Hw. apply in_seq in Hw.
    rewrite Hsame by lia. apply Hends; lia.
Qed.

Lemma take_words_ends_Raise (batch_size : nat) (e : tensor3) (words_ends : matrix Z)
    (i w : nat) :
  shape0 words_ends = batch_size ->
  (i < batch_size)%nat -> (w < shape1 words_ends)%nat ->
  BidirectionalAudioEncoder.in_bounds (dim0 e) (item words_ends i w) = false ->
  BidirectionalAudioEncoder.take_words_ends batch_size e words_ends = Raise IndexError.
Proof.
  intros Hshape Hi Hw Hout.
  destruct (BidirectionalAudioEncoder.take_words_ends batch_size e words_ends)
    as [g|err] eqn:E.
  - apply take_words_ends_Ok_inv in E; [|exact Hshape].
    destruct E as (_ & _ & _ & Hin & _).
    destruct (Hin i w Hi Hw) as [_ Hin']. rewrite Hin' in Hout. discriminate.
  - revert E. unfold BidirectionalAudioEncoder.take_words_ends,
      BidirectionalAudioEncoder.broadcast.
    rewrite Hshape, Nat.eqb_refl. cbn [bind].
    destruct (forallb _ (seq 0 batch_size)); [discriminate|].
    intros H. injection H as <-. reflexivity.
Qed.

Section AudioEncoder.
Variable self : BidirectionalAudioEncoder.t.
Variable audio : tensor3.
Variable audio_mask : matrix R.
Variable words_ends : matrix Z.
Variable words_ends_mask : matrix R.

(** Property X24.  [apply] returns a representation only for an encoder whose
    [embedding_dim] equals its [state_dim]: the forks of the second stage
    are allocated for [2 * embedding_dim] features and read the
    [2 * state_dim] features of the first stage.  The audio then has
    [feature_size] features, and the representation is time-major over
    the word ends with [2 * state_dim] features. *)
Theorem audio_encoder_needs_equal_embedding_and_state_dims (r : tensor3) :
  BidirectionalAudioEncoder.apply self audio audio_mask words_ends words_ends_mask
  = Ok r ->
  BidirectionalAudioEncoder.embedding_dim self = BidirectionalAudioEncoder.state_dim self
  /\ dim2 audio = BidirectionalAudioEncoder.feature_size self
  /\ dim0 r = shape1 words_ends_mask /\ dim1 r = shape0 words_ends_mask
  /\ (dim0 r <= shape1 words_ends)%nat
  /\ dim2 r = (2 * BidirectionalAudioEncoder.state_dim self)%nat.
Proof.
  intros H. unfold BidirectionalAudioEncoder.apply in H.
  apply bind_Ok in H. destruct H as (e & He & H).
  apply bind_Ok in H. destruct H as (g & Hg & Hr).
  pose proof (apply_forked_Ok_inv _ _ _ _ _ _ He)
    as (Hf & _ & _ & _ & _ & _ & He2 & _).
  pose proof (apply_forked_Ok_inv _ _ _ _ _ _ Hr)
    as (Hg2 & _ & Hr0' & _ & Hr0 & Hr1 & Hr2 & _).
  assert (Hgd : dim2 g = dim2 e /\ dim0 g = shape1 words_ends).
  { revert Hg. unfold BidirectionalAudioEncoder.take_words_ends.
    destruct (BidirectionalAudioEncoder.broadcast _ _) as [n|]; [|discriminate].
    cbn [bind]. destruct (forallb _ _); [|discriminate].
    intros Hg. injection Hg as <-. split; reflexivity. }
  destruct Hgd as [Hgd2 Hgd0].
  cbn [T shape0 shape1 BidirectionalAudioEncoder.dimshuffle102 dim2
       BidirectionalAudioEncoder.embedding_fwd_fork
       BidirectionalAudioEncoder.fwd_fork Fork.input_dim] in *.
  unfold BidirectionalWMT15.output_dim in *.
  cbn [BidirectionalAudioEncoder.embedding BidirectionalAudioEncoder.bidir
       BidirectionalWMT15.forward BidirectionalWMT15.backward GatedRecurrent.dim] in *.
  repeat split; lia.
Qed.

(** Property X25.  A word end outside [-frames, frames) makes [apply] raise
    [IndexError] whatever [words_ends_mask] holds for it: the padding of
    [words_ends] has to be a frame index too. *)
Theorem audio_encoder_raises_on_word_end_outside_the_frames (i w : nat) :
  dim2 audio = BidirectionalAudioEncoder.feature_size self ->
  shape0 audio_mask = dim0 audio -> shape1 audio_mask = dim1 audio ->
  (0 < dim1 audio)%nat ->
  shape0 words_ends = dim0 audio ->
  (i < shape0 words_ends)%nat -> (w < shape1 words_ends)%nat ->
  (item words_ends i w < - Z.of_nat (dim1 audio)
   \/ Z.of_nat (dim1 audio) <= item words_ends i w)%Z ->
  BidirectionalAudioEncoder.apply self audio audio_mask words_ends words_ends_mask
  = Raise IndexError.
Proof.
  intros Hf Hm0 Hm1 Hpos Hw0 Hi Hw Hout. unfold BidirectionalAudioEncoder.apply.
  destruct (apply_forked_Ok (BidirectionalAudioEncoder.embedding self)
              (BidirectionalAudioEncoder.embedding_fwd_fork self)
              (BidirectionalAudioEncoder.embedding_back_fork self)
              (BidirectionalAudioEncoder.dimshuffle102 audio) (T audio_mask))
    as (e & He).
  { exact Hf. } { exact Hf. }
  { cbn [T shape0 BidirectionalAudioEncoder.dimshuffle102 dim0]. lia. }
  { cbn [T shape1 BidirectionalAudioEncoder.dimshuffle102 dim1]. lia. }
  rewrite He. cbn [bind].
  pose proof (apply_forked_Ok_inv _ _ _ _ _ _ He)
    as (_ & _ & _ & _ & He0 & _).
  cbn [T shape0] in He0.
  rewrite (take_words_ends_Raise (dim0 audio) e words_ends i w);
    [reflexivity | exact Hw0 | lia | exact Hw |].
  apply in_bounds_false_iff. rewrite He0, Hm1. exact Hout.
Qed.

End AudioEncoder.

Lemma audio_encoder_well_formed :
  GatedRecurrent.well_formed
    (BidirectionalWMT15.backward
       (BidirectionalAudioEncoder.embedding AudioExamples.audio_encoder)).
Proof.
  split; [reflexivity | intros s x g Hs; cbn; rewrite length_map; exact Hs].
Defined.

Lemma audio_encoder_needs_equal_embedding_and_state_dims_witness :
  exists r,
    BidirectionalAudioEncoder.apply AudioExamples.audio_encoder AudioExamples.audio
      AudioExamples.audio_mask AudioExamples.words_ends AudioExamples.words_ends_mask
    = Ok r
    /\ BidirectionalAudioEncoder.embedding_dim AudioExamples.audio_encoder
       = BidirectionalAudioEncoder.state_dim AudioExamples.audio_encoder
    /\ dim2 AudioExamples.audio
       = BidirectionalAudioEncoder.feature_size AudioExamples.audio_encoder
    /\ dim0 r = 2%nat /\ dim1 r = 2%nat /\ (dim0 r <= 2)%nat /\ dim2 r = 2%nat.
Proof.
  eexists. split; [reflexivity|].
  apply (audio_encoder_needs_equal_embedding_and_state_dims
           AudioExamples.audio_encoder AudioExamples.audio AudioExamples.audio_mask
           AudioExamples.words_ends AudioExamples.words_ends_mask).
  reflexivity.
Defined.

Lemma audio_encoder_raises_on_word_end_outside_the_frames_witness :
  BidirectionalAudioEncoder.apply AudioExamples.audio_encoder AudioExamples.audio
    AudioExamples.audio_mask AudioExamples.words_ends_outside_the_frames
    AudioExamples.words_ends_mask
  = Raise IndexError.
Proof.
  apply (audio_encoder_raises_on_word_end_outside_the_frames
           AudioExamples.audio_encoder AudioExamples.audio AudioExamples.audio_mask
           AudioExamples.words_ends_outside_the_frames AudioExamples.words_ends_mask
           0 1); try reflexivity; cbn; lia.
Defined.

(** Property X26.  The representation does not depend on the audio in the frames
    the mask drops: where [audio_mask] keeps the first [lengths b] frames
    of each recording and every word end, padding included, points into
    the kept frames, two batches that agree on the kept frames get the
    same representation. *)
Theorem audio_encoder_ignores_padded_frames
    (self : BidirectionalAudioEncoder.t) (audio audio' : tensor3)
    (audio_mask : matrix R) (words_ends : matrix Z) (words_ends_mask : matrix R)
    (lengths : nat -> nat) (r : tensor3) :
  GatedRecurrent.well_formed
    (BidirectionalWMT15.backward (BidirectionalAudioEncoder.embedding self)) ->
  dim0 audio' = dim0 audio -> dim1 audio' = dim1 audio -> dim2 audio' = dim2 audio ->
  shape0 audio_mask = dim0 audio -> shape1 audio_mask = dim1 audio ->
  shape0 words_ends = dim0 audio ->
  (forall b, (b < dim0 audio)%nat -> (lengths b <= dim1 audio)%nat) ->
  (forall b t, (b < dim0 audio)%nat -> (t < dim1 audio)%nat ->
     item audio_mask b t = if (t <? lengths b)%nat then 1 else 0) ->
  (forall b t j, (b < dim0 audio)%nat -> (t < lengths b)%nat -> (j < dim2 audio)%nat ->
     item3 audio' b t j = item3 audio b t j) ->
  (forall b w, (b < shape0 words_ends)%nat -> (w < shape1 words_ends)%nat ->
     (0 <= item words_ends b w < Z.of_nat (lengths b))%Z) ->
  BidirectionalAudioEncoder.apply self audio audio_mask words_ends words_ends_mask
  = Ok r ->
  exists r',
    BidirectionalAudioEncoder.apply self audio' audio_mask words_ends words_ends_mask
    = Ok r'
    /\ dim0 r' = dim0 r /\ dim1 r' = dim1 r /\ dim2 r' = dim2 r
    /\ forall t b j, (b < dim1 r)%nat -> item3 r' t b j = item3 r t b j.
Proof.
  intros Hwf Ha0 Ha1 Ha2 Hm0 Hm1 Hw0 Hlen Hmask Hagree Hends H.
  unfold BidirectionalAudioEncoder.apply in *.
  apply bind_Ok in H. destruct H as (e & He & H).
  apply bind_Ok in H. destruct H as (g & Hg & Hr).
  pose proof (apply_forked_Ok_inv _ _ _ _ _ _ He)
    as (Hf1 & Hf2 & _ & _ & He0 & He1 & He2 & _).
  cbn [T shape0 shape1 BidirectionalAudioEncoder.dimshuffle102 dim0 dim1 dim2]
    in Hf1, Hf2, He0, He1.
  (* the first stage on the other audio *)
  destruct (apply_forked_Ok (BidirectionalAudioEncoder.embedding self)
              (BidirectionalAudioEncoder.embedding_fwd_fork self)
              (BidirectionalAudioEncoder.embedding_back_fork self)
              (BidirectionalAudioEncoder.dimshuffle102 audio') (T audio_mask))
    as (e' & He').
  { cbn [BidirectionalAudioEncoder.dimshuffle102 dim2]. congruence. }
  { cbn [BidirectionalAudioEncoder.dimshuffle102 dim2]. congruence. }
  { cbn [T shape0 BidirectionalAudioEncoder.dimshuffle102 dim0]. lia. }
  { cbn [T shape1 BidirectionalAudioEncoder.dimshuffle102 dim1]. lia. }
  pose proof (apply_forked_Ok_inv _ _ _ _ _ _ He')
    as (_ & _ & _ & _ & He0' & He1' & He2' & _).
  cbn [T shape0 shape1] in He0', He1'.
  assert (S1 : forall b t j, (b < dim0 audio)%nat -> (t < lengths b)%nat ->
                 item3 e' t b j = item3 e t b j).
  { intros b t j Hb Ht.
    rewrite (apply_forked_prefix_mask _ _ _ _ _ _ b (lengths b) Hwf He).
    2:{ cbn [T shape0 BidirectionalAudioEncoder.dimshuffle102 dim0]. lia. }
    2:{ cbn [BidirectionalAudioEncoder.dimshuffle102 dim0]. apply Hlen. exact Hb. }
    2:{ cbn [T item BidirectionalAudioEncoder.dimshuffle102 dim0].
        intros t' Ht'. apply Hmask; assumption. }
    rewrite (apply_forked_prefix_mask _ _ _ _ _ _ b (lengths b) Hwf He').
    2:{ cbn [T shape0 BidirectionalAudioEncoder.dimshuffle102 dim0]. lia. }
    2:{ cbn [BidirectionalAudioEncoder.dimshuffle102 dim0]. rewrite Ha1.
        apply Hlen. exact Hb. }
    2:{ cbn [T item BidirectionalAudioEncoder.dimshuffle102 dim0].
        intros t' Ht'. apply Hmask; [assumption | lia]. }
    rewrite !app_nth1
      by (rewrite bidirectional_apply_length;
          rewrite ?length_map, ?length_seq, ?repeat_length; lia).
    assert (Hcol : map (fun t' => SequenceContentAttention.attended_at
                                    (BidirectionalAudioEncoder.dimshuffle102 audio') t' b)
                     (seq 0 (lengths b))
                   = map (fun t' => SequenceContentAttention.attended_at
                                      (BidirectionalAudioEncoder.dimshuffle102 audio) t' b)
                       (seq 0 (lengths b))).
    { apply map_seq_ext. intros t' Ht'. apply attended_at_ext.
      - cbn [BidirectionalAudioEncoder.dimshuffle102 dim2]. exact Ha2.
      - cbn [BidirectionalAudioEncoder.dimshuffle102 dim2 item3]. intros j' Hj'.
        apply Hagree; lia. }
    rewrite Hcol. reflexivity. }
  rewrite He'. cbn [bind].
  (* the word ends *)
  rewrite <- Ha0 in Hg.
  assert (Hw0' : shape0 words_ends = dim0 audio') by lia.
  pose proof (take_words_ends_Ok_inv _ _ _ _ Hw0' Hg)
    as (Hg0 & Hg1 & Hg2 & Hin & Hgi).
  destruct (take_words_ends_Ok (dim0 audio') e' words_ends) as (g' & Hg').
  { lia. } { lia. }
  { intros i w Hi Hw. rewrite He0', <- He0. apply Hin; assumption. }
  pose proof (take_words_ends_Ok_inv _ _ _ _ Hw0' Hg')
    as (Hg0' & Hg1' & Hg2' & _ & Hgi').
  assert (S2 : forall w i j, (i < dim0 audio)%nat -> (w < shape1 words_ends)%nat ->
                 item3 g' w i j = item3 g w i j).
  { intros w i j Hi Hw. rewrite Hgi, Hgi' by lia. rewrite He0', <- He0.
    apply S1; [exact Hi|].
    specialize (Hends i w ltac:(lia) Hw).
    unfold BidirectionalAudioEncoder.wrap.
    destruct (Z.ltb_spec (item words_ends i w) 0); lia. }
  rewrite Hg'. cbn [bind].
  (* the second stage *)
  pose proof (apply_forked_Ok_inv _ _ _ _ _ _ Hr)
    as (Hs1 & Hs2 & Hs3 & Hs4 & Hr0 & Hr1 & Hr2 & Hri).
  destruct (apply_forked_Ok (BidirectionalAudioEncoder.bidir self)
              (BidirectionalAudioEncoder.fwd_fork self)
              (BidirectionalAudioEncoder.back_fork self) g' (T words_ends_mask))
    as (r' & Hr').
  { congruence. } { congruence. } { lia. } { lia. }
  pose proof (apply_forked_Ok_inv _ _ _ _ _ _ Hr')
    as (_ & _ & _ & _ & Hr0' & Hr1' & Hr2' & Hri').
  exists r'. split; [exact Hr'|].
  split; [congruence|]. split; [congruence|]. split; [congruence|].
  intros t b j Hb. rewrite Hri, Hri'.
  assert (Hcol : map (fun t' => SequenceContentAttention.attended_at g' t' b)
                   (seq 0 (dim0 g'))
                 = map (fun t' => SequenceContentAttention.attended_at g t' b)
                     (seq 0 (dim0 g))).
  { rewrite Hg0', Hg0. apply map_seq_ext. intros t' Ht'. apply attended_at_ext.
    - congruence.
    - intros j' _. apply S2; lia. }
  rewrite Hcol. reflexivity.
Qed.

Lemma audio_encoder_ignores_padded_frames_witness :
  exists r r',
    BidirectionalAudioEncoder.apply AudioExamples.audio_encoder AudioExamples.audio
      AudioExamples.audio_mask AudioExamples.words_ends AudioExamples.words_ends_mask
    = Ok r
    /\ BidirectionalAudioEncoder.apply AudioExamples.audio_encoder
         AudioExamples.audio_changed_where_masked
         AudioExamples.audio_mask AudioExamples.words_ends AudioExamples.words_ends_mask
       = Ok r'
    /\ dim0 r' = dim0 r /\ dim1 r' = dim1 r /\ dim2 r' = dim2 r
    /\ forall t b j, (b < dim1 r)%nat -> item3 r' t b j = item3 r t b j.
Proof.
  assert (H : exists r,
            BidirectionalAudioEncoder.apply AudioExamples.audio_encoder
              AudioExamples.audio AudioExamples.audio_mask AudioExamples.words_ends
              AudioExamples.words_ends_mask = Ok r) by (eexists; reflexivity).
  destruct H as (r & H). exists r.
  destruct (audio_encoder_ignores_padded_frames AudioExamples.audio_encoder
              AudioExamples.audio AudioExamples.audio_changed_where_masked
              AudioExamples.audio_mask AudioExamples.words_ends
              AudioExamples.words_ends_mask AudioExamples.lengths r
              audio_encoder_well_formed eq_refl eq_refl eq_refl eq_refl eq_refl eq_refl)
    as (r' & Hr'); [ | | | | exact H | ].
  - intros b Hb. unfold AudioExamples.lengths. destruct (b =? 0)%nat; cbn; lia.
  - intros b t Hb Ht. reflexivity.
  - intros b t j Hb Ht Hj. unfold AudioExamples.lengths in Ht.
    cbn [AudioExamples.audio AudioExamples.audio_changed_where_masked item3].
    destruct (Nat.eqb_spec b 0) as [->|Hb0]; [|reflexivity].
    destruct (Nat.eqb_spec t 2) as [->|Ht2]; [cbn in Ht; lia | reflexivity].
  - intros b w Hb Hw. unfold AudioExamples.lengths.
    cbn [AudioExamples.words_ends item shape0 shape1] in *.
    destruct (Nat.eqb_spec b 0) as [->|Hb0]; lia.
  - exists r'. split; [exact H | exact Hr'].
Defined.

(** ** One sequence of a padded batch *)

(** The states of the positions a mask keeps for one batch item are those
    of this item walked alone under a mask of ones. *)
Lemma apply_forked_kept_positions (self : BidirectionalWMT15.t) (ff bf : Fork.t)
    (sequence sequence' : tensor3) (mask mask' : matrix R) (r r' : tensor3)
    (b b' L : nat) :
  GatedRecurrent.well_formed (BidirectionalWMT15.backward self) ->
  BidirectionalWMT15.apply_forked self ff bf sequence mask = Ok r ->
  BidirectionalWMT15.apply_forked self ff bf sequence' mask' = Ok r' ->
  shape0 mask = dim0 sequence -> (L <= dim0 sequence)%nat ->
  (forall t, (t < dim0 sequence)%nat ->
     item mask t b = if (t <? L)%nat then 1 else 0) ->
  dim0 sequence' = L -> shape0 mask' = L ->
  (forall t, (t < L)%nat -> item mask' t b' = 1) ->
  (forall t j, (t < L)%nat -> (j < dim2 sequence)%nat ->
     item3 sequence' t b' j = item3 sequence t b j) ->
  forall t j, (t < L)%nat -> item3 r' t b' j = item3 r t b j.
Proof.
  intros Hwf Hr Hr' Hshape HL Hmask Hd0' Hm0' Hmask' Hagree t j Ht.
  pose proof (apply_forked_Ok_inv _ _ _ _ _ _ Hr) as (Hf & _).
  pose proof (apply_forked_Ok_inv _ _ _ _ _ _ Hr')
    as (Hf' & _ & _ & _ & _ & _ & _ & Hitem').
  rewrite (apply_forked_prefix_mask _ _ _ _ _ _ b L Hwf Hr Hshape HL Hmask).
  rewrite app_nth1
    by (rewrite bidirectional_apply_length;
        rewrite ?length_map, ?length_seq, ?repeat_length; lia).
  rewrite Hitem', Hd0', Hm0'.
  assert (Hones : map (fun t' => item mask' t' b') (seq 0 L) = repeat 1 L).
  { rewrite (map_seq_ext _ (fun _ => 1)).
    - rewrite map_const_repeat, length_seq. reflexivity.
    - intros t' Ht'. apply Hmask'. lia. }
  assert (Hcol : map (fun t' => SequenceContentAttention.attended_at sequence' t' b')
                   (seq 0 L)
                 = map (fun t' => SequenceContentAttention.attended_at sequence t' b)
                     (seq 0 L)).
  { apply map_seq_ext. intros t' Ht'. apply attended_at_ext; [congruence|].
    intros j' Hj'. apply Hagree; [lia | congruence]. }
  rewrite Hones, Hcol. reflexivity.
Qed.

(** ** The graphs of [create_audio_encoder] *)

Section AudioEncoderGraphs.
Local Open Scope string_scope.
Variable encoder : BidirectionalAudioEncoder.t.
Variable parameters : Helpers.brick.

(** Property X27.  Training and sampling agree on a recording: where the training
    masks keep the first [La] frames and the first [Lw] word ends of
    recording [b] of a batch, and these word ends are frames among the
    kept ones, the sampling graph on this recording alone returns,
    position by position, what the training graph returns for it inside
    the padded batch. *)
Theorem audio_sampling_agrees_with_training_on_a_padded_batch
    (env senv : Helpers.inputs) (audio : tensor3) (audio_mask : matrix R)
    (words_ends : matrix Z) (words_ends_mask : matrix R)
    (b La Lw : nat) (r : tensor3) :
  GatedRecurrent.well_formed
    (BidirectionalWMT15.backward (BidirectionalAudioEncoder.embedding encoder)) ->
  GatedRecurrent.well_formed
    (BidirectionalWMT15.backward (BidirectionalAudioEncoder.bidir encoder)) ->
  env !! "audio" = Some (Helpers.FloatTensor3 audio) ->
  env !! "audio_mask" = Some (Helpers.FloatMatrix audio_mask) ->
  env !! "words_ends" = Some (Helpers.IntMatrix words_ends) ->
  env !! "words_ends_mask" = Some (Helpers.FloatMatrix words_ends_mask) ->
  senv !! "sampling_audio"
    = Some (Helpers.FloatTensor3
              (Ten3 1 La (dim2 audio) (fun _ t j => item3 audio b t j))) ->
  senv !! "sampling_words_ends"
    = Some (Helpers.IntMatrix (Mat 1 Lw (fun _ w => item words_ends b w))) ->
  shape0 audio_mask = dim0 audio -> shape1 audio_mask = dim1 audio ->
  shape0 words_ends = dim0 audio ->
  same_shape words_ends_mask words_ends = true ->
  (b < dim0 audio)%nat -> (0 < La <= dim1 audio)%nat ->
  (0 < Lw <= shape1 words_ends)%nat ->
  (forall t, (t < dim1 audio)%nat ->
     item audio_mask b t = if (t <? La)%nat then 1 else 0) ->
  (forall w, (w < shape1 words_ends)%nat ->
     item words_ends_mask b w = if (w <? Lw)%nat then 1 else 0) ->
  (forall w, (w < Lw)%nat -> (0 <= item words_ends b w < Z.of_nat La)%Z) ->
  Helpers.training_representation
    (EncoderGraphs.create_audio_encoder encoder parameters) env = Ok r ->
  exists r',
    Helpers.sampling_representation
      (EncoderGraphs.create_audio_encoder encoder parameters) senv = Ok r'
    /\ dim0 r' = Lw /\ dim1 r' = 1%nat
    /\ forall t j, (t < Lw)%nat -> item3 r' t 0%nat j = item3 r t b j.
Proof.
  intros Hwf1 Hwf2 Haudio Hamask Hends Hemask Hsaudio Hsends
    Hm0 Hm1 Hw0 Hwshape Hb HLa HLw Hprefix_a Hprefix_w Hkept H.
  apply same_shape_eq in Hwshape. destruct Hwshape as [Hws0 Hws1].
  cbn [EncoderGraphs.create_audio_encoder Helpers.training_representation
       Helpers.sampling_representation] in *.
  unfold EncoderGraphs.ftensor3, Helpers.lmatrix, Helpers.matrix_ in *.
  rewrite Haudio, Hamask, Hends, Hemask in H. rewrite Hsaudio, Hsends.
  cbn [bind shape0 shape1 dim0 dim1] in *.
  set (audio_s := Ten3 1 La (dim2 audio) (fun _ t j => item3 audio b t j)).
  set (ends_s := Mat 1 Lw (fun _ w => item words_ends b w)).
  unfold BidirectionalAudioEncoder.apply in *.
  apply bind_Ok in H. destruct H as (e & He & H).
  apply bind_Ok in H. destruct H as (g & Hg & Hr).
  pose proof (apply_forked_Ok_inv _ _ _ _ _ _ He)
    as (Hf1 & Hf2 & _ & _ & He0 & He1 & He2 & _).
  cbn [T shape0 shape1 BidirectionalAudioEncoder.dimshuffle102 dim0 dim1 dim2]
    in Hf1, Hf2, He0, He1.
  pose proof (take_words_ends_Ok_inv _ _ _ _ Hw0 Hg) as (Hg0 & Hg1 & Hg2 & Hin & Hgi).
  pose proof (apply_forked_Ok_inv _ _ _ _ _ _ Hr)
    as (Hs1 & Hs2 & _ & _ & Hr0 & Hr1 & Hr2 & _).
  (* the first stage on the recording alone *)
  destruct (apply_forked_Ok (BidirectionalAudioEncoder.embedding encoder)
              (BidirectionalAudioEncoder.embedding_fwd_fork encoder)
              (BidirectionalAudioEncoder.embedding_back_fork encoder)
              (BidirectionalAudioEncoder.dimshuffle102 audio_s) (T (ones 1 La)))
    as (e_s & He_s); [exact Hf1 | exact Hf2 | cbn; lia | reflexivity |].
  pose proof (apply_forked_Ok_inv _ _ _ _ _ _ He_s)
    as (_ & _ & _ & _ & He0_s & He1_s & He2_s & _).
  cbn [T ones shape0 shape1] in He0_s, He1_s.
  assert (S1 : forall t j, (t < La)%nat -> item3 e_s t 0%nat j = item3 e t b j).
  { apply (apply_forked_kept_positions _ _ _ _ _ _ _ _ _ b 0%nat La Hwf1 He He_s).
    - cbn [T shape0 BidirectionalAudioEncoder.dimshuffle102 dim0]. lia.
    - cbn [BidirectionalAudioEncoder.dimshuffle102 dim0]. lia.
    - cbn [T item BidirectionalAudioEncoder.dimshuffle102 dim0]. exact Hprefix_a.
    - reflexivity.
    - reflexivity.
    - reflexivity.
    - reflexivity. }
  rewrite He_s. cbn [bind].
  (* its word ends *)
  destruct (take_words_ends_Ok 1 e_s ends_s) as (g_s & Hg_s).
  { reflexivity. } { lia. }
  { intros i w Hi Hw. unfold ends_s in *. cbn [item shape1] in *. apply in_bounds_iff.
    rewrite He0_s. specialize (Hkept w Hw). lia. }
  pose proof (take_words_ends_Ok_inv 1 e_s ends_s g_s eq_refl Hg_s)
    as (Hg0_s & Hg1_s & Hg2_s & _ & Hgi_s).
  unfold ends_s in Hg0_s, Hgi_s. cbn [shape1 item] in Hg0_s, Hgi_s.
  assert (S2 : forall w j, (w < Lw)%nat -> item3 g_s w 0%nat j = item3 g w b j).
  { intros w j Hw. rewrite Hgi_s, Hgi by lia. rewrite He0_s, He0.
    specialize (Hkept w Hw). unfold BidirectionalAudioEncoder.wrap.
    destruct (Z.ltb_spec (item words_ends b w) 0); [lia|].
    apply S1. lia. }
  change (dim0 audio_s) with 1%nat. rewrite Hg_s. cbn [bind].
  (* the second stage *)
  destruct (apply_forked_Ok (BidirectionalAudioEncoder.bidir encoder)
              (BidirectionalAudioEncoder.fwd_fork encoder)
              (BidirectionalAudioEncoder.back_fork encoder) g_s (T (ones 1 Lw)))
    as (r_s & Hr_s).
  { congruence. } { congruence. }
  { cbn [T ones shape0 shape1]. lia. } { cbn [T ones shape0 shape1]. lia. }
  pose proof (apply_forked_Ok_inv _ _ _ _ _ _ Hr_s)
    as (_ & _ & _ & _ & Hr0_s & Hr1_s & _).
  exists r_s. split; [exact Hr_s|]. split; [exact Hr0_s|]. split; [exact Hr1_s|].
  apply (apply_forked_kept_positions _ _ _ _ _ _ _ _ _ b 0%nat Lw Hwf2 Hr Hr_s).
  - cbn [T shape0]. lia.
  - lia.
  - cbn [T item]. rewrite Hg0. exact Hprefix_w.
  - exact Hg0_s.
  - reflexivity.
  - reflexivity.
  - intros t j Ht _. apply S2. exact Ht.
Qed.

End AudioEncoderGraphs.

Lemma audio_encoder_second_stage_well_formed :
  GatedRecurrent.well_formed
    (BidirectionalWMT15.backward
       (BidirectionalAudioEncoder.bidir AudioExamples.audio_encoder)).
Proof.
  split; [reflexivity | intros s x g Hs; cbn; rewrite length_map; exact Hs].
Defined.

Lemma audio_sampling_agrees_with_training_on_a_padded_batch_witness :
  exists r r',
    Helpers.training_representation
      (EncoderGraphs.create_audio_encoder AudioExamples.audio_encoder
         EncoderExamples.no_parameters) AudioGraphExamples.training_inputs = Ok r
    /\ Helpers.sampling_representation
         (EncoderGraphs.create_audio_encoder AudioExamples.audio_encoder
            EncoderExamples.no_parameters) AudioGraphExamples.sampling_inputs = Ok r'
    /\ dim0 r' = 1%nat /\ dim1 r' = 1%nat
    /\ forall t j, (t < 1)%nat -> item3 r' t 0%nat j = item3 r t 0%nat j.
Proof.
  assert (H : exists r,
            Helpers.training_representation
              (EncoderGraphs.create_audio_encoder AudioExamples.audio_encoder
                 EncoderExamples.no_parameters) AudioGraphExamples.training_inputs
            = Ok r) by (eexists; reflexivity).
  destruct H as (r & H). exists r.
  destruct (audio_sampling_agrees_with_training_on_a_padded_batch
              AudioExamples.audio_encoder EncoderExamples.no_parameters
              AudioGraphExamples.training_inputs AudioGraphExamples.sampling_inputs
              AudioExamples.audio AudioExamples.audio_mask AudioExamples.words_ends
              AudioExamples.words_ends_mask 0 2 1 r
              audio_encoder_well_formed audio_encoder_second_stage_well_formed
              eq_refl eq_refl eq_refl eq_refl eq_refl eq_refl
              eq_refl eq_refl eq_refl eq_refl)
    as (r' & Hr'); [ | | | | | | exact H | ].
  - cbn; lia.
  - cbn; lia.
  - cbn; lia.
  - intros t Ht. reflexivity.
  - intros w Hw. cbn in Hw. destruct w as [|[|w]]; [reflexivity | reflexivity | lia].
  - intros w Hw. assert (w = 0%nat) as -> by lia. cbn. lia.
  - exists r'. split; [exact H | exact Hr'].
Defined.

(** ** The phones encoders *)

(** Property X28.  [BidirectionalPhonesEncoder.apply] returns a representation
    only when every phone lies in [-vocab_size, vocab_size) and the
    encoder has [embedding_dim = state_dim]; the representation is
    time-major over the word ends with [2 * state_dim] features. *)
Theorem phones_encoder_needs_known_phones_and_equal_dims
    (self : BidirectionalPhonesEncoder.t) (phones : matrix Z) (phones_mask : matrix R)
    (phones_words_ends : matrix Z) (phones_words_ends_mask : matrix R) (r : tensor3) :
  BidirectionalPhonesEncoder.apply self phones phones_mask phones_words_ends
    phones_words_ends_mask = Ok r ->
  BidirectionalPhonesEncoder.embedding_dim self = BidirectionalPhonesEncoder.state_dim self
  /\ (forall b t, (b < shape0 phones)%nat -> (t < shape1 phones)%nat ->
        (- Z.of_nat (BidirectionalPhonesEncoder.vocab_size self) <= item phones b t
         < Z.of_nat (BidirectionalPhonesEncoder.vocab_size self))%Z)
  /\ dim0 r = shape1 phones_words_ends_mask /\ dim1 r = shape0 phones_words_ends_mask
  /\ (dim0 r <= shape1 phones_words_ends)%nat
  /\ dim2 r = (2 * BidirectionalPhonesEncoder.state_dim self)%nat.
Proof.
  intros H. unfold BidirectionalPhonesEncoder.apply in H.
  apply bind_Ok in H. destruct H as (p & Hp & H).
  apply bind_Ok in H. destruct H as (e & He & H).
  apply bind_Ok in H. destruct H as (g & Hg & Hr).
  pose proof (lookup_apply_matrix_Ok _ _ _ Hp) as Hbounds.
  pose proof (apply_forked_Ok_inv _ _ _ _ _ _ He) as (_ & _ & _ & _ & _ & _ & He2 & _).
  pose proof (apply_forked_Ok_inv _ _ _ _ _ _ Hr)
    as (Hg2 & _ & Hr0' & _ & Hr0 & Hr1 & Hr2 & _).
  assert (Hgd : dim2 g = dim2 e /\ dim0 g = shape1 phones_words_ends).
  { revert Hg. unfold BidirectionalAudioEncoder.take_words_ends.
    destruct (BidirectionalAudioEncoder.broadcast _ _) as [n|]; [|discriminate].
    cbn [bind]. destruct (forallb _ _); [|discriminate].
    intros Hg. injection Hg as <-. split; reflexivity. }
  destruct Hgd as [Hgd2 Hgd0].
  cbn [T shape0 shape1 BidirectionalPhonesEncoder.fwd_fork Fork.input_dim] in *.
  unfold BidirectionalWMT15.output_dim in *.
  cbn [BidirectionalPhonesEncoder.embedding BidirectionalPhonesEncoder.bidir
       BidirectionalWMT15.forward BidirectionalWMT15.backward GatedRecurrent.dim] in *.
  split; [lia|]. split; [|repeat split; lia].
  intros b t Hb Ht. apply in_bounds_iff. apply (Hbounds b t Hb Ht).
Qed.

Lemma phones_encoder_needs_known_phones_and_equal_dims_witness :
  exists r,
    BidirectionalPhonesEncoder.apply PhonesExamples.phones_encoder PhonesExamples.phones
      PhonesExamples.phones_mask PhonesExamples.phones_words_ends
      PhonesExamples.phones_words_ends_mask = Ok r
    /\ dim0 r = 2%nat /\ dim1 r = 2%nat /\ dim2 r = 2%nat.
Proof.
  eexists. split; [reflexivity|].
  destruct (phones_encoder_needs_known_phones_and_equal_dims
              PhonesExamples.phones_encoder PhonesExamples.phones
              PhonesExamples.phones_mask PhonesExamples.phones_words_ends
              PhonesExamples.phones_words_ends_mask _ eq_refl)
    as (_ & _ & H0 & H1 & _ & H2).
  exact (conj H0 (conj H1 H2)).
Defined.

(** Property X29.  [BidirectionalPhonemeAudioEncoder.apply] feeds its last stage
    with [phoneme_embeddings], so the variable [words_embeddings] is no
    part of what it returns: the representation is that of the two-stage
    audio encoder made of the audio and words stages, on the acoustic ends
    and the mask of the word ends.  It reads neither [phoneme_words_ends]
    nor [phones_words_acoustic_ends_mask] nor the phoneme stage. *)
Theorem phoneme_audio_encoder_skips_the_phoneme_stage
    (self : BidirectionalPhonemeAudioEncoder.t) (audio : tensor3) (audio_mask : matrix R)
    (phones_words_acoustic_ends : matrix Z) (phones_words_acoustic_ends_mask : matrix R)
    (phoneme_words_ends : matrix Z) (phoneme_words_ends_mask : matrix R) :
  BidirectionalPhonemeAudioEncoder.apply self audio audio_mask
    phones_words_acoustic_ends phones_words_acoustic_ends_mask
    phoneme_words_ends phoneme_words_ends_mask
  = BidirectionalAudioEncoder.apply
      (BidirectionalPhonemeAudioEncoder.audio_and_words_stages self)
      audio audio_mask phones_words_acoustic_ends phoneme_words_ends_mask.
Proof.
  unfold BidirectionalPhonemeAudioEncoder.apply, BidirectionalPhonemeAudioEncoder.build,
    BidirectionalAudioEncoder.apply.
  cbn [BidirectionalPhonemeAudioEncoder.representation].
  change (BidirectionalAudioEncoder.embedding
            (BidirectionalPhonemeAudioEncoder.audio_and_words_stages self))
    with (BidirectionalPhonemeAudioEncoder.audio_embedding self).
  destruct (BidirectionalWMT15.apply_forked _ _ _ _ _) as [e|err]; reflexivity.
Qed.
